(** * webpack-resolve-library-plugin: the dll cache and injection engine

    A shallow embedding of the development-mode pipeline of the plugin
    (functions [make], [build] and the hooks registered by
    [injectOptionsForDevelopment]) together with the parts of the
    JavaScript runtime it leans on: JSON values, lodash's [isEqual],
    [Object.keys], promises, the console, the three files the plugin
    touches, and the external bundler seen as an oracle. *)

From Stdlib Require Import List String Ascii Bool Arith ZArith QArith Lia.
From Stdlib Require Import Qround Qabs Lqa DecimalString.
Import ListNotations.

Set Warnings "-register-all".
Local Close Scope Q_scope.
Local Open Scope list_scope.
Local Open Scope string_scope.

(* ================================================================== *)
(** ** JavaScript values *)
(* ================================================================== *)

Module Js.

(** The values [JSON.parse] can produce, plus [undefined].  An object is
    the list of its own enumerable properties in enumeration order; its
    keys are pairwise distinct ([wf_props]).  A finite Number is the
    rational it stands for (the two zeros are one); a number literal too
    large for a finite Number reads as an infinity.  A string is the
    sequence of its UTF-8 bytes, as a file holds it. *)
Inductive value : Type :=
| VUndefined
| VNull
| VBool (b : bool)
| VNum (x : Q)
| VInfinity (negative : bool)
| VStr (s : string)
| VArr (xs : list value)
| VObj (props : list (string * value)).

(** ToBoolean, as used by [cache && ...]. *)
Definition truthy (v : value) : bool :=
  match v with
  | VUndefined | VNull => false
  | VBool b => b
  | VNum x => negb (Qeq_bool x 0)
  | VInfinity _ => true
  | VStr s => negb (s =? EmptyString)%string
  | VArr _ | VObj _ => true
  end.

(** Own-property lookup in a property list. *)
Fixpoint get_own {A : Type} (props : list (string * A)) (k : string) : option A :=
  match props with
  | [] => None
  | (k', v) :: rest => if (k' =? k)%string then Some v else get_own rest k
  end.

Fixpoint digits_value (acc : Z) (s : string) : option Z :=
  match s with
  | EmptyString => Some acc
  | String c r =>
      let n := nat_of_ascii c in
      if ((48 <=? n) && (n <=? 57))%nat
      then digits_value (10 * acc + Z.of_nat (n - 48))%Z r
      else None
  end.

(** Is the key an array index: the canonical decimal text of an integer
    from 0 to 2^32 - 2?  Such keys are enumerated first, in ascending
    order; the other keys follow in the order of their creation. *)
Definition array_index (k : string) : option Z :=
  match k with
  | EmptyString => None
  | String c r =>
      if (c =? "0")%char
      then match r with EmptyString => Some 0%Z | String _ _ => None end
      else match digits_value 0%Z k with
           | Some n => if (n <=? 4294967294)%Z then Some n else None
           | None => None
           end
  end.

(** A new property with the array index [n] takes its place among the
    array indices at the head of the list. *)
Fixpoint insert_index {A : Type} (n : Z) (k : string) (v : A)
  (props : list (string * A)) : list (string * A) :=
  match props with
  | [] => [(k, v)]
  | (k', v') :: rest =>
      match array_index k' with
      | Some m =>
          if (m <? n)%Z then (k', v') :: insert_index n k v rest
          else (k, v) :: props
      | None => (k, v) :: props
      end
  end.

(** An existing property keeps its place and takes the new value. *)
Fixpoint overwrite {A : Type} (props : list (string * A)) (k : string) (v : A)
  : list (string * A) :=
  match props with
  | [] => []
  | (k', v') :: rest =>
      if (k' =? k)%string then (k', v) :: rest else (k', v') :: overwrite rest k v
  end.

(** [obj[k] = v] (CreateDataProperty), keeping the list in enumeration
    order. *)
Definition set_prop {A : Type} (props : list (string * A)) (k : string) (v : A)
  : list (string * A) :=
  match get_own props k with
  | Some _ => overwrite props k v
  | None =>
      match array_index k with
      | Some n => insert_index n k v props
      | None => (props ++ [(k, v)])%list
      end
  end.

Definition keys {A : Type} (props : list (string * A)) : list string :=
  map fst props.

Fixpoint nodupb (l : list string) : bool :=
  match l with
  | [] => true
  | x :: r => negb (existsb (String.eqb x) r) && nodupb r
  end.

(** Keys of a JavaScript object are pairwise distinct. *)
Definition wf_props {A : Type} (props : list (string * A)) : Prop :=
  nodupb (keys props) = true.

Definition index_name (i : nat) : string :=
  NilZero.string_of_uint (Nat.to_uint i).

(** [Object.keys(v)]: [None] stands for the TypeError raised on
    [undefined] and [null]; primitives are coerced to their wrapper
    objects (a string exposes its indices, numbers and booleans nothing). *)
Definition Object_keys (v : value) : option (list string) :=
  match v with
  | VUndefined | VNull => None
  | VBool _ | VNum _ | VInfinity _ => Some []
  | VStr s => Some (map index_name (seq 0 (String.length s)))
  | VArr xs => Some (map index_name (seq 0 (List.length xs)))
  | VObj props => Some (keys props)
  end.

(** [v.dependencies]: [None] stands for the TypeError raised when [v] is
    [undefined] or [null]; a missing property reads as [undefined] (no
    prototype of a JSON value defines a property of that name). *)
Definition prop_dependencies (v : value) : option value :=
  match v with
  | VUndefined | VNull => None
  | VObj props =>
      match get_own props "dependencies" with
      | Some d => Some d
      | None => Some VUndefined
      end
  | _ => Some VUndefined
  end.

(** lodash [isEqual] on these values: primitives by SameValueZero, arrays
    element by element, plain objects by [equalObjects] (same number of
    own keys, every key of the first owned by the second with an equal
    value); values of different kinds are never equal. *)
Fixpoint isEqual (a b : value) {struct a} : bool :=
  match a, b with
  | VUndefined, VUndefined => true
  | VNull, VNull => true
  | VBool x, VBool y => Bool.eqb x y
  | VNum x, VNum y => Qeq_bool x y
  | VInfinity x, VInfinity y => Bool.eqb x y
  | VStr x, VStr y => (x =? y)%string
  | VArr xs, VArr ys =>
      (fix all2 (xs : list value) (ys : list value) {struct xs} : bool :=
         match xs, ys with
         | [], [] => true
         | x :: xs', y :: ys' => isEqual x y && all2 xs' ys'
         | _, _ => false
         end) xs ys
  | VObj ps, VObj qs =>
      (List.length ps =? List.length qs)%nat &&
      (fix every (ps : list (string * value)) {struct ps} : bool :=
         match ps with
         | [] => true
         | (k, v) :: ps' =>
             match get_own qs k with
             | Some w => isEqual v w
             | None => false
             end && every ps'
         end) ps
  | _, _ => false
  end.

(** [xs.indexOf(x)] on an array of strings: position of the first
    element strictly equal to [x], [-1] when there is none. *)
Fixpoint indexOf_from (i : Z) (xs : list string) (x : string) : Z :=
  match xs with
  | [] => (-1)%Z
  | y :: rest => if (y =? x)%string then i else indexOf_from (i + 1)%Z rest x
  end.

Definition indexOf (xs : list string) (x : string) : Z := indexOf_from 0%Z xs x.

(** ToInt32 and the bitwise complement [~] built on it. *)
Definition to_int32 (z : Z) : Z := ((z + 2 ^ 31) mod 2 ^ 32 - 2 ^ 31)%Z.

Definition bit_not (z : Z) : Z := Z.lnot (to_int32 z).

(** [!n] on a number. *)
Definition not_num (z : Z) : bool := (z =? 0)%Z.

(** Largest length a JavaScript array can have. *)
Definition max_array_length : Z := (2 ^ 32 - 1)%Z.

(** *** Arithmetic on Numbers

    A finite Number is the rational it stands for.  Every arithmetic
    operation gives the exact result rounded to IEEE 754 binary64:
    53 significant bits, round to nearest, ties to even, subnormal below
    [2 ^ -1022].  Results of [2 ^ 1024] and more are [Infinity] on the
    machine and are not modelled; no time value comes near them. *)

(** The power [2 ^ e], [e] of either sign. *)
Definition pow2 (e : Z) : Q :=
  if (0 <=? e)%Z then inject_Z (2 ^ e) else 1 # Z.to_pos (2 ^ (- e)).

(** The integer nearest to [q]; of two equally near, the even one. *)
Definition round_half_even (q : Q) : Z :=
  let f := Qfloor q in
  match Qcompare (q - inject_Z f) (1 # 2) with
  | Lt => f
  | Gt => (f + 1)%Z
  | Eq => if Z.even f then f else (f + 1)%Z
  end.

(** [floor (log2 q)] for [q > 0]. *)
Definition ilog2 (q : Q) : Z :=
  if Qle_bool 1 q then Z.log2 (Qfloor q) else (- Z.log2_up (Qceiling (/ q)))%Z.

(** The binary64 number nearest to [q]: [q] is scaled so that its
    significand is an integer of 53 bits (fewer for a subnormal), and
    that integer is rounded. *)
Definition binary64 (q : Q) : Q :=
  if Qeq_bool q 0 then 0%Q
  else
    let e := Z.max (ilog2 (Qabs q) - 52) (-1074) in
    Qred (inject_Z (round_half_even (q / pow2 e)) * pow2 e).

(** [a / b] and [a - b] on Numbers. *)
Definition num_div (a b : Q) : Q := binary64 (a / b).
Definition num_sub (a b : Q) : Q := binary64 (a - b).

(** Is the rounded magnitude beyond the largest finite Number? *)
Definition overflows (x : Q) : bool := Qle_bool (pow2 1024) (Qabs x).

(** *** Number::toString

    The decimal text of a finite Number: the fewest digits that read
    back as the same Number, and of several such digit strings the one
    nearest to it. *)

Definition pow10 (e : Z) : Q :=
  if (0 <=? e)%Z then inject_Z (10 ^ e) else 1 # Z.to_pos (10 ^ (- e)).

(** The [n] with [10 ^ (n - 1) <= x < 10 ^ n], for [x > 0]: an estimate
    from the binary logarithm, put right by at most three steps either
    way. *)
Definition dec_exp (x : Q) : Z :=
  let up (n : Z) := if Qle_bool (pow10 n) x then (n + 1)%Z else n in
  let down (n : Z) := if Qle_bool (pow10 (n - 1)) x then n else (n - 1)%Z in
  down (down (down (up (up (up ((ilog2 x * 30103) / 100000)%Z))))).

(** [digits_from fuel k x n]: the digits [s] of the first length from
    [k] on ([k], [k + 1], ...) at which [s * 10 ^ (n - k)] reads back as
    [x], with that length. *)
Fixpoint digits_from (fuel : nat) (k : Z) (x : Q) (n : Z) : Z * Z :=
  let scale := pow10 (n - k) in
  let y := (x / scale)%Q in
  let lo := Qfloor y in
  let hi := (lo + 1)%Z in
  let fits (s : Z) :=
    ((10 ^ (k - 1) <=? s) && (s <=? 10 ^ k))%Z
    && Qeq_bool (binary64 (inject_Z s * scale)) x in
  let nearest :=
    match Qcompare (y - inject_Z lo) (inject_Z hi - y) with
    | Lt => lo
    | Gt => hi
    | Eq => if Z.even lo then lo else hi
    end in
  match fits lo, fits hi with
  | true, true => (nearest, k)
  | true, false => (lo, k)
  | false, true => (hi, k)
  | false, false =>
      match fuel with
      | O => (nearest, k)
      | S fuel' => digits_from fuel' (k + 1)%Z x n
      end
  end.

Definition string_of_Z (n : Z) : string := NilZero.string_of_int (Z.to_int n).

Fixpoint zeros (n : nat) : string :=
  match n with
  | O => EmptyString
  | S n' => String "0" (zeros n')
  end.

(** The text of a positive finite Number. *)
Definition positive_toString (x : Q) : string :=
  let n0 := dec_exp x in
  let '(s0, k0) := digits_from 17 1 x n0 in
  (* the digits may have been rounded up to a power of ten *)
  let '(ds, k, n) :=
    if (s0 =? 10 ^ k0)%Z then ("1", 1%Z, (n0 + 1)%Z)
    else (string_of_Z s0, k0, n0) in
  let exponent (e : Z) :=
    "e" ++ (if (0 <=? e)%Z then "+" else "-") ++ string_of_Z (Z.abs e) in
  if ((k <=? n) && (n <=? 21))%Z then ds ++ zeros (Z.to_nat (n - k))
  else if ((0 <? n) && (n <=? 21))%Z then
    substring 0 (Z.to_nat n) ds ++ "."
      ++ substring (Z.to_nat n) (Z.to_nat (k - n)) ds
  else if ((-6 <? n) && (n <=? 0))%Z then
    "0." ++ zeros (Z.to_nat (- n)) ++ ds
  else if (k =? 1)%Z then ds ++ exponent (n - 1)%Z
  else
    substring 0 1 ds ++ "." ++ substring 1 (Z.to_nat (k - 1)) ds
      ++ exponent (n - 1)%Z.

Definition Number_toString (x : Q) : string :=
  match Qcompare x 0 with
  | Eq => "0"
  | Gt => positive_toString x
  | Lt => "-" ++ positive_toString (- x)
  end.

End Js.

(* ================================================================== *)
(** ** JSON text *)
(* ================================================================== *)

Module Json.
Import Js.

(** What the program asks of the runtime's JSON object.  [JSON_parse]
    answers [None] where JSON.parse throws a SyntaxError. *)
Class Codec : Type := {
  JSON_parse : string -> option value;
  JSON_stringify : value -> string
}.

(** *** A reference codec

    A serializer and a recursive-descent parser for JSON text held as
    UTF-8 bytes: objects, arrays, strings with their escapes, numbers,
    [true], [false], [null] and white space.  A [\u] escape stands for
    the UTF-8 bytes of its code point, two escapes that form a surrogate
    pair for the four bytes of theirs; a surrogate on its own has no
    UTF-8 form and is refused. *)

Definition dquote : ascii := "034"%char.
Definition bslash : ascii := "092"%char.

Definition hex_digit (n : nat) : ascii :=
  match n with
  | 0 => "0" | 1 => "1" | 2 => "2" | 3 => "3" | 4 => "4" | 5 => "5"
  | 6 => "6" | 7 => "7" | 8 => "8" | 9 => "9" | 10 => "a" | 11 => "b"
  | 12 => "c" | 13 => "d" | 14 => "e" | _ => "f"
  end%char.

(** QuoteJSONString, one character at a time. *)
Definition escape_char (c : ascii) : string :=
  let n := nat_of_ascii c in
  if (c =? dquote)%char then String bslash (String dquote EmptyString)
  else if (c =? bslash)%char then String bslash (String bslash EmptyString)
  else if (n =? 8)%nat then String bslash "b"
  else if (n =? 9)%nat then String bslash "t"
  else if (n =? 10)%nat then String bslash "n"
  else if (n =? 12)%nat then String bslash "f"
  else if (n =? 13)%nat then String bslash "r"
  else if (n <? 32)%nat then
    String bslash
      (String "u" (String "0" (String "0"
        (String (hex_digit (n / 16)) (String (hex_digit (n mod 16)) EmptyString)))))
  else String c EmptyString.

Fixpoint escape (s : string) : string :=
  match s with
  | EmptyString => EmptyString
  | String c r => escape_char c ++ escape r
  end.

Definition quote (s : string) : string :=
  String dquote (escape s ++ String dquote EmptyString).

(** The members that are written, in order. *)
Fixpoint present (xs : list (option string)) : list string :=
  match xs with
  | [] => []
  | Some x :: rest => x :: present rest
  | None :: rest => present rest
  end.

(** SerializeJSONProperty without indentation.  Inside an array
    [undefined] is written [null]; a property whose value is
    [undefined] is left out. *)
Fixpoint stringify_in (v : value) : string :=
  match v with
  | VUndefined | VNull => "null"
  | VBool true => "true"
  | VBool false => "false"
  | VNum x => Number_toString x
  | VInfinity _ => "null"
  | VStr s => quote s
  | VArr xs => "[" ++ String.concat "," (map stringify_in xs) ++ "]"
  | VObj ps =>
      "{" ++ String.concat ","
               (present
                  (map (fun '(k, v) =>
                          match v with
                          | VUndefined => None
                          | _ => Some (quote k ++ ":" ++ stringify_in v)
                          end) ps)) ++ "}"
  end.

(** [JSON.stringify(v)] as [fs.writeFile] receives it.  At top level
    [JSON.stringify(undefined)] is [undefined] itself, which writeFile
    coerces to text. *)
Definition stringify (v : value) : string :=
  match v with
  | VUndefined => "undefined"
  | _ => stringify_in v
  end.

Definition is_ws (c : ascii) : bool :=
  let n := nat_of_ascii c in
  (n =? 32)%nat || (n =? 9)%nat || (n =? 10)%nat || (n =? 13)%nat.

Fixpoint skip_ws (s : string) : string :=
  match s with
  | String c r => if is_ws c then skip_ws r else s
  | EmptyString => s
  end.

Definition hex_val (c : ascii) : option nat :=
  let n := nat_of_ascii c in
  if (48 <=? n)%nat && (n <=? 57)%nat then Some (n - 48)
  else if (97 <=? n)%nat && (n <=? 102)%nat then Some (n - 87)
  else if (65 <=? n)%nat && (n <=? 70)%nat then Some (n - 55)
  else None.

(** The code unit written [\uabcd]. *)
Definition hex4 (a b c d : ascii) : option N :=
  match hex_val a, hex_val b, hex_val c, hex_val d with
  | Some w, Some x, Some y, Some z =>
      Some (4096 * N.of_nat w + 256 * N.of_nat x + 16 * N.of_nat y + N.of_nat z)%N
  | _, _, _, _ => None
  end.

Definition high_surrogate (n : N) : bool := ((55296 <=? n) && (n <? 56320))%N.
Definition low_surrogate (n : N) : bool := ((56320 <=? n) && (n <? 57344))%N.

(** The code point of a surrogate pair. *)
Definition paired (hi lo : N) : N :=
  (65536 + 1024 * (hi - 55296) + (lo - 56320))%N.

(** The UTF-8 bytes of a code point. *)
Definition utf8 (n : N) : string :=
  let byte (m : N) := ascii_of_N m in
  let tail (m : N) := byte (128 + m mod 64)%N in
  if (n <? 128)%N then String (byte n) EmptyString
  else if (n <? 2048)%N then
    String (byte (192 + n / 64)%N) (String (tail n) EmptyString)
  else if (n <? 65536)%N then
    String (byte (224 + n / 4096)%N)
      (String (tail (n / 64)%N) (String (tail n) EmptyString))
  else
    String (byte (240 + n / 262144)%N)
      (String (tail (n / 4096)%N)
         (String (tail (n / 64)%N) (String (tail n) EmptyString))).

Definition unescape (e : ascii) : option ascii :=
  let n := nat_of_ascii e in
  if (e =? dquote)%char then Some dquote
  else if (e =? bslash)%char then Some bslash
  else if (e =? "/")%char then Some "/"%char
  else if (e =? "b")%char then Some (ascii_of_nat 8)
  else if (e =? "t")%char then Some (ascii_of_nat 9)
  else if (e =? "n")%char then Some (ascii_of_nat 10)
  else if (e =? "f")%char then Some (ascii_of_nat 12)
  else if (e =? "r")%char then Some (ascii_of_nat 13)
  else None.

Definition cons_char (c : ascii) (r : option (string * string))
  : option (string * string) :=
  match r with
  | Some (s, rest) => Some (String c s, rest)
  | None => None
  end.

Definition prepend (bytes : string) (r : option (string * string))
  : option (string * string) :=
  match r with
  | Some (s, rest) => Some (bytes ++ s, rest)
  | None => None
  end.

(** The characters of a string literal, after its opening quote. *)
Fixpoint parse_chars (s : string) : option (string * string) :=
  match s with
  | EmptyString => None
  | String c r =>
      if (c =? dquote)%char then Some (EmptyString, r)
      else if (c =? bslash)%char then
        match r with
        | EmptyString => None
        | String e r1 =>
            match unescape e with
            | Some c' => cons_char c' (parse_chars r1)
            | None =>
                if (e =? "u")%char then
                  match r1 with
                  | String h1 (String h2 (String h3 (String h4 r2))) =>
                      match hex4 h1 h2 h3 h4 with
                      | Some n =>
                          if high_surrogate n then
                            match r2 with
                            | String b (String u (String l1 (String l2
                                (String l3 (String l4 r3))))) =>
                                match hex4 l1 l2 l3 l4 with
                                | Some m =>
                                    if (b =? bslash)%char && (u =? "u")%char
                                       && low_surrogate m
                                    then prepend (utf8 (paired n m)) (parse_chars r3)
                                    else None
                                | None => None
                                end
                            | _ => None
                            end
                          else if low_surrogate n then None
                          else prepend (utf8 n) (parse_chars r2)
                      | None => None
                      end
                  | _ => None
                  end
                else None
            end
        end
      else if (nat_of_ascii c <? 32)%nat then None
      else cons_char c (parse_chars r)
  end.

Definition is_digit (c : ascii) : bool :=
  let n := nat_of_ascii c in (48 <=? n)%nat && (n <=? 57)%nat.

(** A run of digits: its value on top of [acc], how many there were,
    and what follows. *)
Fixpoint parse_digits (acc : Z) (count : Z) (s : string) : Z * Z * string :=
  match s with
  | String c r =>
      if is_digit c
      then parse_digits (10 * acc + Z.of_nat (nat_of_ascii c - 48))%Z (count + 1)%Z r
      else (acc, count, s)
  | EmptyString => (acc, count, s)
  end.

(** The integer part: [0], or a digit from [1] to [9] and more digits. *)
Definition parse_integer (s : string) : option (Z * string) :=
  match s with
  | String c r =>
      if (c =? "0")%char then Some (0%Z, r)
      else if is_digit c then
        let '(n, _, rest) := parse_digits 0%Z 0%Z s in Some (n, rest)
      else None
  | EmptyString => None
  end.

(** The fraction, if there is one: a point and one digit or more. *)
Definition parse_fraction (s : string) : option (Q * string) :=
  match s with
  | String c r =>
      if (c =? ".")%char then
        let '(f, count, rest) := parse_digits 0%Z 0%Z r in
        if (count =? 0)%Z then None
        else Some ((inject_Z f * pow10 (- count))%Q, rest)
      else Some (0%Q, s)
  | EmptyString => Some (0%Q, s)
  end.

(** The exponent, if there is one: [e] or [E], a sign or none, and one
    digit or more. *)
Definition parse_exponent (s : string) : option (Z * string) :=
  match s with
  | String c r =>
      if (c =? "e")%char || (c =? "E")%char then
        let '(sign, r1) :=
          match r with
          | String d r' =>
              if (d =? "-")%char then ((-1)%Z, r')
              else if (d =? "+")%char then (1%Z, r')
              else (1%Z, r)
          | EmptyString => (1%Z, r)
          end in
        let '(e, count, rest) := parse_digits 0%Z 0%Z r1 in
        if (count =? 0)%Z then None else Some ((sign * e)%Z, rest)
      else Some (0%Z, s)
  | EmptyString => Some (0%Z, s)
  end.

(** A number literal, read as the Number nearest to it. *)
Definition parse_number (s : string) : option (value * string) :=
  let '(negative, s1) :=
    match s with
    | String c r => if (c =? "-")%char then (true, r) else (false, s)
    | EmptyString => (false, s)
    end in
  match parse_integer s1 with
  | Some (n, s2) =>
      match parse_fraction s2 with
      | Some (f, s3) =>
          match parse_exponent s3 with
          | Some (e, rest) =>
              let x := binary64 ((inject_Z n + f) * pow10 e)%Q in
              Some (if overflows x then VInfinity negative
                    else VNum (if negative then Qred (- x) else x),
                    rest)
          | None => None
          end
      | None => None
      end
  | None => None
  end.

Definition strip_prefix (p s : string) : option string :=
  if String.prefix p s
  then Some (substring (String.length p) (String.length s - String.length p) s)
  else None.

Fixpoint parse_value (fuel : nat) (s : string) {struct fuel}
  : option (value * string) :=
  match fuel with
  | O => None
  | S f =>
      match skip_ws s with
      | EmptyString => None
      | String c r as t =>
          if (c =? "{")%char then
            match skip_ws r with
            | String c1 r1 as t1 =>
                if (c1 =? "}")%char then Some (VObj [], r1)
                else parse_members f [] t1
            | EmptyString => None
            end
          else if (c =? "[")%char then
            match skip_ws r with
            | String c1 r1 as t1 =>
                if (c1 =? "]")%char then Some (VArr [], r1)
                else parse_elements f [] t1
            | EmptyString => None
            end
          else if (c =? dquote)%char then
            match parse_chars r with
            | Some (str, rest) => Some (VStr str, rest)
            | None => None
            end
          else
            match strip_prefix "true" t, strip_prefix "false" t, strip_prefix "null" t with
            | Some rest, _, _ => Some (VBool true, rest)
            | _, Some rest, _ => Some (VBool false, rest)
            | _, _, Some rest => Some (VNull, rest)
            | _, _, _ =>
                parse_number t
            end
      end
  end

(** [parse_members f acc s]: [s] starts at a member's key; [acc] holds
    the members read so far. *)
with parse_members (fuel : nat) (acc : list (string * value)) (s : string)
  {struct fuel} : option (value * string) :=
  match fuel with
  | O => None
  | S f =>
      match s with
      | String c r =>
          if (c =? dquote)%char then
            match parse_chars r with
            | Some (k, r1) =>
                match skip_ws r1 with
                | String c2 r2 =>
                    if (c2 =? ":")%char then
                      match parse_value f r2 with
                      | Some (v, r3) =>
                          match skip_ws r3 with
                          | String c4 r4 =>
                              if (c4 =? ",")%char
                              then parse_members f (set_prop acc k v) (skip_ws r4)
                              else if (c4 =? "}")%char
                              then Some (VObj (set_prop acc k v), r4)
                              else None
                          | EmptyString => None
                          end
                      | None => None
                      end
                    else None
                | EmptyString => None
                end
            | None => None
            end
          else None
      | EmptyString => None
      end
  end

(** [parse_elements f acc s]: [s] starts at an element; [acc] holds the
    elements read so far, last one first. *)
with parse_elements (fuel : nat) (acc : list value) (s : string)
  {struct fuel} : option (value * string) :=
  match fuel with
  | O => None
  | S f =>
      match parse_value f s with
      | Some (v, r1) =>
          match skip_ws r1 with
          | String c2 r2 =>
              if (c2 =? ",")%char then parse_elements f (v :: acc) r2
              else if (c2 =? "]")%char then Some (VArr (rev (v :: acc)), r2)
              else None
          | EmptyString => None
          end
      | None => None
      end
  end.

(** The whole text must be one value, white space around it allowed.
    Every step of the parser but the last consumes a character, so the
    length of the text bounds its depth. *)
Definition parse (s : string) : option value :=
  match parse_value (S (S (String.length s))) s with
  | Some (v, rest) =>
      match skip_ws rest with
      | EmptyString => Some v
      | String _ _ => None
      end
  | None => None
  end.

Definition reference : Codec :=
  {| JSON_parse := parse; JSON_stringify := stringify |}.

(** The text of one member of a dependency mapping. *)
Definition member_text (kr : string * string) : string :=
  quote (fst kr) ++ ":" ++ quote (snd kr).

End Json.

(* ================================================================== *)
(** ** The plugin *)
(* ================================================================== *)

Module Plugin.
Import Js Json.

(** *** Options *)

(** [log: boolean | 'info' | 'verbose' | 'none'] *)
Inductive LogOption : Type :=
| LogBool (b : bool)
| LogLevel (level : string).

Record Options : Type := {
  base : string;
  dllDirectoryName : string;
  dllName : string;
  include : list string;
  exclude : list string;
  log : LogOption
}.

Definition DefaultOptions (cwd : string) : Options :=
  {| base := cwd;
     dllDirectoryName := ".dll-cache";
     dllName := "vendor";
     include := [];
     exclude := [];
     log := LogBool true |}.

(** [webpackOptions.library]: any subset of the options. *)
Record Library : Type := {
  lib_base : option string;
  lib_dllDirectoryName : option string;
  lib_dllName : option string;
  lib_include : option (list string);
  lib_exclude : option (list string);
  lib_log : option LogOption
}.

Definition or_default {A : Type} (given : option A) (default : A) : A :=
  match given with Some a => a | None => default end.

(** [Object.assign({}, DefaultOptions, library)] *)
Definition assign_options (cwd : string) (library : Library) : Options :=
  let d := DefaultOptions cwd in
  {| base := or_default (lib_base library) (base d);
     dllDirectoryName := or_default (lib_dllDirectoryName library) (dllDirectoryName d);
     dllName := or_default (lib_dllName library) (dllName d);
     include := or_default (lib_include library) (include d);
     exclude := or_default (lib_exclude library) (exclude d);
     log := or_default (lib_log library) (log d) |}.

(** [a === b] on values of the [log] option. *)
Definition log_strict_eq (a b : LogOption) : bool :=
  match a, b with
  | LogBool x, LogBool y => Bool.eqb x y
  | LogLevel x, LogLevel y => (x =? y)%string
  | _, _ => false
  end.

(** The guard written before each message:
    [log !== false || log !== 'none']. *)
Definition log_guard (l : LogOption) : bool :=
  negb (log_strict_eq l (LogBool false)) || negb (log_strict_eq l (LogLevel "none")).

(** What the options ask for: logging is off when [log] is [false] or
    ['none']. *)
Definition log_disabled (l : LogOption) : bool :=
  log_strict_eq l (LogBool false) || log_strict_eq l (LogLevel "none").

(** *** The world outside the plugin *)

Record BundlerError : Type := {
  err_text : string;               (* the error printed as such *)
  err_stack : option string;       (* err.stack *)
  err_details : option string      (* err.details *)
}.

Record Stats : Type := {
  errors : list string;            (* stats.toJson().errors *)
  warnings : list string;          (* stats.toJson().warnings *)
  stats_text : string              (* stats.toString(true) *)
}.

Definition hasErrors (s : Stats) : bool := negb (Nat.eqb (List.length (errors s)) 0).
Definition hasWarnings (s : Stats) : bool := negb (Nat.eqb (List.length (warnings s)) 0).

(** What webpack hands to its callback: [(err, stats)]. *)
Inductive BundlerResult : Type :=
| Failed (err : BundlerError)
| Completed (stats : Stats).

(** One run of the external bundler: its answer, whether it emitted its
    output (the dll directory, the bundle and vendor-manifest.json) and
    how long it took, in milliseconds. *)
Record BundlerRun : Type := {
  result : BundlerResult;
  emitted : bool;
  duration : Z
}.

(** The configuration handed to webpack, as far as the plugin computes
    it: [entry = { [name]: [...] }]. *)
Record BuildInvocation : Type := {
  entry_name : string;
  entry : list string
}.

Inductive Error : Type :=
| JsError (message : string)             (* new Error(message) *)
| TypeError (message : string)
| SyntaxError
| FsError (code : string) (file : string)
| BundlerFailure (err : BundlerError)    (* webpack's err *)
| CompileErrors (errs : list string).    (* info.errors *)

Inductive Channel : Type := Log | Warn | Err.

(** The files are kept apart by name: package.json in [base], dll.json
    and vendor-manifest.json in the dll directory. *)
Record World : Type := {
  pkgJson : option string;         (* text of package.json, if readable *)
  dllCache : option string;        (* text of dll.json, if it exists *)
  dllDirectory : bool;             (* does the dll directory exist *)
  manifest : option Q;             (* mtime of vendor-manifest.json, seconds *)
  clock : Z;                       (* Date.now(), milliseconds *)
  console : list (Channel * string);
  invocations : list BuildInvocation;  (* webpack calls so far, in order *)
  race : Z -> bool                 (* two file operations started together
                                      at that time both fail: does the one
                                      started first fail first? *)
}.

Definition print (ch : Channel) (text : string) (w : World) : World :=
  {| pkgJson := pkgJson w; dllCache := dllCache w; dllDirectory := dllDirectory w;
     manifest := manifest w; clock := clock w;
     console := (console w ++ [(ch, text)])%list;
     invocations := invocations w; race := race w |}.

Definition set_dllCache (text : string) (w : World) : World :=
  {| pkgJson := pkgJson w; dllCache := Some text; dllDirectory := dllDirectory w;
     manifest := manifest w; clock := clock w; console := console w;
     invocations := invocations w; race := race w |}.

Definition set_manifest (t : Q) (w : World) : World :=
  {| pkgJson := pkgJson w; dllCache := dllCache w; dllDirectory := dllDirectory w;
     manifest := Some t; clock := clock w; console := console w;
     invocations := invocations w; race := race w |}.

(** Seconds since the epoch at [ms] milliseconds. *)
Definition seconds (ms : Z) : Q := Qmake ms 1000.

(** The bundler has run: the call is on record, time has passed, and
    what it emitted is on disk with a fresh modification time. *)
Definition bundled (inv : BuildInvocation) (run : BundlerRun) (w : World) : World :=
  let t := (clock w + Z.max 0 (duration run))%Z in
  {| pkgJson := pkgJson w;
     dllCache := dllCache w;
     dllDirectory := dllDirectory w || emitted run;
     manifest := if emitted run then Some (seconds t) else manifest w;
     clock := t;
     console := console w;
     invocations := (invocations w ++ [inv])%list;
     race := race w |}.

(** *** Promises *)

Inductive Outcome (A : Type) : Type :=
| Fulfilled (a : A)
| Rejected (e : Error).
Arguments Fulfilled {A} a.
Arguments Rejected {A} e.

(** An asynchronous computation, run to its settlement. *)
Definition Async (A : Type) : Type := World -> Outcome A * World.

Definition resolve {A : Type} (a : A) : Async A := fun w => (Fulfilled a, w).
Definition reject {A : Type} (e : Error) : Async A := fun w => (Rejected e, w).

(** [p.then(f)] *)
Definition andThen {A B : Type} (p : Async A) (f : A -> Async B) : Async B :=
  fun w =>
    match p w with
    | (Fulfilled a, w') => f a w'
    | (Rejected e, w') => (Rejected e, w')
    end.

(** [p.catch(h)] *)
Definition catch {A : Type} (p : Async A) (h : Error -> Async A) : Async A :=
  fun w =>
    match p w with
    | (Fulfilled a, w') => (Fulfilled a, w')
    | (Rejected e, w') => h e w'
    end.

(** [Promise.all([p, q])] on two operations that were started together
    and touch different files: both run to their end, and the first
    rejection to arrive settles the whole.  When both fail, which one
    arrives first is up to the scheduler ([race]). *)
Definition all2 (p q : Async unit) : Async unit :=
  fun w =>
    let '(rp, w1) := p w in
    let '(rq, w2) := q w1 in
    (match rp, rq with
     | Fulfilled _, Fulfilled _ => Fulfilled tt
     | Rejected e, Fulfilled _ => Rejected e
     | Fulfilled _, Rejected e => Rejected e
     | Rejected e1, Rejected e2 => Rejected (if race w (clock w) then e1 else e2)
     end, w2).

Notation "x <- p ;; k" := (andThen p (fun x => k))
  (at level 61, p at next level, right associativity).

(** A promise settles once: later calls of [resolve] and [reject] are
    ignored. *)
Definition settled_as {A : Type} (first : option (Outcome A)) (o : Outcome A)
  : Outcome A :=
  match first with
  | Some o' => o'
  | None => o
  end.

(** *** fs-extra *)

Definition readFile_pkgJson : Async string :=
  fun w =>
    match pkgJson w with
    | Some text => (Fulfilled text, w)
    | None => (Rejected (FsError "ENOENT" "package.json"), w)
    end.

Definition readFile_dllCache : Async string :=
  fun w =>
    match dllCache w with
    | Some text => (Fulfilled text, w)
    | None => (Rejected (FsError "ENOENT" "dll.json"), w)
    end.

(** What the runtime makes of a time of zero or more seconds before it
    calls the system: whole seconds and the microseconds of the
    fraction; what is left of the Number is cut off, not rounded. *)
Definition timespec (t : Q) : Q := Qfloor (t * 1000000) # 1000000.

(** [fs.utimes(manifestPath, t, t)] *)
Definition utimes_manifest (t : Q) : Async unit :=
  fun w =>
    match manifest w with
    | Some _ => (Fulfilled tt, set_manifest (timespec t) w)
    | None => (Rejected (FsError "ENOENT" "vendor-manifest.json"), w)
    end.

(** [fs.writeFile(dllCachePath, text)] *)
Definition writeFile_dllCache (text : string) : Async unit :=
  fun w =>
    if dllDirectory w
    then (Fulfilled tt, set_dllCache text w)
    else (Rejected (FsError "ENOENT" "dll.json"), w).

Definition nl : string := String "010"%char EmptyString.

(** [xs.join('\n')] *)
Definition join_lines (xs : list string) : string := String.concat nl xs.

Definition msg_start : string :=
  nl ++ "LibraryPlugin start to build dll bundle…" ++ nl.
Definition msg_success : string :=
  nl ++ "LibraryPlugin build dll successfully" ++ nl.
Definition msg_changed : string :=
  nl ++ "LibraryPlugin found package.json changed" ++ nl.

(** *** The engine *)

Section Engine.

Context {codec : Codec}.
(** The external bundler: any function of its configuration and of the
    world it runs in. *)
Variable webpack : BuildInvocation -> World -> BundlerRun.
Variable options : Options.

Definition dllAssetName : string := dllName options ++ ".js".

(** [webpack(config, callback)], up to the moment the callback is
    entered. *)
Definition call_webpack (inv : BuildInvocation) (w : World) : BundlerResult * World :=
  let run := webpack inv w in
  (result run, bundled inv run w).

(** [Object.keys(deps).concat(include).filter(x => !~exclude.indexOf(x))] *)
Definition entry_list (ks : list string) : list string :=
  filter (fun x => not_num (bit_not (indexOf (exclude options) x)))
         (ks ++ include options)%list.

(** The callback [(err, stats) => ...] passed to webpack by [build].
    [first] records the settlement made by a [reject] that was not
    followed by [return]. *)
Definition build_callback (deps : value) (r : BundlerResult) : Async unit :=
  fun w =>
    match r with
    | Failed err =>
        let w :=
          print Err
            (match err_stack err with
             | Some stack => if (stack =? EmptyString)%string then err_text err else stack
             | None => err_text err
             end) w in
        let w :=
          match err_details err with
          | Some details =>
              if (details =? EmptyString)%string then w else print Err details w
          | None => w
          end in
        (Rejected (BundlerFailure err), w)
    | Completed stats =>
        let w :=
          if hasWarnings stats then print Warn (join_lines (warnings stats)) w else w in
        let '(first, w) :=
          if hasErrors stats
          then (Some (Rejected (CompileErrors (errors stats))),
                print Err (join_lines (errors stats)) w)
          else (None, w) in
        let w :=
          if log_strict_eq (log options) (LogLevel "verbose")
          then print Log (stats_text stats) w else w in
        (* NOTE: Fix https://github.com/webpack/watchpack/issues/25 *)
        let now := num_sub (num_div (inject_Z (clock w)) (inject_Z 1000)) (inject_Z 10) in
        match all2 (utimes_manifest now)
                   (writeFile_dllCache (JSON_stringify deps)) w with
        | (Fulfilled _, w) =>
            let w := if log_guard (log options) then print Log msg_success w else w in
            (settled_as first (Fulfilled tt), w)
        | (Rejected e, w) => (settled_as first (Rejected e), w)
        end
    end.

(** [build(deps)].  The TypeError of [Object.keys] is thrown before the
    promise is made; inside [make]'s chain it rejects the chain. *)
Definition build (deps : value) : Async unit :=
  match Object_keys deps with
  | None => reject (TypeError "Cannot convert undefined or null to object")
  | Some ks =>
      let inv := {| entry_name := dllName options; entry := entry_list ks |} in
      fun w =>
        let '(r, w1) := call_webpack inv w in
        build_callback deps r w1
  end.

(** The [opts] object threaded through [make]; a property not yet set
    reads [undefined]. *)
Record Opts : Type := {
  deps : value;
  cache : value
}.

(** First step of [make]: read [dependencies] from package.json. *)
Definition read_deps (opts : Opts) : Async Opts :=
  catch
    (pkg <- readFile_pkgJson ;;
     match JSON_parse pkg with
     | None => reject SyntaxError
     | Some descriptor =>
         match prop_dependencies descriptor with
         | None => reject (TypeError "Cannot read property 'dependencies'")
         | Some d => resolve {| deps := d; cache := cache opts |}
         end
     end)
    (fun _ => reject (JsError "Can't find package.json")).

(** Second step of [make]: read the snapshot dll.json. *)
Definition read_cache (opts : Opts) : Async Opts :=
  catch
    (text <- readFile_dllCache ;;
     match JSON_parse text with
     | None => reject SyntaxError
     | Some c => resolve {| deps := deps opts; cache := c |}
     end)
    (fun _ =>
       (* Initial build, can't find dll cache file. *)
       fun w =>
         let w := if log_guard (log options) then print Log msg_start w else w in
         (Fulfilled opts, w)).

(** [cache && isEqual(cache, deps)]: the snapshot is there and matches. *)
Definition cache_valid (cache deps : value) : bool :=
  truthy cache && isEqual cache deps.

(** Third step of [make]. *)
Definition check (opts : Opts) : Async unit :=
  if cache_valid (cache opts) (deps opts)
  then resolve tt
  else build (deps opts).

Definition make : Async unit :=
  opts <- resolve {| deps := VUndefined; cache := VUndefined |} ;;
  opts <- read_deps opts ;;
  opts <- read_cache opts ;;
  check opts.

(** The hook on [html-webpack-plugin-before-html-generation]:
    [data.assets.js.unshift(dllAssetName)], then the same list is
    passed on. *)
Definition html_hook (js : list string) : list string :=
  dllAssetName :: js.

(** State kept by the hooks between watch cycles: [pkgTimestamp], a
    number or [undefined]. *)
Record HookState : Type := {
  pkgTimestamp : option Z
}.

(** [let pkgTimestamp = 0] *)
Definition initial_state : HookState := {| pkgTimestamp := Some 0%Z |}.

(** [!timestamp] *)
Definition timestamp_falsy (t : option Z) : bool :=
  match t with
  | None => true
  | Some z => (z =? 0)%Z
  end.

(** [timestamp === pkgTimestamp] *)
Definition timestamp_eq (a b : option Z) : bool :=
  match a, b with
  | None, None => true
  | Some x, Some y => (x =? y)%Z
  | _, _ => false
  end.

(** The hook on [watch-run].  [timestamp] is
    [contextTimestamps[pkgJsonPath]]; the answer is what the host's
    callback receives ([None] for [callback(null)]) and the state the
    hook leaves behind. *)
Definition watch_run (timestamp : option Z) (st : HookState) (w : World)
  : (option Error * HookState) * World :=
  let done (w : World) := ((None, {| pkgTimestamp := timestamp |}), w) in
  if timestamp_falsy timestamp || timestamp_eq timestamp (pkgTimestamp st)
  then done w
  else
    let w := if log_guard (log options) then print Log msg_changed w else w in
    match make w with
    | (Fulfilled _, w') => done w'
    | (Rejected e, w') => ((Some e, st), w')
    end.

(** Development mode: [make().then(injectOptionsForDevelopment)], as
    far as the hooks' state goes. *)
Definition develop : Async HookState :=
  _ <- make ;; resolve initial_state.

End Engine.

End Plugin.

(* ================================================================== *)
(** ** The specification's vocabulary *)
(* ================================================================== *)

Module Spec.
Import Js Json Plugin.

(** A dependency mapping: library name to version range, in the order
    the descriptor object enumerates it. *)
Definition DepMap : Type := list (string * string).

(** The JavaScript object holding a dependency mapping. *)
Definition obj_of (D : DepMap) : value :=
  VObj (map (fun '(k, r) => (k, VStr r)) D).

(** Deep equality of two mappings as the specification words it: the
    same set of name-to-range pairs, whatever the order. *)
Definition same_pairs (C D : DepMap) : Prop :=
  forall k r, In (k, r) C <-> In (k, r) D.

(** The mapping in the order JavaScript enumerates it once its
    properties have been created one after the other. *)
Definition canon (D : DepMap) : DepMap :=
  fold_left (fun acc kr => set_prop acc (fst kr) (snd kr)) D [].

(** What [opts.cache] holds for a cached manifest, absent or present. *)
Definition cached_value (cached : option DepMap) : value :=
  match cached with
  | Some C => obj_of C
  | None => VUndefined
  end.

Definition wf_cached (cached : option DepMap) : Prop :=
  match cached with
  | Some C => wf_props C
  | None => True
  end.

(** The Change Detector as the specification words it. *)
Definition needsRebuild (current : DepMap) (cached : option DepMap) : Prop :=
  match cached with
  | None => True
  | Some C => ~ same_pairs C current
  end.

Definition mem (x : string) (xs : list string) : bool :=
  existsb (String.eqb x) xs.

(** Each name once, first occurrence kept. *)
Fixpoint dedup (seen : list string) (xs : list string) : list string :=
  match xs with
  | [] => []
  | x :: rest => if mem x seen then dedup seen rest else x :: dedup (x :: seen) rest
  end.

(** The entry list as the specification words it:
    keys(manifest) followed by include, minus exclude, each name once. *)
Definition spec_entry_list (ks include exclude : list string) : list string :=
  dedup [] (filter (fun x => negb (mem x exclude)) (ks ++ include)%list).

(** The entry list without the deduplication. *)
Definition merged_entries (ks include exclude : list string) : list string :=
  filter (fun x => negb (mem x exclude)) (ks ++ include)%list.

Definition occurrences (x : string) (xs : list string) : nat :=
  count_occ string_dec xs x.

(** What ECMAScript promises of JSON on a dependency mapping: the text
    written for it parses back to an equal value. *)
Definition roundtrips {codec : Codec} (D : DepMap) : Prop :=
  exists v, JSON_parse (JSON_stringify (obj_of D)) = Some v
            /\ isEqual v (obj_of D) = true.

(** A descriptor whose text parses and whose [dependencies] is [d]. *)
Definition descriptor_has {codec : Codec} (w : World) (d : value) : Prop :=
  exists text descriptor,
    pkgJson w = Some text
    /\ JSON_parse text = Some descriptor
    /\ prop_dependencies descriptor = Some d.

(** The watcher starts a rebuild: the observed timestamp is set and
    differs from the recorded one. *)
Definition triggered (timestamp : option Z) (st : HookState) : bool :=
  negb (timestamp_falsy timestamp || timestamp_eq timestamp (pkgTimestamp st)).

(** [Date.now() / 1000 - 10] at clock [ms]: a division and a
    subtraction on Numbers. *)
Definition backdated (ms : Z) : Q :=
  num_sub (num_div (inject_Z ms) (inject_Z 1000)) (inject_Z 10).

(** The clock reads a time from 11.001 seconds after the epoch, where
    [Date.now() / 1000 - 10] is one second or more, up to [2 ^ 33]
    seconds after it, in the year 2242, where a Number still keeps a
    time in seconds to better than half a microsecond. *)
Definition in_era (ms : Z) : Prop :=
  (11001 <= ms < 8589934592000)%Z.

(** The clock reads a time value of the language, up to the last one
    ([8.64e15] milliseconds), and [Date.now() / 1000 - 10] is one
    second or more. *)
Definition time_value (ms : Z) : Prop :=
  (11001 <= ms <= 8640000000000000)%Z.

(** The snapshot cannot be used: dll.json is missing, or is not JSON. *)
Definition snapshot_unusable {codec : Codec} (w : World) : Prop :=
  dllCache w = None
  \/ exists text, dllCache w = Some text /\ JSON_parse text = None.

End Spec.

(* ================================================================== *)
(** ** Sample runs *)
(* ================================================================== *)

Module Sample.
Import Js Json Plugin Spec.

Definition deps_ac : DepMap := [("a", "^1"); ("c", "^2")].
Definition deps_ca : DepMap := [("c", "^2"); ("a", "^1")].
Definition deps_a : DepMap := [("a", "^1")].

(** [library: { include: ['a', 'b'], exclude: ['b'] }] *)
Definition options_ab : Options :=
  assign_options "/app"
    {| lib_base := None; lib_dllDirectoryName := None; lib_dllName := None;
       lib_include := Some ["a"; "b"]; lib_exclude := Some ["b"];
       lib_log := None |}.

(** [library: { log: false }] *)
Definition options_quiet : Options :=
  assign_options "/app"
    {| lib_base := None; lib_dllDirectoryName := None; lib_dllName := None;
       lib_include := None; lib_exclude := None;
       lib_log := Some (LogBool false) |}.

(** [library: { log: 'none' }] *)
Definition options_none : Options :=
  assign_options "/app"
    {| lib_base := None; lib_dllDirectoryName := None; lib_dllName := None;
       lib_include := None; lib_exclude := None;
       lib_log := Some (LogLevel "none") |}.

Definition options_default : Options := DefaultOptions "/app".

(** package.json with the given dependencies. *)
Definition pkg_text (D : DepMap) : string :=
  stringify (VObj [("name", VStr "app"); ("dependencies", obj_of D)]).

(** package.json without a [dependencies] field. *)
Definition pkg_text_nodeps : string :=
  stringify (VObj [("name", VStr "app"); ("version", VStr "1.0.0")]).

Definition good_stats : Stats :=
  {| errors := []; warnings := []; stats_text := "Hash: 0" |}.

Definition bad_stats : Stats :=
  {| errors := ["Module not found: Error: Can't resolve 'a' in '/app'"];
     warnings := [];
     stats_text := "Hash: 0" |}.

(** A bundler that compiles and emits. *)
Definition bundler_ok : BuildInvocation -> World -> BundlerRun :=
  fun _ _ => {| result := Completed good_stats; emitted := true; duration := 1500 |}.

(** A bundler that reports a compile error (webpack emits all the same). *)
Definition bundler_errors : BuildInvocation -> World -> BundlerRun :=
  fun _ _ => {| result := Completed bad_stats; emitted := true; duration := 1500 |}.

Definition fatal : BundlerError :=
  {| err_text := "Error: invalid configuration";
     err_stack := None; err_details := None |}.

(** A bundler that gives up before compiling. *)
Definition bundler_fatal : BuildInvocation -> World -> BundlerRun :=
  fun _ _ => {| result := Failed fatal; emitted := false; duration := 3 |}.

(** The configuration built from [{a: ^1, c: ^2}] under the default
    options. *)
Definition vendor_ac : BuildInvocation :=
  {| entry_name := "vendor"; entry := ["a"; "c"] |}.

(** First run: a descriptor, nothing built yet. *)
Definition world_first (D : DepMap) : World :=
  {| pkgJson := Some (pkg_text D);
     dllCache := None;
     dllDirectory := false;
     manifest := None;
     clock := 1700000000000;
     console := [];
     invocations := [];
     race := fun _ => true |}.

(** A later run: the bundle of [C] is cached, the descriptor now lists [D]. *)
Definition world_cached (C D : DepMap) : World :=
  {| pkgJson := Some (pkg_text D);
     dllCache := Some (stringify (obj_of C));
     dllDirectory := true;
     manifest := Some (seconds 1699999000000);
     clock := 1700000000000;
     console := [];
     invocations := [];
     race := fun _ => true |}.

(** The snapshot was cut short while being written. *)
Definition world_corrupt (D : DepMap) : World :=
  {| pkgJson := Some (pkg_text D);
     dllCache := Some (substring 0 5 (stringify (obj_of D)));
     dllDirectory := true;
     manifest := Some (seconds 1699999000000);
     clock := 1700000000000;
     console := [];
     invocations := [];
     race := fun _ => true |}.

(** A project whose descriptor has no [dependencies]. *)
Definition world_nodeps : World :=
  {| pkgJson := Some pkg_text_nodeps;
     dllCache := Some (stringify (obj_of deps_a));
     dllDirectory := true;
     manifest := Some (seconds 1699999000000);
     clock := 1700000000000;
     console := [];
     invocations := [];
     race := fun _ => true |}.

(** The world after the first build of [{a: ^1, c: ^2}]. *)
Definition world_built : World :=
  snd (@build reference bundler_ok options_default (obj_of deps_ac)
         (world_first deps_ac)).

(** The world after a rebuild that met a compile error. *)
Definition world_failed : World :=
  snd (@make reference bundler_errors options_default
         (world_cached deps_a deps_ac)).

(** The world after a watch cycle in which the bundler gave up. *)
Definition world_gave_up : World :=
  snd (@make reference bundler_fatal options_default
         (print Log msg_changed (world_cached deps_a deps_ac))).

End Sample.

(* ================================================================== *)
(** ** The build rewriter *)
(* ================================================================== *)

Module Rewriter.
Import Js Json Plugin.

(** What the program asks of Node's [path] module. *)
Class PathApi : Type := {
  path_resolve1 : string -> string;             (* path.resolve(p) *)
  path_resolve : string -> string -> string;    (* path.resolve(a, b) *)
  path_isAbsolute : string -> bool
}.

(** [webpackOptions.entry]: a value, or a function of one argument. *)
Inductive Entry : Type :=
| EntryValue (v : value)
| EntryFunction (f : string -> Entry).

(** An element of [webpackOptions.plugins]: somebody's plugin, or the
    object pushed by this one.  That object's [apply] registers
    [DllReferencePlugin({ context, manifest })] on after-plugins, the
    HTML hook that unshifts [asset], and, where [watch] names the
    descriptor, the watch-run hook. *)
Inductive PluginObject (X : Type) : Type :=
| Foreign (x : X)
| LibraryHooks (context manifest asset : string) (watch : option string).
Arguments Foreign {X} x.
Arguments LibraryHooks {X} context manifest asset watch.

(** [webpackOptions.devServer], an object: [contentBase] and the keys
    the plugin does not read. *)
Record DevServer (X : Type) : Type := {
  contentBase : value;
  devServer_others : list (string * X)
}.
Arguments contentBase {X} d.
Arguments devServer_others {X} d.

(** [webpackOptions]: the keys the plugin reads, each possibly missing,
    and the others ([output], [module], ...). *)
Record WebpackOptions (X : Type) : Type := {
  wo_library : option Library;
  wo_devServer : option (DevServer X);
  wo_entry : Entry;
  wo_plugins : option (list (PluginObject X));
  wo_others : list (string * X)
}.
Arguments wo_library {X} w.
Arguments wo_devServer {X} w.
Arguments wo_entry {X} w.
Arguments wo_plugins {X} w.
Arguments wo_others {X} w.

(** [library] when [webpackOptions.library] is missing: [Object.assign]
    skips an [undefined] source. *)
Definition no_library : Library :=
  {| lib_base := None; lib_dllDirectoryName := None; lib_dllName := None;
     lib_include := None; lib_exclude := None; lib_log := None |}.

(** [!env || env === 'development'], [env] being [process.env.NODE_ENV]. *)
Definition development (env : option string) : bool :=
  match env with
  | None => true
  | Some e => (e =? EmptyString)%string || (e =? "development")%string
  end.

Section Paths.

Context {path : PathApi}.
Variable options : Options.

(** [let base = options.base; if (path.isAbsolute(base)) base = path.resolve(base)] *)
Definition resolved_base : string :=
  if path_isAbsolute (base options) then path_resolve1 (base options)
  else base options.

Definition dllDirectory : string :=
  path_resolve resolved_base (dllDirectoryName options).
Definition manifestPath : string := path_resolve dllDirectory "vendor-manifest.json".
Definition dllCachePath : string := path_resolve dllDirectory "dll.json".
Definition dllAssetPath : string := path_resolve dllDirectory (dllAssetName options).
Definition pkgJsonPath : string := path_resolve resolved_base "package.json".

(** The new value of [devServer.contentBase]. *)
Definition add_contentBase (contentBase : value) : value :=
  match contentBase with
  | VStr s => VArr [VStr s; VStr dllDirectory]
  | VArr xs => VArr (xs ++ [VStr dllDirectory])%list
  | _ => VArr [VStr dllDirectory]
  end.

(** The new value of [webpackOptions.entry]: package.json is added so
    that it is watched. *)
Definition add_entry (entry : Entry) : Entry :=
  match entry with
  | EntryValue (VStr s) => EntryValue (VArr [VStr pkgJsonPath; VStr s])
  | EntryValue (VArr xs) => EntryValue (VArr (VStr pkgJsonPath :: xs))
  | EntryValue (VObj props) =>
      (* TODO object type entry. *)
      match keys props with
      | k0 :: _ =>
          match get_own props k0 with
          | Some v0 => EntryValue (VObj (set_prop props k0 (VArr [VStr pkgJsonPath; v0])))
          | None => entry
          end
      | [] => entry
      end
  | EntryFunction f =>
      (* TODO function type entry. *)
      f pkgJsonPath
  | EntryValue _ => entry
  end.

(** The object pushed on [webpackOptions.plugins]. *)
Definition library_hooks {X : Type} : PluginObject X :=
  LibraryHooks resolved_base manifestPath (dllAssetName options) (Some pkgJsonPath).

(** [injectOptionsForDevelopment()]: the settlement of its promise and
    the state in which it leaves the [webpackOptions] object.  Pushing
    on a missing [plugins] array throws inside the promise's executor,
    after the earlier assignments. *)
Definition injectOptionsForDevelopment {X : Type} (wo : WebpackOptions X)
  : Outcome (WebpackOptions X) * WebpackOptions X :=
  let devServer :=
    match wo_devServer wo with
    | Some d => d
    | None => {| contentBase := VUndefined; devServer_others := [] |}
    end in
  let wo1 :=
    {| wo_library := None;
       wo_devServer :=
         Some {| contentBase := add_contentBase (contentBase devServer);
                 devServer_others := devServer_others devServer |};
       wo_entry := add_entry (wo_entry wo);
       wo_plugins := wo_plugins wo;
       wo_others := wo_others wo |} in
  match wo_plugins wo with
  | None => (Rejected (TypeError "Cannot read property 'push' of undefined"), wo1)
  | Some plugins =>
      let wo2 :=
        {| wo_library := wo_library wo1;
           wo_devServer := wo_devServer wo1;
           wo_entry := wo_entry wo1;
           wo_plugins := Some (plugins ++ [library_hooks])%list;
           wo_others := wo_others wo1 |} in
      (Fulfilled wo2, wo2)
  end.

End Paths.

Section DefaultExport.

Context {codec : Codec} {path : PathApi}.
Variable webpack : BuildInvocation -> World -> BundlerRun.

(** [const options = Object.assign({}, DefaultOptions, library)], the
    default [base] being [path.resolve('.')]. *)
Definition options_of {X : Type} (wo : WebpackOptions X) : Options :=
  let library := wo_library wo in
  assign_options (path_resolve1 ".") (or_default library no_library).

(** The default export.  [None] stands for the [undefined] returned
    outside development mode; in development mode the promise
    [make().then(injectOptionsForDevelopment)] is run on the
    [webpackOptions] object and the world. *)
Definition plugin {X : Type} (env : option string) (wo : WebpackOptions X)
  : option (World -> Outcome (WebpackOptions X) * (WebpackOptions X * World)) :=
  let options := options_of wo in
  if development env then
    Some (fun w =>
            match make webpack options w with
            | (Fulfilled _, w') =>
                let '(r, wo') := injectOptionsForDevelopment options wo in
                (r, (wo', w'))
            | (Rejected e, w') => (Rejected e, (wo, w'))
            end)
  else None.

End DefaultExport.

End Rewriter.

(* ================================================================== *)
(** ** The engine of lib/index.js *)
(* ================================================================== *)

Module Lib.
Import Js Json Plugin Rewriter.

Section Lib.

Context {codec : Codec} {path : PathApi}.
Variable webpack : BuildInvocation -> World -> BundlerRun.
Variable options : Options.

(** The callback passed to webpack by [build]: compile errors are
    printed, never rejected, and nothing is logged. *)
Definition build_callback (deps : value) (r : BundlerResult) : Async unit :=
  fun w =>
    match r with
    | Failed err =>
        let w :=
          print Err
            (match err_stack err with
             | Some stack => if (stack =? EmptyString)%string then err_text err else stack
             | None => err_text err
             end) w in
        let w :=
          match err_details err with
          | Some details =>
              if (details =? EmptyString)%string then w else print Err details w
          | None => w
          end in
        (Rejected (BundlerFailure err), w)
    | Completed stats =>
        let w :=
          if hasErrors stats then print Err (join_lines (errors stats)) w else w in
        let w :=
          if hasWarnings stats then print Warn (join_lines (warnings stats)) w else w in
        let now := num_sub (num_div (inject_Z (clock w)) (inject_Z 1000)) (inject_Z 10) in
        all2 (utimes_manifest now) (writeFile_dllCache (JSON_stringify deps)) w
    end.

(** [build(deps)]: the entry is [Object.keys(deps)]. *)
Definition build (deps : value) : Async unit :=
  match Object_keys deps with
  | None => reject (TypeError "Cannot convert undefined or null to object")
  | Some ks =>
      let inv := {| entry_name := dllName options; entry := ks |} in
      fun w =>
        let '(r, w1) := call_webpack webpack inv w in
        build_callback deps r w1
  end.

Definition read_cache (opts : Opts) : Async Opts :=
  catch
    (text <- readFile_dllCache ;;
     match JSON_parse text with
     | None => reject SyntaxError
     | Some c => resolve {| deps := deps opts; cache := c |}
     end)
    (fun _ =>
       (* Initial build, can't find dll cache file. *)
       resolve opts).

Definition make : Async unit :=
  opts <- resolve {| deps := VUndefined; cache := VUndefined |} ;;
  opts <- read_deps opts ;;
  opts <- read_cache opts ;;
  if cache_valid (cache opts) (deps opts)
  then resolve tt
  else build (deps opts).

(** The hook on [watch-run]. *)
Definition watch_run (timestamp : option Z) (st : HookState) (w : World)
  : (option Error * HookState) * World :=
  let done (w : World) := ((None, {| pkgTimestamp := timestamp |}), w) in
  if timestamp_falsy timestamp || timestamp_eq timestamp (pkgTimestamp st)
  then done w
  else
    match make w with
    | (Fulfilled _, w') => done w'
    | (Rejected e, w') => ((Some e, st), w')
    end.

(** [inject()]: the entry is left alone. *)
Definition inject {X : Type} (wo : WebpackOptions X)
  : Outcome (WebpackOptions X) * WebpackOptions X :=
  let devServer :=
    match wo_devServer wo with
    | Some d => d
    | None => {| contentBase := VUndefined; devServer_others := [] |}
    end in
  let wo1 :=
    {| wo_library := None;
       wo_devServer :=
         Some {| contentBase := add_contentBase options (contentBase devServer);
                 devServer_others := devServer_others devServer |};
       wo_entry := wo_entry wo;
       wo_plugins := wo_plugins wo;
       wo_others := wo_others wo |} in
  match wo_plugins wo with
  | None => (Rejected (TypeError "Cannot read property 'push' of undefined"), wo1)
  | Some plugins =>
      let wo2 :=
        {| wo_library := wo_library wo1;
           wo_devServer := wo_devServer wo1;
           wo_entry := wo_entry wo1;
           wo_plugins := Some (plugins ++ [library_hooks options])%list;
           wo_others := wo_others wo1 |} in
      (Fulfilled wo2, wo2)
  end.

End Lib.

Section DefaultExport.

Context {codec : Codec} {path : PathApi}.
Variable webpack : BuildInvocation -> World -> BundlerRun.

(** The default export:
    [Promise.resolve(webpackOptions).then(make).then(inject)]. *)
Definition plugin {X : Type} (wo : WebpackOptions X)
  : World -> Outcome (WebpackOptions X) * (WebpackOptions X * World) :=
  let options := options_of wo in
  fun w =>
    match make webpack options w with
    | (Fulfilled _, w') =>
        let '(r, wo') := inject options wo in
        (r, (wo', w'))
    | (Rejected e, w') => (Rejected e, (wo, w'))
    end.

End DefaultExport.

End Lib.

(* ================================================================== *)
(** ** Two earlier variants of the engine *)
(* ================================================================== *)

(** How a promise ends when it may be rejected without a reason
    ([reject()]) or never settle at all. *)
Inductive Settlement (A : Type) : Type :=
| Resolved (a : A)
| RejectedWith (reason : option Plugin.Error)
| Pending.
Arguments Resolved {A} a.
Arguments RejectedWith {A} reason.
Arguments Pending {A}.

(** The variant that validates the snapshot first and hands two
    functions to [Promise.all].  [deps] is
    [require(<base>/package.json).dependencies], read once when the
    plugin is called. *)
Module VariantA.
Import Js Json Plugin Rewriter.

Section VariantA.

Context {codec : Codec} {path : PathApi}.
Variable webpack : BuildInvocation -> World -> BundlerRun.
Variable options : Options.
Variable deps : value.

(** [validate()]: the snapshot is read and compared; [reject()] gives
    no reason. *)
Definition validate : World -> Settlement unit * World :=
  fun w =>
    match readFile_dllCache w with
    | (Rejected e, w') => (RejectedWith (Some e), w')
    | (Fulfilled dllCache, w') =>
        match JSON_parse dllCache with
        | None => (RejectedWith (Some SyntaxError), w')
        | Some c =>
            if negb (isEqual c deps) then (RejectedWith None, w')
            else (Resolved tt, w')
        end
    end.

(** [make()].  On completion the callback returns
    [Promise.all([function () {...}, function () {...}]).then(resolve)]:
    the two functions are elements of the array, nothing calls them. *)
Definition make : World -> Settlement unit * World :=
  match Object_keys deps with
  | None =>
      fun w =>
        (RejectedWith (Some (TypeError "Cannot convert undefined or null to object")), w)
  | Some ks =>
      let inv := {| entry_name := dllName options; entry := ks |} in
      fun w =>
        let '(r, w) := call_webpack webpack inv w in
        match r with
        | Failed err =>
            let w :=
              print Err
                (match err_stack err with
                 | Some stack =>
                     if (stack =? EmptyString)%string then err_text err else stack
                 | None => err_text err
                 end) w in
            let w :=
              match err_details err with
              | Some details =>
                  if (details =? EmptyString)%string then w else print Err details w
              | None => w
              end in
            (RejectedWith (Some (BundlerFailure err)), w)
        | Completed stats =>
            let w :=
              if hasErrors stats then print Err (join_lines (errors stats)) w else w in
            let w :=
              if hasWarnings stats then print Warn (join_lines (warnings stats)) w
              else w in
            (Resolved tt, w)
        end
  end.

(** [Promise.resolve(webpackOptions).then(validate).catch(make)] *)
Definition prepare : World -> Settlement unit * World :=
  fun w =>
    match validate w with
    | (Resolved u, w') => (Resolved u, w')
    | (RejectedWith _, w') => make w'
    | (Pending, w') => (Pending, w')
    end.

(** [inject()]: the dll directory is served and the hooks are pushed;
    there is no watch-run hook and the entry is left alone. *)
Definition inject {X : Type} (wo : WebpackOptions X)
  : Outcome (WebpackOptions X) * WebpackOptions X :=
  let devServer :=
    match wo_devServer wo with
    | Some d => d
    | None => {| contentBase := VUndefined; devServer_others := [] |}
    end in
  let wo1 :=
    {| wo_library := None;
       wo_devServer :=
         Some {| contentBase := add_contentBase options (contentBase devServer);
                 devServer_others := devServer_others devServer |};
       wo_entry := wo_entry wo;
       wo_plugins := wo_plugins wo;
       wo_others := wo_others wo |} in
  match wo_plugins wo with
  | None => (Rejected (TypeError "Cannot read property 'push' of undefined"), wo1)
  | Some plugins =>
      let wo2 :=
        {| wo_library := wo_library wo1;
           wo_devServer := wo_devServer wo1;
           wo_entry := wo_entry wo1;
           wo_plugins :=
             Some (plugins
                     ++ [LibraryHooks (resolved_base options) (manifestPath options)
                           (dllAssetName options) None])%list;
           wo_others := wo_others wo1 |} in
      (Fulfilled wo2, wo2)
  end.

(** The default export, once [require] has given [deps]:
    [Promise.resolve(webpackOptions).then(validate).catch(make).then(inject)]. *)
Definition plugin {X : Type} (wo : WebpackOptions X)
  : World -> Settlement (WebpackOptions X) * (WebpackOptions X * World) :=
  fun w =>
    match prepare w with
    | (Resolved _, w') =>
        match inject wo with
        | (Fulfilled wo', wo'') => (Resolved wo', (wo'', w'))
        | (Rejected e, wo'') => (RejectedWith (Some e), (wo'', w'))
        end
    | (RejectedWith reason, w') => (RejectedWith reason, (wo, w'))
    | (Pending, w') => (Pending, (wo, w'))
    end.

End VariantA.

End VariantA.

(** The variant whose callback returns
    [fs.writeFile(dllCachePath, JSON.stringify(deps)).then(resolve)]. *)
Module VariantB.
Import Js Json Plugin Rewriter.

Section VariantB.

Context {codec : Codec}.
Variable webpack : BuildInvocation -> World -> BundlerRun.
Variable options : Options.
Variable deps : value.

(** [make()]: a failed write rejects the promise returned inside the
    callback, which nobody holds; [resolve] and [reject] of the outer
    promise are never called. *)
Definition make : World -> Settlement unit * World :=
  match Object_keys deps with
  | None =>
      fun w =>
        (RejectedWith (Some (TypeError "Cannot convert undefined or null to object")), w)
  | Some ks =>
      let inv := {| entry_name := dllName options; entry := ks |} in
      fun w =>
        let '(r, w) := call_webpack webpack inv w in
        match r with
        | Failed err =>
            let w :=
              print Err
                (match err_stack err with
                 | Some stack =>
                     if (stack =? EmptyString)%string then err_text err else stack
                 | None => err_text err
                 end) w in
            let w :=
              match err_details err with
              | Some details =>
                  if (details =? EmptyString)%string then w else print Err details w
              | None => w
              end in
            (RejectedWith (Some (BundlerFailure err)), w)
        | Completed stats =>
            let w :=
              if hasErrors stats then print Err (join_lines (errors stats)) w else w in
            let w :=
              if hasWarnings stats then print Warn (join_lines (warnings stats)) w
              else w in
            (* Compile done, write to cache. *)
            match writeFile_dllCache (JSON_stringify deps) w with
            | (Fulfilled _, w) => (Resolved tt, w)
            | (Rejected _, w) => (Pending, w)
            end
        end
  end.

(** [Promise.resolve().then(validate).catch(make)]; [validate] of this
    variant has the body of [VariantA.validate], statement for
    statement. *)
Definition prepare : World -> Settlement unit * World :=
  fun w =>
    match VariantA.validate deps w with
    | (Resolved u, w') => (Resolved u, w')
    | (RejectedWith _, w') => make w'
    | (Pending, w') => (Pending, w')
    end.

End VariantB.

End VariantB.

(* ================================================================== *)
(** ** What is observed of a run *)
(* ================================================================== *)

Module Observed.
Import Js Json Plugin Spec Rewriter.

(** The lines printed for a bundler failure: [err.stack || err], then
    [err.details] when there are any. *)
Definition error_lines (err : BundlerError) : list (Channel * string) :=
  (Err, match err_stack err with
        | Some stack => if (stack =? EmptyString)%string then err_text err else stack
        | None => err_text err
        end)
  :: match err_details err with
     | Some details => if (details =? EmptyString)%string then [] else [(Err, details)]
     | None => []
     end.

(** The lines printed for a completed compilation, in order: warnings,
    errors, and the statistics when [log] is ['verbose']. *)
Definition stats_lines (l : LogOption) (stats : Stats) : list (Channel * string) :=
  ((if hasWarnings stats then [(Warn, join_lines (warnings stats))] else [])
   ++ (if hasErrors stats then [(Err, join_lines (errors stats))] else [])
   ++ (if log_strict_eq l (LogLevel "verbose") then [(Log, stats_text stats)] else []))%list.

(** The lines printed by lib/index.js for a completed compilation. *)
Definition lib_stats_lines (stats : Stats) : list (Channel * string) :=
  ((if hasErrors stats then [(Err, join_lines (errors stats))] else [])
   ++ (if hasWarnings stats then [(Warn, join_lines (warnings stats))] else []))%list.

(** Once the bundler has run: is vendor-manifest.json there, is the dll
    directory there? *)
Definition manifest_there (run : BundlerRun) (w : World) : bool :=
  emitted run || match manifest w with Some _ => true | None => false end.

Definition directory_there (run : BundlerRun) (w : World) : bool :=
  Plugin.dllDirectory w || emitted run.

(** package.json cannot be used: it is missing, it is not JSON, or it
    holds [null]. *)
Definition descriptor_unreadable {codec : Codec} (w : World) : Prop :=
  pkgJson w = None
  \/ exists text,
       pkgJson w = Some text
       /\ (JSON_parse text = None
           \/ exists v, JSON_parse text = Some v /\ prop_dependencies v = None).

(** dll.json parses to a truthy value deeply equal to [d]. *)
Definition snapshot_valid {codec : Codec} (w : World) (d : value) : Prop :=
  exists text c,
    dllCache w = Some text
    /\ JSON_parse text = Some c
    /\ cache_valid c d = true.

(** The directories a [contentBase] makes the dev server look in. *)
Definition served (contentBase : value) : list value :=
  match contentBase with
  | VStr s => [VStr s]
  | VArr xs => xs
  | _ => []
  end.

Definition served_by {X : Type} (wo : WebpackOptions X) : list value :=
  match wo_devServer wo with
  | Some d => served (contentBase d)
  | None => []
  end.

(** The files of a string or array entry. *)
Definition entry_files (entry : Entry) : option (list value) :=
  match entry with
  | EntryValue (VStr s) => Some [VStr s]
  | EntryValue (VArr xs) => Some xs
  | _ => None
  end.

(** Two worlds that differ at most in what was printed: the same
    files, the same clock, the same bundler calls so far, and file
    operations that race the same way. *)
Definition same_files (w1 w2 : World) : Prop :=
  pkgJson w1 = pkgJson w2
  /\ dllCache w1 = dllCache w2
  /\ Plugin.dllDirectory w1 = Plugin.dllDirectory w2
  /\ manifest w1 = manifest w2
  /\ clock w1 = clock w2
  /\ invocations w1 = invocations w2
  /\ race w1 = race w2.

(** A bundler whose run does not depend on the console. *)
Definition console_blind (webpack : BuildInvocation -> World -> BundlerRun) : Prop :=
  forall inv w1 w2, same_files w1 w2 -> webpack inv w1 = webpack inv w2.

(** A bundler that never reports a compile error. *)
Definition never_errors (webpack : BuildInvocation -> World -> BundlerRun) : Prop :=
  forall inv w stats, result (webpack inv w) = Completed stats -> hasErrors stats = false.

(** [n] runs of a preparation, one after the other. *)
Fixpoint runs {A : Type} (n : nat) (run : World -> A * World) (w : World) : World :=
  match n with
  | O => w
  | S n' => runs n' run (snd (run w))
  end.

End Observed.

Module Scenario.
Import Js Json Plugin Spec Sample Rewriter Observed.

(** A [path] that joins with a slash and normalizes nothing. *)
Definition joining : PathApi :=
  {| path_resolve1 := fun p => p;
     path_resolve := fun a b => if String.prefix "/" b then b else a ++ "/" ++ b;
     path_isAbsolute := fun p => String.prefix "/" p |}.

Definition library_app : Library :=
  {| lib_base := Some "/app"; lib_dllDirectoryName := Some "cache";
     lib_dllName := Some "libs"; lib_include := None; lib_exclude := None;
     lib_log := None |}.

(** A configuration with a string entry, a string contentBase and one
    plugin of its own. *)
Definition config_app : WebpackOptions string :=
  {| wo_library := Some library_app;
     wo_devServer := Some {| contentBase := VStr "/app/public";
                             devServer_others := [("port", "8080")] |};
     wo_entry := EntryValue (VStr "/app/foo.js");
     wo_plugins := Some [Foreign "HTMLWebpackPlugin"];
     wo_others := [("output", "/app/dist")] |}.

(** The same without a [plugins] array. *)
Definition config_bare : WebpackOptions string :=
  {| wo_library := Some library_app;
     wo_devServer := None;
     wo_entry := EntryValue (VStr "/app/foo.js");
     wo_plugins := None;
     wo_others := [] |}.

(** An object entry whose first value is an array. *)
Definition entry_object : list (string * value) :=
  [("main", VArr [VStr "/app/polyfill.js"; VStr "/app/foo.js"]);
   ("admin", VStr "/app/admin.js")].

Definition options_app : Options := assign_options "/app" library_app.

(** No package.json. *)
Definition world_bare : World :=
  {| pkgJson := None;
     dllCache := None;
     Plugin.dllDirectory := false;
     manifest := None;
     clock := 1700000000000;
     console := [];
     invocations := [];
     race := fun _ => true |}.

(** The dll directory is there, the manifest is not. *)
Definition world_no_manifest (D : DepMap) : World :=
  {| pkgJson := Some (pkg_text D);
     dllCache := None;
     Plugin.dllDirectory := true;
     manifest := None;
     clock := 1700000000000;
     console := [];
     invocations := [];
     race := fun _ => true |}.

Definition warned_stats : Stats :=
  {| errors := ["Module not found: Error: Can't resolve 'a' in '/app'"];
     warnings := ["asset size limit"; "entrypoint size limit"];
     stats_text := "Hash: 0" |}.

(** A bundler that reports warnings and an error, and emits. *)
Definition bundler_warned : BuildInvocation -> World -> BundlerRun :=
  fun _ _ => {| result := Completed warned_stats; emitted := true; duration := 1500 |}.

(** A bundler that completes and emits nothing. *)
Definition bundler_silent : BuildInvocation -> World -> BundlerRun :=
  fun _ _ => {| result := Completed good_stats; emitted := false; duration := 1500 |}.

(** A bundler that compiles and emits in 123 milliseconds. *)
Definition bundler_quick : BuildInvocation -> World -> BundlerRun :=
  fun _ _ => {| result := Completed good_stats; emitted := true; duration := 123 |}.

(** A first run in which, of two file operations that fail, the one
    started second fails first. *)
Definition world_unlucky (D : DepMap) : World :=
  {| pkgJson := Some (pkg_text D);
     dllCache := None;
     Plugin.dllDirectory := false;
     manifest := None;
     clock := 1700000000000;
     console := [];
     invocations := [];
     race := fun _ => false |}.

(** The world after a watch cycle whose rebuild met a compile error. *)
Definition world_cycle_failed : World :=
  snd (@make reference bundler_errors options_default
         (print Log msg_changed (world_cached deps_a deps_ac))).

(** The world after [make] on a first run. *)
Definition world_made : World :=
  snd (@make reference bundler_ok options_default (world_first deps_ac)).

(** The options object after a first, fulfilled call of the plugin. *)
Definition config_injected : WebpackOptions string :=
  snd (@injectOptionsForDevelopment joining
         (@options_of joining string config_app) string config_app).

End Scenario.

(* ================================================================== *)
(** ** Facts about the runtime model *)
(* ================================================================== *)

Import Js Json Plugin Spec Sample.

(** *** Rounding to binary64 *)

(** Rounding to the nearest integer moves a number by a half at most. *)
Lemma round_half_even_near (x : Q) :
  (x - (1 # 2) <= inject_Z (round_half_even x) <= x + (1 # 2))%Q.
Proof.
  unfold round_half_even.
  pose proof (Qfloor_le x) as L. pose proof (Qlt_floor x) as U.
  rewrite inject_Z_plus in U. change (inject_Z 1) with 1%Q in U.
  destruct (Qcompare_spec (x - inject_Z (Qfloor x)) (1 # 2)) as [E | E | E].
  - destruct (Z.even (Qfloor x)); rewrite ?inject_Z_plus;
      change (inject_Z 1) with 1%Q; lra.
  - lra.
  - rewrite inject_Z_plus. change (inject_Z 1) with 1%Q. lra.
Qed.

(** Below zero the power is a unit fraction. *)
Lemma pow2_below (e : Z) :
  (e < 0)%Z -> pow2 e = (1 # Z.to_pos (2 ^ (- e)))%Q.
Proof. intros H. unfold pow2. destruct (Z.leb_spec 0 e); [lia | reflexivity]. Qed.

(** A Number from [1] up to [2 ^ 52] is a multiple of [1 / N], [N] the
    power of two that brings its significand to 53 bits; rounding moves
    the scaled number by a half at most. *)
Lemma binary64_scaled (q : Q) :
  (1 <= q)%Q -> (q < inject_Z (2 ^ 52))%Q ->
  (q * inject_Z (2 ^ (52 - Z.log2 (Qfloor q))) - (1 # 2)
   <= binary64 q * inject_Z (2 ^ (52 - Z.log2 (Qfloor q)))
   <= q * inject_Z (2 ^ (52 - Z.log2 (Qfloor q))) + (1 # 2))%Q.
Proof.
  intros L U. unfold binary64.
  destruct (Qeq_bool q 0) eqn:Z0.
  { apply Qeq_bool_eq in Z0. lra. }
  assert (A : (Qabs q == q)%Q) by (apply Qabs_pos; lra).
  unfold ilog2.
  assert (B : Qle_bool 1 (Qabs q) = true) by (apply Qle_bool_iff; lra).
  rewrite B. rewrite (Qfloor_comp _ _ A).
  assert (F1 : (1 <= Qfloor q)%Z).
  { change 1%Z with (Qfloor 1). now apply Qfloor_resp_le. }
  assert (F2 : (Qfloor q < 2 ^ 52)%Z).
  { pose proof (Qfloor_le q) as Fl. rewrite Zlt_Qlt. lra. }
  set (k := Z.log2 (Qfloor q)).
  assert (K : (0 <= k <= 51)%Z).
  { unfold k. split; [apply Z.log2_nonneg|].
    assert (Z.log2 (Qfloor q) < 52)%Z by (apply Z.log2_lt_pow2; lia). lia. }
  rewrite Z.max_l by lia. rewrite pow2_below by lia.
  replace (- (k - 52))%Z with (52 - k)%Z by lia.
  set (N := (2 ^ (52 - k))%Z).
  assert (NN : (1 <= N)%Z).
  { unfold N. change 1%Z with (2 ^ 0)%Z. apply Z.pow_le_mono_r; lia. }
  rewrite Qred_correct.
  pose proof (round_half_even_near (q / (1 # Z.to_pos N))) as R.
  set (m := inject_Z (round_half_even (q / (1 # Z.to_pos N)))) in *.
  assert (P : (1 # Z.to_pos N == / inject_Z N)%Q).
  { unfold Qeq, Qinv, inject_Z. destruct N eqn:EN; try lia. simpl. lia. }
  assert (NQ : (1 <= inject_Z N)%Q).
  { change 1%Q with (inject_Z 1). rewrite <- Zle_Qle. exact NN. }
  set (n := inject_Z N) in *.
  rewrite P in R |- *.
  assert (D : (q / / n == q * n)%Q) by (field; lra).
  rewrite D in R.
  assert (Y : (m * / n * n == m)%Q) by (field; lra).
  rewrite Y. exact R.
Qed.

(** Below [2 ^ (j + 1)] the scale is [2 ^ (52 - j)] at least. *)
Lemma binary64_scale (q : Q) (j : Z) :
  (0 <= j <= 51)%Z ->
  (1 <= q)%Q -> (q < inject_Z (2 ^ (j + 1)))%Q ->
  (inject_Z (2 ^ (52 - j)) <= inject_Z (2 ^ (52 - Z.log2 (Qfloor q))))%Q.
Proof.
  intros J L U. rewrite <- Zle_Qle.
  assert (F1 : (1 <= Qfloor q)%Z).
  { change 1%Z with (Qfloor 1). now apply Qfloor_resp_le. }
  assert (F2 : (Qfloor q < 2 ^ (j + 1))%Z).
  { pose proof (Qfloor_le q) as Fl. rewrite Zlt_Qlt. lra. }
  assert (Z.log2 (Qfloor q) < j + 1)%Z by (apply Z.log2_lt_pow2; lia).
  pose proof (Z.log2_nonneg (Qfloor q)).
  apply Z.pow_le_mono_r; lia.
Qed.

(** From [1] up to [2 ^ 33] a binary64 number has at least 20 bits
    after the point: rounding moves a number by [2 ^ -21] at most. *)
Lemma binary64_near (q : Q) :
  (1 <= q)%Q -> (q < inject_Z (2 ^ 33))%Q ->
  (q - (1 # 2 ^ 21) <= binary64 q <= q + (1 # 2 ^ 21))%Q.
Proof.
  intros L U.
  assert (U52 : (q < inject_Z (2 ^ 52))%Q).
  { change (inject_Z (2 ^ 33)) with 8589934592%Q in U.
    change (inject_Z (2 ^ 52)) with 4503599627370496%Q. lra. }
  pose proof (binary64_scaled q L U52) as R.
  pose proof (binary64_scale q 32 ltac:(lia) L U) as NQ.
  change (inject_Z (2 ^ (52 - 32))) with 1048576%Q in NQ.
  set (n := inject_Z (2 ^ (52 - Z.log2 (Qfloor q)))) in *.
  set (y := binary64 q) in *. clearbody y n. clear - R NQ.
  change (1 # 2 ^ 21)%Q with (1 # 2097152)%Q.
  split; nra.
Qed.

(** Up to [2 ^ 43] rounding moves a number by [2 ^ -11] at most. *)
Lemma binary64_roughly (q : Q) :
  (1 <= q)%Q -> (q < inject_Z (2 ^ 43))%Q ->
  (q - (1 # 2 ^ 11) <= binary64 q <= q + (1 # 2 ^ 11))%Q.
Proof.
  intros L U.
  assert (U52 : (q < inject_Z (2 ^ 52))%Q).
  { change (inject_Z (2 ^ 43)) with 8796093022208%Q in U.
    change (inject_Z (2 ^ 52)) with 4503599627370496%Q. lra. }
  pose proof (binary64_scaled q L U52) as R.
  pose proof (binary64_scale q 42 ltac:(lia) L U) as NQ.
  change (inject_Z (2 ^ (52 - 42))) with 1024%Q in NQ.
  set (n := inject_Z (2 ^ (52 - Z.log2 (Qfloor q)))) in *.
  set (y := binary64 q) in *. clearbody y n. clear - R NQ.
  change (1 # 2 ^ 11)%Q with (1 # 2048)%Q.
  split; nra.
Qed.

(** [Date.now() / 1000 - 10] rounds twice. *)
Lemma backdated_near (ms : Z) :
  in_era ms ->
  (seconds ms - 10 - (1 # 2 ^ 20) <= backdated ms <= seconds ms - 10 + (1 # 2 ^ 20))%Q.
Proof.
  intros [L U]. unfold backdated, num_sub, num_div.
  assert (S : (inject_Z ms / inject_Z 1000 == seconds ms)%Q).
  { unfold seconds. rewrite (Qmake_Qdiv ms 1000). reflexivity. }
  assert (S1 : (11001 # 1000 <= seconds ms)%Q).
  { unfold seconds, Qle. simpl. lia. }
  assert (S2 : (seconds ms < 8589934592)%Q).
  { unfold seconds, Qlt. simpl. lia. }
  set (a := binary64 (inject_Z ms / inject_Z 1000)).
  assert (A : (seconds ms - (1 # 2 ^ 21) <= a <= seconds ms + (1 # 2 ^ 21))%Q).
  { unfold a. rewrite <- S.
    apply binary64_near; rewrite S; [lra|].
    change (inject_Z (2 ^ 33)) with 8589934592%Q. lra. }
  change (1 # 2 ^ 21)%Q with (1 # 2097152)%Q in A.
  pose proof (binary64_near (a - inject_Z 10)) as B.
  change (inject_Z (2 ^ 33)) with 8589934592%Q in B.
  change (1 # 2 ^ 21)%Q with (1 # 2097152)%Q in B.
  change (inject_Z 10) with 10%Q in *.
  change (1 # 2 ^ 20)%Q with (1 # 1048576)%Q.
  assert (B1 : (1 <= a - 10)%Q) by lra.
  assert (B2 : (a - 10 < 8589934592)%Q) by lra.
  specialize (B B1 B2). lra.
Qed.

(** The back-dated time as the file keeps it: the microsecond at or
    just below ten seconds before [ms]. *)
Lemma timespec_backdated (ms : Z) :
  in_era ms ->
  (seconds ms - 10 - (1 # 1000000) <= timespec (backdated ms) <= seconds ms - 10)%Q.
Proof.
  intros H. pose proof (backdated_near ms H) as [L U].
  change (1 # 2 ^ 20)%Q with (1 # 1048576)%Q in *.
  unfold timespec.
  set (r := backdated ms) in *.
  set (K := ((ms - 10000) * 1000)%Z).
  assert (X : (seconds ms - 10 == inject_Z K / 1000000)%Q).
  { unfold K, seconds, Z.sub. rewrite (Qmake_Qdiv ms 1000).
    rewrite inject_Z_mult, inject_Z_plus.
    change (inject_Z (- (10000))) with (- (10000))%Q.
    change (inject_Z (Z.pos 1000)) with 1000%Q. change (inject_Z 1000) with 1000%Q.
    change (inject_Z 10000) with 10000%Q. field. }
  assert (F1 : (K - 1 <= Qfloor (r * 1000000))%Z).
  { rewrite <- (Qfloor_Z (K - 1)). apply Qfloor_resp_le.
    unfold Z.sub at 1. rewrite inject_Z_plus. change (inject_Z (- (1))) with (- (1))%Q.
    assert (inject_Z K == (seconds ms - 10) * 1000000)%Q by (rewrite X; field).
    lra. }
  assert (F2 : (Qfloor (r * 1000000) <= K)%Z).
  { assert (Qfloor (r * 1000000) < K + 1)%Z; [|lia].
    rewrite Zlt_Qlt. pose proof (Qfloor_le (r * 1000000)) as Fl.
    rewrite inject_Z_plus. change (inject_Z 1) with 1%Q.
    assert (inject_Z K == (seconds ms - 10) * 1000000)%Q by (rewrite X; field).
    lra. }
  rewrite X. rewrite (Qmake_Qdiv (Qfloor (r * 1000000)) 1000000).
  change (inject_Z (Z.pos 1000000)) with 1000000%Q.
  rewrite Zle_Qle in F1, F2.
  unfold Z.sub in F1. rewrite inject_Z_plus in F1.
  change (inject_Z (- (1))) with (- (1))%Q in F1.
  set (fl := inject_Z (Qfloor (r * 1000000))) in *.
  set (k := inject_Z K) in *. clearbody fl k. clear - F1 F2.
  split.
  - apply Qle_shift_div_l; [reflexivity|].
    assert ((k / 1000000 - (1 # 1000000)) * 1000000 == k - 1)%Q by field. lra.
  - apply Qle_shift_div_r; [reflexivity|].
    assert (k / 1000000 * 1000000 == k)%Q by field. lra.
Qed.

(** The cut to microseconds takes away less than one of them. *)
Lemma timespec_near (t : Q) :
  (t - (1 # 1000000) < timespec t <= t)%Q.
Proof.
  unfold timespec. rewrite (Qmake_Qdiv (Qfloor (t * 1000000)) 1000000).
  change (inject_Z (Z.pos 1000000)) with 1000000%Q.
  pose proof (Qfloor_le (t * 1000000)) as L.
  pose proof (Qlt_floor (t * 1000000)) as U.
  rewrite inject_Z_plus in U. change (inject_Z 1) with 1%Q in U.
  set (fl := inject_Z (Qfloor (t * 1000000))) in *. clearbody fl.
  split.
  - apply Qlt_shift_div_l; [reflexivity|].
    assert ((t - (1 # 1000000)) * 1000000 == t * 1000000 - 1)%Q by field. lra.
  - apply Qle_shift_div_r; [reflexivity|]. lra.
Qed.

(** For every time value the back-dated Number is within a
    thousandth of a second of ten seconds before it. *)
Lemma backdated_roughly (ms : Z) :
  time_value ms ->
  (seconds ms - 10 - (1 # 2 ^ 10) <= backdated ms <= seconds ms - 10 + (1 # 2 ^ 10))%Q.
Proof.
  intros [L U]. unfold backdated, num_sub, num_div.
  assert (S : (inject_Z ms / inject_Z 1000 == seconds ms)%Q).
  { unfold seconds. rewrite (Qmake_Qdiv ms 1000). reflexivity. }
  assert (S1 : (11001 # 1000 <= seconds ms)%Q).
  { unfold seconds, Qle. simpl. lia. }
  assert (S2 : (seconds ms <= 8640000000000)%Q).
  { unfold seconds, Qle. simpl. lia. }
  set (a := binary64 (inject_Z ms / inject_Z 1000)).
  assert (A : (seconds ms - (1 # 2 ^ 11) <= a <= seconds ms + (1 # 2 ^ 11))%Q).
  { unfold a. rewrite <- S.
    apply binary64_roughly; rewrite S; [lra|].
    change (inject_Z (2 ^ 43)) with 8796093022208%Q. lra. }
  change (1 # 2 ^ 11)%Q with (1 # 2048)%Q in A.
  pose proof (binary64_roughly (a - inject_Z 10)) as B.
  change (inject_Z (2 ^ 43)) with 8796093022208%Q in B.
  change (1 # 2 ^ 11)%Q with (1 # 2048)%Q in B.
  change (inject_Z 10) with 10%Q in *.
  change (1 # 2 ^ 10)%Q with (1 # 1024)%Q.
  assert (B1 : (1 <= a - 10)%Q) by lra.
  assert (B2 : (a - 10 < 8796093022208)%Q) by lra.
  specialize (B B1 B2). lra.
Qed.

(** The back-dated time as the file keeps it, for every time value. *)
Lemma timespec_roughly (ms : Z) :
  time_value ms ->
  (seconds ms - 10 - (1 # 1000) <= timespec (backdated ms)
   <= seconds ms - 10 + (1 # 1000))%Q.
Proof.
  intros H. pose proof (backdated_roughly ms H) as [L U].
  change (1 # 2 ^ 10)%Q with (1 # 1024)%Q in *.
  pose proof (timespec_near (backdated ms)) as [L1 U1].
  split; lra.
Qed.

(** *** The reference codec on numbers and escapes *)

(** Number literals are read as the nearest Number and written with the
    fewest digits that read back; a literal beyond the finite Numbers
    reads as an infinity, which is written [null]. *)
Lemma reference_numbers_sample :
  option_map stringify
    (parse "[0.1, 1e21, 1e-7, 123456789012345678901, -2.5, 1e400, -0, 5e-324, 0.0000012, 1E3, 4.35]")
  = Some "[0.1,1e+21,1e-7,123456789012345680000,-2.5,null,0,5e-324,0.0000012,1000,4.35]"
  /\ parse "[1.5, 12]" = Some (VArr [VNum (3 # 2); VNum 12])
  /\ parse "01" = None
  /\ parse "1." = None
  /\ parse ".5" = None
  /\ parse "1e" = None.
Proof. vm_compute. repeat split. Qed.

(** An escape stands for the UTF-8 bytes of its code point, a surrogate
    pair for the four bytes of its own; a surrogate on its own is
    refused. *)
Lemma reference_escapes_sample :
  parse (String dquote (String bslash "u00e9" ++ String bslash "u20ac"
                          ++ String dquote EmptyString))
  = Some (VStr (String (ascii_of_nat 195) (String (ascii_of_nat 169)
                  (String (ascii_of_nat 226) (String (ascii_of_nat 130)
                     (String (ascii_of_nat 172) EmptyString))))))
  /\ parse (String dquote (String bslash "ud83d" ++ String bslash "ude00"
                             ++ String dquote EmptyString))
     = Some (VStr (String (ascii_of_nat 240) (String (ascii_of_nat 159)
                     (String (ascii_of_nat 152) (String (ascii_of_nat 128)
                        EmptyString)))))
  /\ parse (String dquote (String bslash "ud83d" ++ String dquote EmptyString))
     = None.
Proof. vm_compute. repeat split. Qed.

Lemma mem_cons x y xs : mem x (y :: xs) = (String.eqb x y || mem x xs)%bool.
Proof. reflexivity. Qed.

Lemma mem_In x xs : mem x xs = true <-> In x xs.
Proof.
  unfold mem. rewrite existsb_exists. split.
  - intros (y & Hy & E). apply String.eqb_eq in E. now subst.
  - intros H. exists x. split; [assumption | apply String.eqb_refl].
Qed.

Lemma indexOf_from_absent xs x i :
  mem x xs = false -> indexOf_from i xs x = (-1)%Z.
Proof.
  revert i. induction xs as [|y xs IH]; intros i H; simpl; [reflexivity|].
  rewrite mem_cons in H. apply orb_false_iff in H as [Hxy Hm].
  rewrite String.eqb_sym, Hxy. now apply IH.
Qed.

Lemma indexOf_from_present xs x i :
  mem x xs = true ->
  (i <= indexOf_from i xs x < i + Z.of_nat (List.length xs))%Z.
Proof.
  revert i. induction xs as [|y xs IH]; intros i H; [discriminate|].
  rewrite mem_cons in H. cbn [indexOf_from List.length].
  rewrite String.eqb_sym. destruct (String.eqb x y); [lia|].
  simpl in H. specialize (IH (i + 1)%Z H). lia.
Qed.

Lemma bit_not_minus_one : bit_not (-1) = 0%Z.
Proof. reflexivity. Qed.

(** No index an array can hold is mapped to [0] by [~]. *)
Lemma bit_not_index z :
  (0 <= z < max_array_length)%Z -> bit_not z <> 0%Z.
Proof.
  unfold bit_not, to_int32, max_array_length. intros Hz E.
  change (2 ^ 32)%Z with 4294967296%Z in *.
  change (2 ^ 31)%Z with 2147483648%Z in *.
  unfold Z.lnot in E.
  pose proof (Z.div_mod (z + 2147483648) 4294967296 ltac:(lia)) as D.
  pose proof (Z.mod_pos_bound (z + 2147483648) 4294967296 ltac:(lia)) as B.
  lia.
Qed.

(** [!~xs.indexOf(x)] says that [x] is not in [xs]. *)
Lemma not_excluded_iff xs x :
  (Z.of_nat (List.length xs) <= max_array_length)%Z ->
  not_num (bit_not (indexOf xs x)) = negb (mem x xs).
Proof.
  intros Hlen. unfold indexOf. destruct (mem x xs) eqn:M.
  - pose proof (indexOf_from_present xs x 0 M) as B.
    unfold not_num. apply Z.eqb_neq, bit_not_index. lia.
  - rewrite indexOf_from_absent by assumption. reflexivity.
Qed.

Lemma occurrences_app x xs ys :
  occurrences x (xs ++ ys)%list = occurrences x xs + occurrences x ys.
Proof. unfold occurrences. apply count_occ_app. Qed.

Lemma occurrences_filter (p : string -> bool) x xs :
  occurrences x (filter p xs) = if p x then occurrences x xs else 0.
Proof.
  unfold occurrences. induction xs as [|y xs IH]; simpl.
  - now destruct (p x).
  - destruct (string_dec y x) as [->|N].
    + destruct (p x) eqn:P; simpl.
      * destruct (string_dec x x); [now rewrite IH | congruence].
      * assumption.
    + destruct (p y); simpl; [|assumption].
      destruct (string_dec y x); [congruence | assumption].
Qed.

(** The log guard lets every value of the option through. *)
Lemma log_guard_always (l : LogOption) : log_guard l = true.
Proof.
  unfold log_guard, log_strict_eq. destruct l as [b | s]; simpl.
  - apply orb_true_r.
  - reflexivity.
Qed.

(** *** Frame facts: what each step leaves alone *)

Section Frames.

Context {codec : Codec}.
Variable webpack : BuildInvocation -> World -> BundlerRun.
Variable options : Options.

Lemma build_callback_invocations deps r w :
  invocations (snd (build_callback options deps r w)) = invocations w.
Proof.
  unfold build_callback. destruct r as [err | stats].
  - destruct (err_stack err) as [s|]; destruct (err_details err) as [d|]; simpl;
      try destruct (d =? EmptyString)%string; reflexivity.
  - destruct (hasWarnings stats), (hasErrors stats),
      (log_strict_eq (log options) (LogLevel "verbose"));
      unfold all2, utimes_manifest, writeFile_dllCache; simpl;
      repeat match goal with
             | |- context [match manifest ?w with _ => _ end] =>
                 destruct (manifest w); simpl
             | |- context [if dllDirectory ?w then _ else _] =>
                 destruct (dllDirectory w); simpl
             | |- context [if log_guard ?l then _ else _] =>
                 destruct (log_guard l); simpl
             end; reflexivity.
Qed.

Lemma build_invocations deps ks w :
  Object_keys deps = Some ks ->
  invocations (snd (build webpack options deps w))
  = (invocations w
       ++ [{| entry_name := dllName options; entry := entry_list options ks |}])%list.
Proof.
  intros K. unfold build. rewrite K. unfold call_webpack.
  rewrite build_callback_invocations. reflexivity.
Qed.

Lemma read_deps_ok opts w text descriptor d :
  pkgJson w = Some text ->
  JSON_parse text = Some descriptor ->
  prop_dependencies descriptor = Some d ->
  read_deps opts w = (Fulfilled {| deps := d; cache := cache opts |}, w).
Proof.
  intros P J D. unfold read_deps, catch, andThen, readFile_pkgJson.
  rewrite P, J, D. reflexivity.
Qed.

Lemma read_cache_ok opts w text c :
  dllCache w = Some text ->
  JSON_parse text = Some c ->
  read_cache options opts w = (Fulfilled {| deps := deps opts; cache := c |}, w).
Proof.
  intros C J. unfold read_cache, catch, andThen, readFile_dllCache.
  rewrite C, J. reflexivity.
Qed.

Lemma read_cache_unusable opts w :
  snapshot_unusable w ->
  read_cache options opts w = (Fulfilled opts, print Log msg_start w).
Proof.
  intros [C | (text & C & J)];
    unfold read_cache, catch, andThen, readFile_dllCache;
    rewrite C; try rewrite J; unfold reject;
    rewrite log_guard_always; reflexivity.
Qed.

Lemma make_steps w d :
  descriptor_has w d ->
  make webpack options w
  = (opts <- read_cache options {| deps := d; cache := VUndefined |} ;;
     check webpack options opts) w.
Proof.
  intros (text & descriptor & P & J & D).
  unfold make. unfold andThen at 1 2 3. unfold resolve at 1.
  rewrite (read_deps_ok _ _ _ _ _ P J D). reflexivity.
Qed.

End Frames.

(** *** Deep equality of dependency mappings *)

Lemma wf_props_NoDup {A : Type} (props : list (string * A)) :
  wf_props props -> NoDup (keys props).
Proof.
  unfold wf_props. induction (keys props) as [|x l IH]; simpl; intros H.
  - constructor.
  - apply andb_true_iff in H as [Hx Hl]. constructor.
    + intros I. apply mem_In in I. unfold mem in I. rewrite I in Hx. discriminate.
    + now apply IH.
Qed.

Lemma get_own_In {A : Type} (props : list (string * A)) k v :
  NoDup (keys props) -> (get_own props k = Some v <-> In (k, v) props).
Proof.
  induction props as [|[k' v'] rest IH]; simpl; intros ND.
  - split; [discriminate | tauto].
  - inversion ND as [|? ? Hnot ND']; subst.
    destruct (String.eqb_spec k' k) as [->|N].
    + split.
      * intros [= ->]. now left.
      * intros [[= ->] | I]; [reflexivity|].
        exfalso. apply Hnot. change k with (fst (k, v)). now apply in_map.
    + rewrite (IH ND'). split.
      * now right.
      * intros [[= -> ->] | I]; [congruence | assumption].
Qed.

Lemma get_own_obj (D : DepMap) k :
  get_own (map (fun '(k, r) => (k, VStr r)) D) k = option_map VStr (get_own D k).
Proof.
  induction D as [|[k' r'] D IH]; simpl; [reflexivity|].
  destruct (k' =? k)%string; [reflexivity | assumption].
Qed.

(** [isEqual] on two dependency objects, unfolded. *)
Lemma isEqual_obj (C D : DepMap) :
  isEqual (obj_of C) (obj_of D)
  = ((List.length C =? List.length D)%nat
     && forallb (fun '(k, r) =>
                   match get_own D k with
                   | Some r' => (r =? r')%string
                   | None => false
                   end) C)%bool.
Proof.
  unfold obj_of. cbn [isEqual]. rewrite !length_map. f_equal.
  induction C as [|[k r] C IH]; [reflexivity|].
  cbn [map forallb]. rewrite get_own_obj, IH.
  destruct (get_own D k); reflexivity.
Qed.

Lemma isEqual_same_pairs (C D : DepMap) :
  wf_props C -> wf_props D ->
  (isEqual (obj_of C) (obj_of D) = true <-> same_pairs C D).
Proof.
  intros WC WD. apply wf_props_NoDup in WC, WD.
  assert (NC : NoDup C) by (eapply NoDup_map_inv; exact WC).
  assert (NDD : NoDup D) by (eapply NoDup_map_inv; exact WD).
  rewrite isEqual_obj, andb_true_iff, Nat.eqb_eq, forallb_forall. split.
  - intros [L F].
    assert (I : incl C D).
    { intros [k r] H. specialize (F _ H). cbn in F.
      destruct (get_own D k) as [r'|] eqn:G; [|discriminate].
      apply String.eqb_eq in F. subst r'. now apply get_own_In in G. }
    assert (I' : incl D C) by (apply NoDup_length_incl; [assumption | lia | assumption]).
    intros k r. split; [apply I | apply I'].
  - intros S.
    assert (I : incl C D) by (intros [k r] H; now apply S).
    assert (I' : incl D C) by (intros [k r] H; now apply S).
    split.
    + apply Nat.le_antisymm; now apply NoDup_incl_length.
    + intros [k r] H. apply I in H. apply get_own_In in H; [|assumption].
      rewrite H. apply String.eqb_refl.
Qed.

Lemma same_pairs_refl (D : DepMap) : same_pairs D D.
Proof. intros k r. tauto. Qed.

(** An object is truthy: only [isEqual] decides. *)
Lemma cache_valid_obj (C : DepMap) (d : value) :
  cache_valid (obj_of C) d = isEqual (obj_of C) d.
Proof. reflexivity. Qed.

(** *** The reference codec round-trips dependency mappings *)

Lemma append_assoc (a b c : string) : ((a ++ b) ++ c = a ++ (b ++ c))%string.
Proof. induction a as [|x a IH]; simpl; [reflexivity | now rewrite IH]. Qed.

Lemma length_append (a b : string) :
  String.length (a ++ b) = String.length a + String.length b.
Proof. induction a as [|x a IH]; simpl; [reflexivity | now rewrite IH]. Qed.

(** Reading back one escaped character. *)
Lemma parse_chars_escape_char (c : ascii) (t : string) :
  parse_chars (escape_char c ++ t) = cons_char c (parse_chars t).
Proof.
  destruct c as [[] [] [] [] [] [] [] []]; reflexivity.
Qed.

Lemma parse_chars_escape (s rest : string) :
  parse_chars (escape s ++ String dquote rest) = Some (s, rest).
Proof.
  induction s as [|c s IH].
  - reflexivity.
  - cbn [escape]. rewrite append_assoc, parse_chars_escape_char, IH. reflexivity.
Qed.

Lemma quote_append (s rest : string) :
  quote s ++ rest = String dquote (escape s ++ String dquote rest).
Proof. unfold quote. cbn [append]. now rewrite append_assoc. Qed.

Lemma parse_value_quote (f : nat) (s rest : string) :
  parse_value (S f) (quote s ++ rest) = Some (VStr s, rest).
Proof.
  rewrite quote_append.
  change (parse_value (S f) (String dquote (escape s ++ String dquote rest)))
    with (match parse_chars (escape s ++ String dquote rest) with
          | Some (str, r) => Some (VStr str, r)
          | None => None
          end).
  now rewrite parse_chars_escape.
Qed.

Lemma stringify_obj_of (D : DepMap) :
  stringify (obj_of D) = "{" ++ String.concat "," (map member_text D) ++ "}".
Proof.
  unfold stringify, obj_of. cbn [stringify_in]. do 3 f_equal.
  induction D as [|[k r] D IH]; [reflexivity|].
  cbn [map present]. now rewrite IH.
Qed.

Lemma members_start (kr : string * string) (D : DepMap) :
  exists t, String.concat "," (map member_text (kr :: D)) = String dquote t.
Proof.
  cbn [map String.concat].
  destruct (map member_text D); unfold member_text at 1;
    rewrite ?append_assoc, quote_append; eauto.
Qed.

Lemma skip_ws_members (kr : string * string) (D : DepMap) (rest : string) :
  skip_ws (String.concat "," (map member_text (kr :: D)) ++ rest)
  = String.concat "," (map member_text (kr :: D)) ++ rest.
Proof. destruct (members_start kr D) as (t & ->). reflexivity. Qed.

(** Reading back the members of a serialized mapping: each one is set
    on the object read so far. *)
Lemma parse_members_text (D : DepMap) :
  forall (f : nat) (acc : list (string * value)) (k r rest : string),
    List.length D < f ->
    parse_members (S f) acc
      (String.concat "," (map member_text ((k, r) :: D)) ++ String "}" rest)
    = Some (VObj (fold_left (fun a kr => set_prop a (fst kr) (VStr (snd kr)))
                    ((k, r) :: D) acc), rest).
Proof.
  induction D as [|[k' r'] D IH]; intros f acc k r rest Hf.
  - cbn [map String.concat]. unfold member_text. cbn [fst snd].
    rewrite !append_assoc, quote_append.
    cbn [parse_members]. change (dquote =? dquote)%char with true. cbn iota.
    rewrite parse_chars_escape. cbn [append skip_ws is_ws].
    change (is_ws ":") with false. cbn iota.
    change (":" =? ":")%char with true. cbn iota.
    destruct f as [|f]; [inversion Hf|].
    rewrite parse_value_quote.
    change (skip_ws (String "}" rest)) with (String "}" rest). cbn iota.
    change ("}" =? ",")%char with false. change ("}" =? "}")%char with true.
    reflexivity.
  - change (String.concat "," (map member_text ((k, r) :: (k', r') :: D)))
      with (member_text (k, r) ++ "," ++
            String.concat "," (map member_text ((k', r') :: D))).
    unfold member_text at 1. cbn [fst snd].
    rewrite !append_assoc, quote_append.
    cbn [parse_members]. change (dquote =? dquote)%char with true. cbn iota.
    rewrite parse_chars_escape. cbn [append skip_ws is_ws].
    change (is_ws ":") with false. cbn iota.
    change (":" =? ":")%char with true. cbn iota.
    destruct f as [|f]; [inversion Hf|].
    rewrite parse_value_quote.
    cbn [append skip_ws]. change (is_ws ",") with false. cbn iota.
    change ("," =? ",")%char with true. cbn iota.
    rewrite skip_ws_members.
    rewrite (IH f (set_prop acc k (VStr r)) k' r' rest); [reflexivity|].
    simpl in Hf. lia.
Qed.

Lemma members_length (D : DepMap) :
  List.length D <= String.length (String.concat "," (map member_text D)).
Proof.
  induction D as [|[k r] D IH]; [simpl; lia|].
  cbn [map String.concat]. destruct (map member_text D) as [|m ms] eqn:E.
  - destruct D; [|discriminate]. unfold member_text, quote. simpl. lia.
  - rewrite !length_append. unfold member_text at 1, quote. simpl in *. lia.
Qed.

(** [set_prop] on a dependency object is [set_prop] on the mapping. *)
Lemma set_prop_obj (acc : DepMap) (k r : string) :
  set_prop (map (fun '(k, r) => (k, VStr r)) acc) k (VStr r)
  = map (fun '(k, r) => (k, VStr r)) (set_prop acc k r).
Proof.
  unfold set_prop. rewrite get_own_obj.
  destruct (get_own acc k) as [old|]; cbn [option_map].
  - induction acc as [|[k' r'] acc IH]; [reflexivity|].
    cbn [map overwrite]. destruct (k' =? k)%string; [reflexivity|].
    now rewrite IH.
  - destruct (array_index k) as [n|].
    + induction acc as [|[k' r'] acc IH]; [reflexivity|].
      cbn [map insert_index]. destruct (array_index k') as [m|]; [|reflexivity].
      destruct (m <? n)%Z; [|reflexivity]. now rewrite IH.
    + now rewrite map_app.
Qed.

Lemma fold_set_prop_obj (D acc : DepMap) :
  fold_left (fun a kr => set_prop a (fst kr) (VStr (snd kr))) D
    (map (fun '(k, r) => (k, VStr r)) acc)
  = map (fun '(k, r) => (k, VStr r))
      (fold_left (fun a kr => set_prop a (fst kr) (snd kr)) D acc).
Proof.
  revert acc. induction D as [|[k r] D IH]; intros acc; [reflexivity|].
  cbn [fold_left fst snd]. now rewrite set_prop_obj, IH.
Qed.

(** The reference parser reads what the reference serializer writes
    for a dependency mapping as that mapping, in enumeration order. *)
Lemma reference_parse_stringify (D : DepMap) :
  parse (stringify (obj_of D)) = Some (obj_of (canon D)).
Proof.
  destruct D as [|[k r] D]; [reflexivity|].
  rewrite stringify_obj_of. unfold parse.
  set (body := String.concat "," (map member_text ((k, r) :: D))).
  assert (L : List.length D < String.length ("{" ++ body ++ "}")).
  { pose proof (members_length ((k, r) :: D)) as M. fold body in M.
    cbn [append String.length]. rewrite length_append. simpl in M |- *. lia. }
  remember (String.length ("{" ++ body ++ "}")) as n eqn:En.
  destruct (members_start (k, r) D) as (t & Bt). fold body in Bt.
  change (parse_value (S (S n)) ("{" ++ body ++ "}"))
    with (match skip_ws (body ++ "}") with
          | String c1 r1 as t1 =>
              if (c1 =? "}")%char then Some (VObj [], r1)
              else parse_members (S n) [] t1
          | EmptyString => None
          end).
  rewrite Bt. cbn [append skip_ws]. change (is_ws dquote) with false. cbn iota.
  change (dquote =? "}")%char with false. cbn iota.
  change (String dquote (t ++ "}")) with (String dquote t ++ "}").
  rewrite <- Bt. unfold body.
  rewrite (parse_members_text D n [] k r EmptyString L).
  cbn [skip_ws]. unfold obj_of, canon.
  now rewrite <- (fold_set_prop_obj ((k, r) :: D) []).
Qed.

(** *** Enumeration order keeps the pairs of a mapping *)

Lemma get_own_None {A : Type} (props : list (string * A)) k :
  get_own props k = None <-> ~ In k (keys props).
Proof.
  induction props as [|[k' v'] props IH]; simpl; [tauto|].
  destruct (String.eqb_spec k' k) as [->|N].
  - split; [discriminate | tauto].
  - rewrite IH. tauto.
Qed.

Lemma In_insert_index {A : Type} n k (v : A) props x :
  In x (insert_index n k v props) <-> x = (k, v) \/ In x props.
Proof.
  induction props as [|[k' v'] props IH]; simpl.
  - intuition congruence.
  - destruct (array_index k') as [m|]; [destruct (m <? n)%Z|]; simpl;
      rewrite ?IH; intuition congruence.
Qed.

Lemma In_set_prop_fresh {A : Type} (props : list (string * A)) k v x :
  ~ In k (keys props) ->
  (In x (set_prop props k v) <-> x = (k, v) \/ In x props).
Proof.
  intros F. apply get_own_None in F. unfold set_prop. rewrite F.
  destruct (array_index k) as [n|].
  - apply In_insert_index.
  - rewrite in_app_iff. simpl. intuition congruence.
Qed.

Lemma In_keys_set_prop_fresh {A : Type} (props : list (string * A)) k v k' :
  ~ In k (keys props) ->
  (In k' (keys (set_prop props k v)) <-> k' = k \/ In k' (keys props)).
Proof.
  intros F. unfold keys. rewrite !in_map_iff. split.
  - intros ([k0 v0] & <- & I). apply In_set_prop_fresh in I; [|assumption].
    destruct I as [[= -> ->] | I]; [now left|]. right. now exists (k0, v0).
  - intros [-> | ([k0 v0] & <- & I)].
    + exists (k, v). split; [reflexivity|]. apply In_set_prop_fresh; auto.
    + exists (k0, v0). split; [reflexivity|]. apply In_set_prop_fresh; auto.
Qed.

Lemma NoDup_keys_insert_index {A : Type} n k (v : A) props :
  ~ In k (keys props) -> NoDup (keys props) ->
  NoDup (keys (insert_index n k v props)).
Proof.
  induction props as [|[k' v'] props IH]; simpl; intros F ND.
  - constructor; [tauto | constructor].
  - inversion ND as [|? ? Hnot ND']; subst.
    assert (Stop : NoDup (k :: k' :: keys props)) by (constructor; simpl; tauto).
    destruct (array_index k') as [m|]; [destruct (m <? n)%Z|]; simpl; try exact Stop.
    constructor.
    + unfold keys. rewrite in_map_iff. intros ([k0 v0] & E & I). simpl in E. subst k0.
      apply In_insert_index in I. destruct I as [[= -> ->] | I]; [tauto|].
      apply Hnot. change k' with (fst (k', v0)). now apply in_map.
    + apply IH; tauto.
Qed.

Lemma NoDup_keys_set_prop_fresh {A : Type} (props : list (string * A)) k v :
  ~ In k (keys props) -> NoDup (keys props) -> NoDup (keys (set_prop props k v)).
Proof.
  intros F ND. pose proof F as G. apply get_own_None in G.
  unfold set_prop. rewrite G. destruct (array_index k) as [n|].
  - now apply NoDup_keys_insert_index.
  - unfold keys. rewrite map_app. apply NoDup_app; [assumption | |].
    + constructor; [simpl; tauto | constructor].
    + intros a I [<- | []]. now apply F.
Qed.

Lemma fold_set_prop_pairs (D acc : DepMap) :
  NoDup (keys acc ++ keys D)%list ->
  NoDup (keys (fold_left (fun a kr => set_prop a (fst kr) (snd kr)) D acc))
  /\ forall x,
       In x (fold_left (fun a kr => set_prop a (fst kr) (snd kr)) D acc)
       <-> In x acc \/ In x D.
Proof.
  revert acc. induction D as [|[k r] D IH]; intros acc ND.
  - cbn [fold_left]. unfold keys in ND. cbn [map] in ND. rewrite app_nil_r in ND.
    split; [exact ND | simpl; tauto].
  - cbn [fold_left fst snd].
    assert (F : ~ In k (keys acc)).
    { apply NoDup_remove_2 in ND. intros I. apply ND, in_or_app. now left. }
    assert (ND' : NoDup (keys (set_prop acc k r) ++ keys D)%list).
    { apply NoDup_app.
      - apply NoDup_keys_set_prop_fresh; [assumption|].
        now apply NoDup_app_remove_r in ND.
      - apply NoDup_app_remove_l in ND. now inversion ND.
      - intros a I ID. apply In_keys_set_prop_fresh in I; [|assumption].
        destruct I as [-> | I].
        + apply NoDup_app_remove_l in ND. inversion ND; subst. tauto.
        + apply NoDup_remove_1 in ND.
          revert I ID. clear -ND. revert a.
          induction (keys acc) as [|y l IHl]; simpl; [tauto|].
          intros a [-> | I] ID.
          * inversion ND; subst. apply H1, in_or_app. now right.
          * inversion ND; subst. eapply IHl; eauto. }
    destruct (IH _ ND') as (N & I). split; [exact N|].
    intros x. rewrite I, In_set_prop_fresh by assumption. simpl.
    intuition congruence.
Qed.

Lemma NoDup_wf_props {A : Type} (props : list (string * A)) :
  NoDup (keys props) -> wf_props props.
Proof.
  unfold wf_props. induction (keys props) as [|x l IH]; simpl; intros ND.
  - reflexivity.
  - inversion ND as [|? ? Hnot ND']; subst. rewrite IH by assumption.
    destruct (existsb (String.eqb x) l) eqn:E; [|reflexivity].
    exfalso. apply Hnot. apply mem_In. exact E.
Qed.

Lemma canon_same_pairs (D : DepMap) :
  wf_props D -> wf_props (canon D) /\ same_pairs (canon D) D.
Proof.
  intros W. apply wf_props_NoDup in W.
  destruct (fold_set_prop_pairs D [] W) as (N & I). split.
  - now apply NoDup_wf_props.
  - intros k r. unfold canon. rewrite I. simpl. tauto.
Qed.

(** On the reference codec every dependency mapping round-trips. *)
Lemma reference_roundtrips (D : DepMap) :
  wf_props D -> @roundtrips reference D.
Proof.
  intros W. exists (obj_of (canon D)). split.
  - apply reference_parse_stringify.
  - destruct (canon_same_pairs D W) as (WC & S).
    now apply isEqual_same_pairs.
Qed.

(* ================================================================== *)
(** ** The claims *)
(* ================================================================== *)

Section Claims.

Context {codec : Codec}.
Variable webpack : BuildInvocation -> World -> BundlerRun.
Variable options : Options.

(** C1.  The check made by [make] asks for a rebuild whenever the cached
    manifest is absent; with a cached manifest it asks for a rebuild
    exactly when the cached mapping and the current dependencies are not
    the same set of name-to-range pairs, whatever their order.  [check]
    follows that decision: it goes on to [build], or resolves at once.
    A mapping compared with a cached copy of itself needs no rebuild. *)
Theorem rebuild_decision :
  forall (D : DepMap) (cached : option DepMap),
    wf_props D ->
    wf_cached cached ->
    (cache_valid (cached_value cached) (obj_of D) = false <-> needsRebuild D cached)
    /\ (needsRebuild D cached ->
        check webpack options {| deps := obj_of D; cache := cached_value cached |}
        = build webpack options (obj_of D))
    /\ (~ needsRebuild D cached ->
        check webpack options {| deps := obj_of D; cache := cached_value cached |}
        = resolve tt)
    /\ cache_valid (obj_of D) (obj_of D) = true
    /\ check webpack options {| deps := obj_of D; cache := obj_of D |} = resolve tt.
Proof.
  intros D cached WD WC.
  assert (Self : cache_valid (obj_of D) (obj_of D) = true).
  { rewrite cache_valid_obj. apply isEqual_same_pairs; auto using same_pairs_refl. }
  assert (Dec : cache_valid (cached_value cached) (obj_of D) = false
                <-> needsRebuild D cached).
  { destruct cached as [C|]; cbn [cached_value needsRebuild].
    - rewrite cache_valid_obj. cbn [wf_cached] in WC.
      rewrite <- (isEqual_same_pairs C D WC WD).
      destruct (isEqual (obj_of C) (obj_of D)); intuition congruence.
    - split; [trivial | reflexivity]. }
  repeat split.
  - apply Dec.
  - apply Dec.
  - intros N. apply Dec in N. unfold check. cbn [deps cache]. now rewrite N.
  - intros N. unfold check. cbn [deps cache].
    destruct (cache_valid (cached_value cached) (obj_of D)) eqn:E; [reflexivity|].
    exfalso. apply N, Dec. reflexivity.
  - exact Self.
  - unfold check. cbn [deps cache]. now rewrite Self.
Qed.

(** C3, as the code has it.  The entry list handed to the bundler is the
    dependency names in enumeration order followed by the include names
    in list order, with every name of the exclude list removed; nothing
    collapses duplicates, so a name occurs as often as it occurs among
    the dependencies and in the include list together. *)
Theorem entry_list_merges :
  forall (d : value) (ks : list string) (w : World),
    (Z.of_nat (List.length (exclude options)) <= max_array_length)%Z ->
    Object_keys d = Some ks ->
    entry_list options ks = merged_entries ks (include options) (exclude options)
    /\ invocations (snd (build webpack options d w))
       = (invocations w
            ++ [{| entry_name := dllName options;
                   entry := merged_entries ks (include options) (exclude options) |}])%list
    /\ forall x,
         occurrences x (entry_list options ks)
         = if mem x (exclude options) then 0
           else occurrences x ks + occurrences x (include options).
Proof.
  intros d ks w Hlen K.
  assert (E : entry_list options ks
              = merged_entries ks (include options) (exclude options)).
  { unfold entry_list, merged_entries. apply filter_ext.
    intros x. now apply not_excluded_iff. }
  repeat split.
  - exact E.
  - rewrite (build_invocations webpack options d ks w K). now rewrite E.
  - intros x. rewrite E. unfold merged_entries.
    rewrite occurrences_filter, occurrences_app.
    now destruct (mem x (exclude options)).
Qed.

(** C4, as the code has it.  Each run of the HTML hook puts the asset
    file name in front of the list it is given: after N runs the list
    is N copies of the name followed by the initial list, so the name
    occurs N times more than it did. *)
Theorem html_hook_repeated :
  forall (js : list string) (N : nat),
    Nat.iter N (html_hook options) js
    = (repeat (dllAssetName options) N ++ js)%list
    /\ occurrences (dllAssetName options) (Nat.iter N (html_hook options) js)
       = N + occurrences (dllAssetName options) js.
Proof.
  intros js N.
  assert (E : Nat.iter N (html_hook options) js
              = (repeat (dllAssetName options) N ++ js)%list).
  { induction N as [|N IH]; simpl; [reflexivity|]. now rewrite IH. }
  split; [exact E|].
  rewrite E, occurrences_app. f_equal. clear E.
  unfold occurrences. induction N as [|N IH]; simpl; [reflexivity|].
  destruct (string_dec (dllAssetName options) (dllAssetName options));
    [now rewrite IH | congruence].
Qed.

(** C10.  When package.json parses to an object without a
    [dependencies] property, [deps] is [undefined]: no cache compares
    equal to it, [build] fails on [Object.keys(undefined)] before the
    bundler is called, and the promise of [make], and with it the
    plugin's, is rejected; nothing is written. *)
Theorem missing_dependencies_reject :
  forall (w : World) (text : string) (props : list (string * value)),
    pkgJson w = Some text ->
    JSON_parse text = Some (VObj props) ->
    get_own props "dependencies" = None ->
    (forall c, cache_valid c VUndefined = false)
    /\ exists e w',
         e = TypeError "Cannot convert undefined or null to object"
         /\ make webpack options w = (Rejected e, w')
         /\ develop webpack options w = (Rejected e, w')
         /\ invocations w' = invocations w
         /\ dllCache w' = dllCache w
         /\ manifest w' = manifest w.
Proof.
  intros w text props P J G.
  assert (V : forall c, cache_valid c VUndefined = false).
  { intros c. unfold cache_valid. destruct c; simpl; try reflexivity;
      now rewrite andb_false_r. }
  split; [exact V|].
  assert (DH : descriptor_has w VUndefined).
  { exists text, (VObj props). repeat split; try assumption.
    simpl. now rewrite G. }
  assert (M : exists w', make webpack options w
                = (Rejected (TypeError "Cannot convert undefined or null to object"), w')
              /\ invocations w' = invocations w
              /\ dllCache w' = dllCache w
              /\ manifest w' = manifest w).
  { rewrite (make_steps webpack options w VUndefined DH). unfold andThen.
    destruct (dllCache w) as [c|] eqn:C; [destruct (JSON_parse c) as [v|] eqn:Jc|].
    - rewrite (read_cache_ok options _ w c v C Jc).
      exists w. unfold check. cbn [deps cache]. rewrite V. cbn. auto.
    - rewrite read_cache_unusable by (right; eauto).
      eexists. unfold check. cbn [deps cache]. cbn. repeat split; assumption.
    - rewrite read_cache_unusable by (left; assumption).
      eexists. unfold check. cbn [deps cache]. cbn. repeat split; assumption. }
  destruct M as (w' & M & I & C & F).
  exists (TypeError "Cannot convert undefined or null to object"), w'.
  repeat split; try assumption.
  unfold develop, andThen. now rewrite M.
Qed.


(** *** What a build leaves behind *)

Ltac world_simpl :=
  cbn -[Qminus seconds inject_Z num_sub num_div timespec Z.add Z.max msg_start msg_success msg_changed
        join_lines String.eqb log_strict_eq].

(** The bundler completed and emitted: both file operations of the
    callback succeed, whatever the compile errors. *)
Lemma build_emitted deps ks stats w :
  Object_keys deps = Some ks ->
  result (webpack {| entry_name := dllName options; entry := entry_list options ks |} w)
  = Completed stats ->
  emitted (webpack {| entry_name := dllName options; entry := entry_list options ks |} w)
  = true ->
  exists w',
    build webpack options deps w
    = (if hasErrors stats then Rejected (CompileErrors (errors stats)) else Fulfilled tt, w')
    /\ clock w'
       = (clock w
          + Z.max 0 (duration (webpack {| entry_name := dllName options;
                                          entry := entry_list options ks |} w)))%Z
    /\ manifest w' = Some (timespec (backdated (clock w')))
    /\ dllCache w' = Some (JSON_stringify deps)
    /\ pkgJson w' = pkgJson w
    /\ In (Log, msg_success) (console w')
    /\ (hasErrors stats = true -> In (Err, join_lines (errors stats)) (console w'))
    /\ (forall line, In line (console w) -> In line (console w')).
Proof.
  intros K R E. unfold build. rewrite K. unfold call_webpack. rewrite R.
  unfold build_callback, all2, utimes_manifest, writeFile_dllCache.
  rewrite log_guard_always.
  destruct (hasWarnings stats), (hasErrors stats),
    (log_strict_eq (log options) (LogLevel "verbose"));
    world_simpl; repeat (progress (rewrite ?E, ?orb_true_r; world_simpl));
    eexists; (split; [reflexivity|]); world_simpl; unfold backdated;
    repeat split; try reflexivity; try discriminate; intros;
    rewrite ?in_app_iff; simpl; tauto.
Qed.

(** The bundler completed and the dll directory was there already: the
    write of dll.json goes through, compile errors or not. *)
Lemma build_completed_writes deps ks stats w :
  Object_keys deps = Some ks ->
  result (webpack {| entry_name := dllName options; entry := entry_list options ks |} w)
  = Completed stats ->
  dllDirectory w = true ->
  exists r w',
    build webpack options deps w = (r, w')
    /\ dllCache w' = Some (JSON_stringify deps)
    /\ (hasErrors stats = true ->
        r = Rejected (CompileErrors (errors stats))
        /\ In (Err, join_lines (errors stats)) (console w')).
Proof.
  intros K R Dir. unfold build. rewrite K. unfold call_webpack. rewrite R.
  unfold build_callback, all2, utimes_manifest, writeFile_dllCache.
  rewrite log_guard_always.
  destruct (emitted (webpack {| entry_name := dllName options;
                                entry := entry_list options ks |} w)) eqn:E,
    (manifest w) eqn:Mw, (hasWarnings stats), (hasErrors stats),
    (log_strict_eq (log options) (LogLevel "verbose"));
    world_simpl;
    repeat (progress (rewrite ?E, ?Mw, ?Dir, ?orb_true_r; world_simpl));
    eexists _, _; (split; [reflexivity|]); world_simpl;
    repeat split; try reflexivity; try discriminate; intros;
    rewrite ?in_app_iff; simpl; tauto.
Qed.

(** A fulfilled build went all the way through the callback. *)
Lemma build_fulfilled deps w w' :
  build webpack options deps w = (Fulfilled tt, w') ->
  manifest w' = Some (timespec (backdated (clock w')))
  /\ dllCache w' = Some (JSON_stringify deps)
  /\ In (Log, msg_success) (console w').
Proof.
  unfold build. destruct (Object_keys deps) as [ks|]; [|discriminate].
  unfold call_webpack.
  destruct (result (webpack _ w)) as [err | stats].
  - unfold build_callback.
    destruct (err_stack err), (err_details err) as [d|];
      try destruct (d =? EmptyString)%string; discriminate.
  - unfold build_callback, all2, utimes_manifest, writeFile_dllCache.
    rewrite log_guard_always.
    destruct (hasWarnings stats), (hasErrors stats),
      (log_strict_eq (log options) (LogLevel "verbose"));
      world_simpl;
      match goal with
      | |- context [match ?m with Some _ => _ | None => _ end] => destruct m
      end;
      match goal with
      | |- context [if ?b then _ else _] => destruct b
      end;
      cbn [settled_as]; intros [= <-]; world_simpl; unfold backdated;
      repeat split; rewrite ?in_app_iff; simpl; tauto.
Qed.

(** [make] without a usable snapshot is [build] after the start
    message. *)
Lemma make_without_snapshot w d :
  snapshot_unusable w ->
  descriptor_has w d ->
  make webpack options w = build webpack options d (print Log msg_start w).
Proof.
  intros U DH. rewrite (make_steps webpack options w d DH). unfold andThen.
  rewrite read_cache_unusable by assumption.
  unfold check. cbn [deps cache]. unfold cache_valid. reflexivity.
Qed.

(** C2, as the code behaves.  When the bundler reports compile errors,
    [build] rejects with the bundler's error texts, yet the callback
    runs on past its [reject]: where the dll directory exists, dll.json
    is overwritten with the dependencies of the failed build. *)
Theorem failed_build_overwrites_snapshot :
  forall (d : value) (ks : list string) (stats : Stats) (w : World),
    Object_keys d = Some ks ->
    result (webpack {| entry_name := dllName options; entry := entry_list options ks |} w)
    = Completed stats ->
    hasErrors stats = true ->
    dllDirectory w = true ->
    exists w',
      build webpack options d w = (Rejected (CompileErrors (errors stats)), w')
      /\ In (Err, join_lines (errors stats)) (console w')
      /\ dllCache w' = Some (JSON_stringify d).
Proof.
  intros d ks stats w K R H Dir.
  destruct (build_completed_writes d ks stats w K R Dir) as (r & w' & B & C & E).
  destruct (E H) as (-> & Er). exists w'. auto.
Qed.

(** C5.  Loading the snapshot never fails: [read_cache] is fulfilled in
    every world.  When dll.json is missing or is not JSON, [opts] comes
    back as it went in, with no [cache] recorded, and [make] goes on to
    [build], which calls the bundler. *)
Theorem unusable_snapshot_means_rebuild :
  forall (w : World) (d : value),
    snapshot_unusable w ->
    descriptor_has w d ->
    (forall opts,
        read_cache options opts w = (Fulfilled opts, print Log msg_start w))
    /\ make webpack options w = build webpack options d (print Log msg_start w)
    /\ (forall ks,
           Object_keys d = Some ks ->
           invocations (snd (make webpack options w))
           = (invocations w
                ++ [{| entry_name := dllName options;
                       entry := entry_list options ks |}])%list)
    /\ (forall w0 opts, exists opts' w',
           read_cache options opts w0 = (Fulfilled opts', w')).
Proof.
  intros w d U DH.
  assert (M : make webpack options w
              = build webpack options d (print Log msg_start w))
    by now apply make_without_snapshot.
  repeat split.
  - intros opts. now apply read_cache_unusable.
  - exact M.
  - intros ks K. rewrite M, (build_invocations webpack options d ks _ K).
    reflexivity.
  - intros w0 opts. unfold read_cache, catch, andThen, readFile_dllCache.
    destruct (dllCache w0) as [text|]; [destruct (JSON_parse text)|];
      unfold resolve, reject; eauto.
Qed.

(** The round trip through dll.json, over any codec that round-trips
    the mapping. *)
Lemma snapshot_round_trip_codec (D : DepMap) (w w1 : World) :
  roundtrips D ->
  build webpack options (obj_of D) w = (Fulfilled tt, w1) ->
  dllCache w1 = Some (JSON_stringify (obj_of D))
  /\ (forall opts, exists v,
         read_cache options opts w1
         = (Fulfilled {| deps := deps opts; cache := v |}, w1)
         /\ isEqual v (obj_of D) = true)
  /\ forall w2,
       dllCache w2 = dllCache w1 ->
       descriptor_has w2 (obj_of D) ->
       make webpack options w2 = (Fulfilled tt, w2).
Proof.
  intros (v & P & Eq) B.
  destruct (build_fulfilled _ _ _ B) as (_ & C & _).
  split; [exact C|]. split.
  - intros opts. exists v. split; [|exact Eq].
    now apply (read_cache_ok options opts w1 _ v C).
  - intros w2 C2 DH. rewrite C in C2.
    rewrite (make_steps webpack options w2 _ DH). unfold andThen.
    rewrite (read_cache_ok options _ w2 _ v C2 P).
    unfold check. cbn [deps cache]. unfold cache_valid. rewrite Eq.
    destruct v; try discriminate. reflexivity.
Qed.

(** In a watch cycle that starts a rebuild, a rejected [make] sends its
    error to the host's callback and keeps the recorded timestamp, so
    that the next cycle seeing the same timestamp runs [make] again; a
    fulfilled [make] records the observed timestamp.  In every cycle,
    started rebuild or not, the recorded timestamp changes only with
    [callback(null)]: an error handed to the callback leaves
    [pkgTimestamp] as it was. *)
Lemma watch_run_cases :
  forall (timestamp : option Z) (st : HookState) (w : World),
    triggered timestamp st = true ->
    (forall e w',
        make webpack options (print Log msg_changed w) = (Rejected e, w') ->
        watch_run webpack options timestamp st w = ((Some e, st), w')
        /\ watch_run webpack options timestamp st w'
           = match make webpack options (print Log msg_changed w') with
             | (Fulfilled _, w'') => ((None, {| pkgTimestamp := timestamp |}), w'')
             | (Rejected e', w'') => ((Some e', st), w'')
             end)
    /\ (forall w',
           make webpack options (print Log msg_changed w) = (Fulfilled tt, w') ->
           watch_run webpack options timestamp st w
           = ((None, {| pkgTimestamp := timestamp |}), w'))
    /\ (forall timestamp0 st0 w0,
           match watch_run webpack options timestamp0 st0 w0 with
           | ((Some _, st'), _) => st' = st0
           | ((None, st'), _) => pkgTimestamp st' = timestamp0
           end).
Proof.
  intros ts st w T. repeat split.
  - revert T. unfold triggered, watch_run. rewrite log_guard_always.
    destruct (timestamp_falsy ts || timestamp_eq ts (pkgTimestamp st))%bool;
      [discriminate|]. intros _.
    match goal with H : make _ _ _ = _ |- _ => now rewrite H end.
  - revert T. unfold triggered, watch_run. rewrite log_guard_always.
    destruct (timestamp_falsy ts || timestamp_eq ts (pkgTimestamp st))%bool;
      [discriminate|]. intros _.
    destruct (make webpack options (print Log msg_changed w')) as [[u | e'] w''];
      reflexivity.
  - intros w' M. revert T. unfold triggered, watch_run. rewrite log_guard_always.
    destruct (timestamp_falsy ts || timestamp_eq ts (pkgTimestamp st))%bool;
      [discriminate|]. intros _. now rewrite M.
  - intros ts0 st0 w0. unfold watch_run. rewrite log_guard_always.
    destruct (timestamp_falsy ts0 || timestamp_eq ts0 (pkgTimestamp st0))%bool;
      [reflexivity|].
    destruct (make webpack options (print Log msg_changed w0)) as [[u | e] w'];
      reflexivity.
Qed.

(** C9, as the code behaves.  The guard [log !== false || log !== 'none']
    holds for every value of the option: with logging disabled the first
    run (no dll.json) still prints the start message, and a successful
    build still prints the success message. *)
Theorem disabled_log_still_prints :
  forall (d : value) (ks : list string) (stats : Stats) (w : World),
    log_disabled (log options) = true ->
    dllCache w = None ->
    descriptor_has w d ->
    Object_keys d = Some ks ->
    result (webpack {| entry_name := dllName options; entry := entry_list options ks |}
              (print Log msg_start w))
    = Completed stats ->
    emitted (webpack {| entry_name := dllName options; entry := entry_list options ks |}
               (print Log msg_start w))
    = true ->
    hasErrors stats = false ->
    exists w',
      make webpack options w = (Fulfilled tt, w')
      /\ In (Log, msg_start) (console w')
      /\ In (Log, msg_success) (console w').
Proof.
  intros d ks stats w _ C DH K R E H.
  rewrite (make_without_snapshot w d (or_introl C) DH).
  destruct (build_emitted d ks stats _ K R E) as (w' & B & _ & _ & _ & _ & S & _ & Mono).
  rewrite H in B. exists w'. repeat split; [exact B | | exact S].
  apply Mono. cbn [console print]. apply in_or_app. right. now left.
Qed.

End Claims.

(** C6.  After a build of the mapping D is fulfilled, dll.json holds the
    JSON text of D; that text parses back to the pairs of D, so loading
    the snapshot records a cache deeply equal to D, and [make] over a
    descriptor that still lists D resolves without calling [build]: the
    world is left as it was. *)
Theorem snapshot_round_trip :
  forall (webpack : BuildInvocation -> World -> BundlerRun) (options : Options)
         (D : DepMap) (w w1 : World),
    wf_props D ->
    @build reference webpack options (obj_of D) w = (Fulfilled tt, w1) ->
    dllCache w1 = Some (stringify (obj_of D))
    /\ parse (stringify (obj_of D)) = Some (obj_of (canon D))
    /\ (forall opts,
           @read_cache reference options opts w1
           = (Fulfilled {| deps := deps opts; cache := obj_of (canon D) |}, w1))
    /\ same_pairs (canon D) D
    /\ isEqual (obj_of (canon D)) (obj_of D) = true
    /\ forall w2,
         dllCache w2 = dllCache w1 ->
         @descriptor_has reference w2 (obj_of D) ->
         @make reference webpack options w2 = (Fulfilled tt, w2).
Proof.
  intros webpack options D w w1 W B.
  destruct (@snapshot_round_trip_codec reference webpack options D w w1
              (reference_roundtrips D W) B) as (C & _ & M).
  pose proof (reference_parse_stringify D) as P.
  destruct (canon_same_pairs D W) as (WC & S).
  repeat split.
  - exact C.
  - exact P.
  - intros opts. now apply (@read_cache_ok reference options opts w1 _ _ C).
  - apply S.
  - apply S.
  - now apply isEqual_same_pairs.
  - exact M.
Qed.

(* ================================================================== *)
(** ** The claims on sample runs *)
(* ================================================================== *)

(** The cached mapping lists the same pairs in another order: no rebuild. *)
Lemma rebuild_decision_witness :
  wf_props deps_ac
  /\ wf_cached (Some deps_ca)
  /\ (cache_valid (cached_value (Some deps_ca)) (obj_of deps_ac) = false
      <-> needsRebuild deps_ac (Some deps_ca))
  /\ (needsRebuild deps_ac (Some deps_ca) ->
      @check reference bundler_ok options_default
        {| deps := obj_of deps_ac; cache := cached_value (Some deps_ca) |}
      = @build reference bundler_ok options_default (obj_of deps_ac))
  /\ (~ needsRebuild deps_ac (Some deps_ca) ->
      @check reference bundler_ok options_default
        {| deps := obj_of deps_ac; cache := cached_value (Some deps_ca) |}
      = resolve tt)
  /\ cache_valid (obj_of deps_ac) (obj_of deps_ac) = true
  /\ @check reference bundler_ok options_default
       {| deps := obj_of deps_ac; cache := obj_of deps_ac |}
     = resolve tt.
Proof.
  split; [reflexivity|]. split; [reflexivity|].
  exact (@rebuild_decision reference bundler_ok options_default
           deps_ac (Some deps_ca) eq_refl eq_refl).
Defined.

(** C3 on the specification's own example.  With dependencies
    [{a: ^1, c: ^2}], include [[a, b]] and exclude [[b]] the
    specification promises the entry list [[a, c]]; the list handed to
    the bundler is [[a, c, a]]. *)
Lemma entry_list_not_deduplicated :
  Object_keys (obj_of deps_ac) = Some ["a"; "c"]
  /\ include options_ab = ["a"; "b"]
  /\ exclude options_ab = ["b"]
  /\ spec_entry_list ["a"; "c"] (include options_ab) (exclude options_ab) = ["a"; "c"]
  /\ entry_list options_ab ["a"; "c"] = ["a"; "c"; "a"]
  /\ entry_list options_ab ["a"; "c"]
     <> spec_entry_list ["a"; "c"] (include options_ab) (exclude options_ab)
  /\ occurrences "a" (entry_list options_ab ["a"; "c"]) = 2
  /\ invocations
       (snd (@make reference bundler_ok options_ab (world_first deps_ac)))
     = [{| entry_name := "vendor"; entry := ["a"; "c"; "a"] |}].
Proof.
  repeat split; try reflexivity. vm_compute. discriminate.
Qed.

(** The same example, read by the code: [[a, c, a]] is the merged list. *)
Lemma entry_list_merges_witness :
  (Z.of_nat (List.length (exclude options_ab)) <= max_array_length)%Z
  /\ Object_keys (obj_of deps_ac) = Some ["a"; "c"]
  /\ entry_list options_ab ["a"; "c"]
     = merged_entries ["a"; "c"] (include options_ab) (exclude options_ab)
  /\ invocations
       (snd (@build reference bundler_ok options_ab (obj_of deps_ac)
               (world_first deps_ac)))
     = (invocations (world_first deps_ac)
          ++ [{| entry_name := dllName options_ab;
                 entry := merged_entries ["a"; "c"] (include options_ab)
                            (exclude options_ab) |}])%list
  /\ forall x,
       occurrences x (entry_list options_ab ["a"; "c"])
       = if mem x (exclude options_ab) then 0
         else occurrences x ["a"; "c"] + occurrences x (include options_ab).
Proof.
  assert (L : (Z.of_nat (List.length (exclude options_ab)) <= max_array_length)%Z)
    by (vm_compute; discriminate).
  split; [exact L|]. split; [reflexivity|].
  exact (@entry_list_merges reference bundler_ok options_ab
           (obj_of deps_ac) ["a"; "c"] (world_first deps_ac) L eq_refl).
Defined.

(** C4 on a sample: two runs of the hook on an empty list leave the
    asset file name in it twice, not once. *)
Lemma html_hook_twice :
  dllAssetName options_default = "vendor.js"
  /\ Nat.iter 2 (html_hook options_default) [] = ["vendor.js"; "vendor.js"]
  /\ occurrences (dllAssetName options_default)
       (Nat.iter 2 (html_hook options_default) []) = 2
  /\ occurrences (dllAssetName options_default)
       (Nat.iter 2 (html_hook options_default) []) <> 1.
Proof.
  repeat split; try reflexivity. vm_compute. discriminate.
Qed.

(** C2 on a sample run: dll.json caches [{a: ^1}], the descriptor lists
    [{a: ^1, c: ^2}], the bundler reports a compile error.  [make]
    rejects with the error text, and dll.json now holds the new
    dependencies; the next [make] finds the snapshot valid and does not
    build again. *)
Lemma failed_build_sample :
  @make reference bundler_errors options_default (world_cached deps_a deps_ac)
  = (Rejected (CompileErrors (errors bad_stats)), world_failed)
  /\ dllCache (world_cached deps_a deps_ac) = Some (stringify (obj_of deps_a))
  /\ dllCache world_failed = Some (stringify (obj_of deps_ac))
  /\ dllCache world_failed <> dllCache (world_cached deps_a deps_ac)
  /\ @make reference bundler_errors options_default world_failed
     = (Fulfilled tt, world_failed).
Proof.
  repeat split; try reflexivity. vm_compute. discriminate.
Qed.

(** The build of that run on its own. *)
Lemma failed_build_overwrites_snapshot_witness :
  Object_keys (obj_of deps_ac) = Some ["a"; "c"]
  /\ result (bundler_errors
               {| entry_name := dllName options_default;
                  entry := entry_list options_default ["a"; "c"] |}
               (world_cached deps_a deps_ac))
     = Completed bad_stats
  /\ hasErrors bad_stats = true
  /\ dllDirectory (world_cached deps_a deps_ac) = true
  /\ exists w',
       @build reference bundler_errors options_default (obj_of deps_ac)
         (world_cached deps_a deps_ac)
       = (Rejected (CompileErrors (errors bad_stats)), w')
       /\ In (Err, join_lines (errors bad_stats)) (console w')
       /\ dllCache w' = Some (stringify (obj_of deps_ac)).
Proof.
  repeat (split; [reflexivity|]).
  exact (@failed_build_overwrites_snapshot reference bundler_errors options_default
           (obj_of deps_ac) ["a"; "c"] bad_stats (world_cached deps_a deps_ac)
           eq_refl eq_refl eq_refl eq_refl).
Defined.

(** A snapshot cut short is not JSON: [make] builds afresh. *)
Lemma unusable_snapshot_means_rebuild_witness :
  @snapshot_unusable reference (world_corrupt deps_ac)
  /\ @descriptor_has reference (world_corrupt deps_ac) (obj_of deps_ac)
  /\ @make reference bundler_ok options_default (world_corrupt deps_ac)
     = @build reference bundler_ok options_default (obj_of deps_ac)
         (print Log msg_start (world_corrupt deps_ac))
  /\ invocations
       (snd (@make reference bundler_ok options_default (world_corrupt deps_ac)))
     = [vendor_ac].
Proof.
  assert (U : @snapshot_unusable reference (world_corrupt deps_ac)).
  { right. eexists. split; reflexivity. }
  assert (DH : @descriptor_has reference (world_corrupt deps_ac) (obj_of deps_ac)).
  { eexists _, _. repeat split; reflexivity. }
  destruct (@unusable_snapshot_means_rebuild reference bundler_ok options_default
              (world_corrupt deps_ac) (obj_of deps_ac) U DH) as (_ & M & I & _).
  split; [exact U|]. split; [exact DH|]. split; [exact M|].
  exact (I ["a"; "c"] eq_refl).
Defined.

(** A first build, then [make] again over the same descriptor. *)
Lemma snapshot_round_trip_witness :
  wf_props deps_ac
  /\ @build reference bundler_ok options_default (obj_of deps_ac) (world_first deps_ac)
     = (Fulfilled tt, world_built)
  /\ dllCache world_built = Some (stringify (obj_of deps_ac))
  /\ @make reference bundler_ok options_default world_built
     = (Fulfilled tt, world_built).
Proof.
  assert (B : @build reference bundler_ok options_default (obj_of deps_ac)
                (world_first deps_ac) = (Fulfilled tt, world_built)) by reflexivity.
  destruct (snapshot_round_trip bundler_ok options_default deps_ac
              (world_first deps_ac) world_built eq_refl B) as (C & _ & _ & _ & _ & M).
  split; [reflexivity|]. split; [exact B|]. split; [exact C|].
  apply M; [reflexivity|].
  eexists _, _. repeat split; reflexivity.
Defined.

(** With [log: false], and with [log: 'none'], the first run prints the
    start message and the success message. *)
Lemma disabled_log_sample :
  log_disabled (log options_quiet) = true
  /\ log_disabled (log options_none) = true
  /\ dllCache (world_first deps_ac) = None
  /\ fst (@make reference bundler_ok options_quiet (world_first deps_ac))
     = Fulfilled tt
  /\ console (snd (@make reference bundler_ok options_quiet (world_first deps_ac)))
     = [(Log, msg_start); (Log, msg_success)]
  /\ console (snd (@make reference bundler_ok options_none (world_first deps_ac)))
     = [(Log, msg_start); (Log, msg_success)].
Proof.
  repeat split; reflexivity.
Qed.

(** The first of these runs, [log: false]. *)
Lemma disabled_log_still_prints_witness :
  log_disabled (log options_quiet) = true
  /\ dllCache (world_first deps_ac) = None
  /\ @descriptor_has reference (world_first deps_ac) (obj_of deps_ac)
  /\ Object_keys (obj_of deps_ac) = Some ["a"; "c"]
  /\ result (bundler_ok
               {| entry_name := dllName options_quiet;
                  entry := entry_list options_quiet ["a"; "c"] |}
               (print Log msg_start (world_first deps_ac)))
     = Completed good_stats
  /\ emitted (bundler_ok
                {| entry_name := dllName options_quiet;
                   entry := entry_list options_quiet ["a"; "c"] |}
                (print Log msg_start (world_first deps_ac)))
     = true
  /\ hasErrors good_stats = false
  /\ exists w',
       @make reference bundler_ok options_quiet (world_first deps_ac)
       = (Fulfilled tt, w')
       /\ In (Log, msg_start) (console w')
       /\ In (Log, msg_success) (console w').
Proof.
  assert (DH : @descriptor_has reference (world_first deps_ac) (obj_of deps_ac)).
  { eexists _, _. repeat split; reflexivity. }
  split; [reflexivity|]. split; [reflexivity|]. split; [exact DH|].
  repeat (split; [reflexivity|]).
  exact (@disabled_log_still_prints reference bundler_ok options_quiet
           (obj_of deps_ac) ["a"; "c"] good_stats (world_first deps_ac)
           eq_refl eq_refl DH eq_refl eq_refl eq_refl eq_refl).
Defined.

(** A descriptor with a name and a version only. *)
Lemma missing_dependencies_reject_witness :
  pkgJson world_nodeps = Some pkg_text_nodeps
  /\ parse pkg_text_nodeps
     = Some (VObj [("name", VStr "app"); ("version", VStr "1.0.0")])
  /\ get_own [("name", VStr "app"); ("version", VStr "1.0.0")] "dependencies" = None
  /\ (forall c, cache_valid c VUndefined = false)
  /\ exists e w',
       e = TypeError "Cannot convert undefined or null to object"
       /\ @make reference bundler_ok options_default world_nodeps = (Rejected e, w')
       /\ @develop reference bundler_ok options_default world_nodeps = (Rejected e, w')
       /\ invocations w' = invocations world_nodeps
       /\ dllCache w' = dllCache world_nodeps
       /\ manifest w' = manifest world_nodeps.
Proof.
  repeat (split; [reflexivity|]).
  exact (@missing_dependencies_reject reference bundler_ok options_default
           world_nodeps pkg_text_nodeps
           [("name", VStr "app"); ("version", VStr "1.0.0")]
           eq_refl eq_refl eq_refl).
Defined.

(* ================================================================== *)
(** ** Further properties of the engine *)
(* ================================================================== *)

Import Rewriter Observed Scenario.

Ltac run_simpl :=
  cbn -[Qminus seconds inject_Z num_sub num_div timespec Z.add Z.max msg_start msg_success msg_changed
        join_lines String.eqb log_strict_eq].

Section EngineFacts.

Context {codec : Codec}.
Variable webpack : BuildInvocation -> World -> BundlerRun.
Variable options : Options.

(** What [build] does once the bundler has completed, in full. *)
Lemma build_completed d ks stats w :
  Object_keys d = Some ks ->
  result (webpack {| entry_name := dllName options; entry := entry_list options ks |} w)
  = Completed stats ->
  exists w',
    build webpack options d w
    = (settled_as
         (if hasErrors stats then Some (Rejected (CompileErrors (errors stats))) else None)
         (if manifest_there
               (webpack {| entry_name := dllName options;
                           entry := entry_list options ks |} w) w
          then if directory_there
                    (webpack {| entry_name := dllName options;
                                entry := entry_list options ks |} w) w
               then Fulfilled tt
               else Rejected (FsError "ENOENT" "dll.json")
          else if directory_there
                    (webpack {| entry_name := dllName options;
                                entry := entry_list options ks |} w) w
               then Rejected (FsError "ENOENT" "vendor-manifest.json")
               else Rejected (if race w' (clock w')
                              then FsError "ENOENT" "vendor-manifest.json"
                              else FsError "ENOENT" "dll.json")),
       w')
    /\ console w'
       = (console w ++ stats_lines (log options) stats
            ++ (if manifest_there
                     (webpack {| entry_name := dllName options;
                                 entry := entry_list options ks |} w) w
                   && directory_there
                        (webpack {| entry_name := dllName options;
                                    entry := entry_list options ks |} w) w
                then [(Log, msg_success)] else []))%list
    /\ dllCache w'
       = (if directory_there
               (webpack {| entry_name := dllName options;
                           entry := entry_list options ks |} w) w
          then Some (JSON_stringify d) else dllCache w)
    /\ manifest w'
       = (if manifest_there
               (webpack {| entry_name := dllName options;
                           entry := entry_list options ks |} w) w
          then Some (timespec (backdated (clock w'))) else None)
    /\ pkgJson w' = pkgJson w
    /\ clock w'
       = (clock w
          + Z.max 0 (duration (webpack {| entry_name := dllName options;
                                          entry := entry_list options ks |} w)))%Z
    /\ Plugin.dllDirectory w'
       = directory_there
           (webpack {| entry_name := dllName options;
                       entry := entry_list options ks |} w) w
    /\ invocations w'
       = (invocations w
            ++ [{| entry_name := dllName options; entry := entry_list options ks |}])%list
    /\ race w' = race w.
Proof.
  intros K R. unfold build. rewrite K. unfold call_webpack. rewrite R.
  unfold build_callback, all2, utimes_manifest, writeFile_dllCache,
    manifest_there, directory_there, stats_lines.
  rewrite log_guard_always.
  destruct (emitted (webpack {| entry_name := dllName options;
                                entry := entry_list options ks |} w)) eqn:E,
    (manifest w) eqn:Mw, (Plugin.dllDirectory w) eqn:Dir,
    (hasWarnings stats), (hasErrors stats),
    (log_strict_eq (log options) (LogLevel "verbose"));
    run_simpl;
    repeat (progress (rewrite ?E, ?Mw, ?Dir, ?orb_true_r; run_simpl));
    eexists;
    (split; [apply injective_projections; [|reflexivity]; reflexivity|]);
    run_simpl; unfold backdated;
    rewrite <- ?app_assoc; run_simpl;
    repeat split; rewrite ?app_nil_r, ?E, ?Mw, ?Dir; try reflexivity; try assumption.
Qed.

(** What [build] does when the bundler fails before compiling. *)
Lemma build_failed d ks err w :
  Object_keys d = Some ks ->
  result (webpack {| entry_name := dllName options; entry := entry_list options ks |} w)
  = Failed err ->
  build webpack options d w
  = (Rejected (BundlerFailure err),
     fold_left (fun w line => print (fst line) (snd line) w) (error_lines err)
       (bundled {| entry_name := dllName options; entry := entry_list options ks |}
          (webpack {| entry_name := dllName options;
                      entry := entry_list options ks |} w) w)).
Proof.
  intros K R. unfold build. rewrite K. unfold call_webpack. rewrite R.
  unfold build_callback, error_lines.
  destruct (err_stack err) as [s|], (err_details err) as [t|];
    try destruct (t =? EmptyString)%string; reflexivity.
Qed.

Lemma build_pkgJson d w : pkgJson (snd (build webpack options d w)) = pkgJson w.
Proof.
  destruct (Object_keys d) as [ks|] eqn:K.
  - destruct (result (webpack {| entry_name := dllName options;
                                 entry := entry_list options ks |} w))
      as [err | stats] eqn:R.
    + rewrite (build_failed d ks err w K R). unfold error_lines.
      destruct (err_details err) as [t|];
        try destruct (t =? EmptyString)%string; reflexivity.
    + destruct (build_completed d ks stats w K R) as (w' & B & _ & _ & _ & P & _).
      now rewrite B.
  - unfold build. rewrite K. reflexivity.
Qed.

(** The two ways [make] goes once the descriptor has been read. *)
Lemma make_cases w d :
  descriptor_has w d ->
  (snapshot_valid w d /\ make webpack options w = (Fulfilled tt, w))
  \/ (~ snapshot_valid w d
      /\ exists w1,
           make webpack options w = build webpack options d w1
           /\ same_files w w1).
Proof.
  intros DH. rewrite (make_steps webpack options w d DH). unfold andThen.
  assert (Same : forall w0 : World, same_files w0 w0) by (repeat split).
  destruct (dllCache w) as [text|] eqn:C; [destruct (JSON_parse text) as [c|] eqn:J|].
  - rewrite (read_cache_ok options _ w text c C J). unfold check. cbn [deps cache].
    destruct (cache_valid c d) eqn:V.
    + left. split; [now exists text, c | reflexivity].
    + right. split; [|exists w; auto].
      intros (text' & c' & C' & J' & V'). congruence.
  - rewrite read_cache_unusable by (right; eauto). unfold check. cbn [deps cache].
    right. split.
    + intros (text' & c' & C' & J' & V'). congruence.
    + exists (print Log msg_start w). split; [reflexivity | repeat split].
  - rewrite read_cache_unusable by (left; assumption). unfold check. cbn [deps cache].
    right. split.
    + intros (text' & c' & C' & J' & V'). congruence.
    + exists (print Log msg_start w). split; [reflexivity | repeat split].
Qed.

(** X1.  When the bundler fails before compiling, [build] rejects with
    the bundler's error, prints [err.stack || err] and the details, and
    touches neither dll.json nor, unless the bundler emitted it, the
    manifest. *)
Theorem fatal_error_writes_nothing :
  forall (d : value) (ks : list string) (err : BundlerError) (w : World),
    Object_keys d = Some ks ->
    result (webpack {| entry_name := dllName options; entry := entry_list options ks |} w)
    = Failed err ->
    exists w',
      build webpack options d w = (Rejected (BundlerFailure err), w')
      /\ console w' = (console w ++ error_lines err)%list
      /\ dllCache w' = dllCache w
      /\ (emitted (webpack {| entry_name := dllName options;
                              entry := entry_list options ks |} w) = false ->
          manifest w' = manifest w).
Proof.
  intros d ks err w K R. rewrite (build_failed d ks err w K R).
  eexists. split; [reflexivity|]. unfold error_lines.
  destruct (err_details err) as [t|]; try destruct (t =? EmptyString)%string;
    cbn [fold_left fst snd]; run_simpl;
    repeat split; rewrite <- ?app_assoc; try reflexivity;
    intros E; now rewrite E.
Qed.

Lemma make_unreadable w :
  descriptor_unreadable w ->
  make webpack options w = (Rejected (JsError "Can't find package.json"), w).
Proof.
  intros U. unfold make. unfold andThen at 1 2 3. unfold resolve at 1.
  unfold read_deps, catch, andThen, readFile_pkgJson.
  destruct U as [P | (text & P & [J | (v & J & D)])]; rewrite P; try rewrite J;
    try rewrite D; reflexivity.
Qed.

(** X3.  Once the descriptor is read and [deps] has keys, [make] calls
    the bundler once or not at all: not at all, leaving the world as it
    was, when dll.json parses to a truthy value deeply equal to [deps];
    once in every other case. *)
Theorem make_builds_unless_valid :
  forall (w : World) (d : value) (ks : list string),
    descriptor_has w d ->
    Object_keys d = Some ks ->
    (snapshot_valid w d -> make webpack options w = (Fulfilled tt, w))
    /\ (~ snapshot_valid w d ->
        invocations (snd (make webpack options w))
        = (invocations w
             ++ [{| entry_name := dllName options;
                    entry := entry_list options ks |}])%list).
Proof.
  intros w d ks DH K.
  destruct (make_cases w d DH) as [(V & M) | (NV & w1 & M & S)]; split.
  - intros _. exact M.
  - intros N. contradiction.
  - intros V. contradiction.
  - intros _. rewrite M, (build_invocations webpack options d ks w1 K).
    destruct S as (_ & _ & _ & _ & _ & <- & _). reflexivity.
Qed.

(** X4.  After a completed compilation that emitted its files the
    console has gained, in this order: the warnings, the errors, the
    statistics when [log] is ['verbose'], and the success message.
    Warnings do not fail the build; the success message is printed even
    when the build is rejected for compile errors. *)
Theorem build_transcript :
  forall (d : value) (ks : list string) (stats : Stats) (w : World),
    Object_keys d = Some ks ->
    result (webpack {| entry_name := dllName options; entry := entry_list options ks |} w)
    = Completed stats ->
    emitted (webpack {| entry_name := dllName options; entry := entry_list options ks |} w)
    = true ->
    exists w',
      build webpack options d w
      = (if hasErrors stats then Rejected (CompileErrors (errors stats))
         else Fulfilled tt, w')
      /\ console w'
         = (console w ++ stats_lines (log options) stats ++ [(Log, msg_success)])%list.
Proof.
  intros d ks stats w K R E.
  destruct (build_completed d ks stats w K R) as (w' & B & C & _).
  unfold manifest_there, directory_there in B, C. rewrite E in B, C.
  rewrite orb_true_r in B, C. cbn [orb andb] in B, C.
  exists w'. split; [|exact C]. rewrite B. now destruct (hasErrors stats).
Qed.

(** X6.  A watch cycle that ends with [callback(null)] records its
    timestamp: the same timestamp seen again starts nothing, the world
    and the recorded state stay as they are. *)
Theorem repeated_timestamp_is_idle :
  forall (timestamp : option Z) (st st' : HookState) (w w' : World),
    watch_run webpack options timestamp st w = ((None, st'), w') ->
    watch_run webpack options timestamp st' w' = ((None, st'), w').
Proof.
  intros ts st st' w w' H.
  assert (S : st' = {| pkgTimestamp := ts |}).
  { revert H. unfold watch_run.
    destruct (timestamp_falsy ts || timestamp_eq ts (pkgTimestamp st))%bool.
    - now intros [= <- _].
    - destruct (make webpack options _) as [[u | e] w0]; [now intros [= <- _] | discriminate]. }
  subst st'. unfold watch_run. cbn [pkgTimestamp].
  assert (E : (timestamp_falsy ts || timestamp_eq ts ts)%bool = true).
  { destruct ts as [z|]; [|reflexivity]. cbn. rewrite Z.eqb_refl. apply orb_true_r. }
  now rewrite E.
Qed.

(** X7.  The recorded timestamp starts at [0], so the first watch cycle
    that reports a timestamp other than [0] counts as a change: the
    hook prints that package.json changed and runs [make], which with a
    valid snapshot leaves the files alone and calls no bundler.  A
    cycle without a timestamp starts nothing and records [undefined]. *)
Theorem first_cycle_checks :
  forall (z : Z) (w : World) (d : value),
    z <> 0%Z ->
    descriptor_has w d ->
    snapshot_valid w d ->
    watch_run webpack options (Some z) initial_state w
    = ((None, {| pkgTimestamp := Some z |}), print Log msg_changed w)
    /\ watch_run webpack options None initial_state w
       = ((None, {| pkgTimestamp := None |}), w).
Proof.
  intros z w d Hz DH V. split; [|reflexivity].
  unfold watch_run. cbn [timestamp_falsy timestamp_eq initial_state pkgTimestamp].
  apply Z.eqb_neq in Hz. rewrite Hz. cbn [orb]. rewrite log_guard_always.
  assert (DH' : descriptor_has (print Log msg_changed w) d) by exact DH.
  assert (V' : snapshot_valid (print Log msg_changed w) d) by exact V.
  destruct (make_cases (print Log msg_changed w) d DH') as [(_ & M) | (NV & _)].
  - now rewrite M.
  - contradiction.
Qed.

End EngineFacts.

(** X5.  When the bundler completes without emitting a manifest and
    none exists, while the dll directory does, [build] rejects on the
    manifest, and has written dll.json all the same: the next [make]
    over the same dependencies resolves without building, with no
    manifest on disk. *)
Theorem missing_manifest_still_caches :
  forall (webpack : BuildInvocation -> World -> BundlerRun) (options : Options)
         (D : DepMap) (ks : list string) (stats : Stats) (w : World),
    wf_props D ->
    Object_keys (obj_of D) = Some ks ->
    result (webpack {| entry_name := dllName options; entry := entry_list options ks |} w)
    = Completed stats ->
    hasErrors stats = false ->
    emitted (webpack {| entry_name := dllName options; entry := entry_list options ks |} w)
    = false ->
    manifest w = None ->
    Plugin.dllDirectory w = true ->
    exists w',
      @build reference webpack options (obj_of D) w
      = (Rejected (FsError "ENOENT" "vendor-manifest.json"), w')
      /\ manifest w' = None
      /\ dllCache w' = Some (stringify (obj_of D))
      /\ console w' = (console w ++ stats_lines (log options) stats)%list
      /\ forall w2,
           dllCache w2 = dllCache w' ->
           @descriptor_has reference w2 (obj_of D) ->
           @make reference webpack options w2 = (Fulfilled tt, w2).
Proof.
  intros webpack options D ks stats w W K R H E M Dir.
  destruct (@build_completed reference webpack options (obj_of D) ks stats w K R)
    as (w' & B & C & S & Mf & _).
  unfold manifest_there, directory_there in B, C, S, Mf.
  rewrite H, E, M, Dir in *. cbn [orb andb settled_as] in *.
  exists w'. repeat split; try assumption.
  - now rewrite C, app_nil_r.
  - intros w2 C2 DH. rewrite S in C2.
    destruct (@make_cases reference webpack options w2 (obj_of D) DH)
      as [(_ & Mk) | (NV & _)]; [exact Mk|].
    exfalso. apply NV. exists (stringify (obj_of D)), (obj_of (canon D)).
    split; [exact C2|]. split; [apply reference_parse_stringify|].
    rewrite cache_valid_obj. destruct (canon_same_pairs D W) as (WC & SP).
    now apply isEqual_same_pairs.
Qed.

(** X8.  Two calls of [make] in a row: when the first is fulfilled, the
    second, over the world the first left, is fulfilled too and leaves
    that world as it is, without calling the bundler. *)
Theorem second_make_is_idle :
  forall (webpack : BuildInvocation -> World -> BundlerRun) (options : Options)
         (D : DepMap) (w w' : World),
    wf_props D ->
    @descriptor_has reference w (obj_of D) ->
    @make reference webpack options w = (Fulfilled tt, w') ->
    @make reference webpack options w' = (Fulfilled tt, w').
Proof.
  intros webpack options D w w' W DH M.
  destruct (@make_cases reference webpack options w (obj_of D) DH)
    as [(_ & Mk) | (_ & w1 & Mk & S)].
  - rewrite Mk in M. injection M as <-. exact Mk.
  - rewrite Mk in M.
    assert (P : pkgJson w' = pkgJson w).
    { pose proof (@build_pkgJson reference webpack options (obj_of D) w1) as P.
      rewrite M in P. cbn [snd] in P. destruct S as (Pw & _). congruence. }
    assert (DH' : @descriptor_has reference w' (obj_of D)).
    { destruct DH as (text & v & Pt & J & Dp). exists text, v.
      repeat split; try assumption. congruence. }
    destruct (@snapshot_round_trip_codec reference webpack options D w1 w'
                (reference_roundtrips D W) M) as (_ & _ & Next).
    now apply Next.
Qed.

(* ================================================================== *)
(** ** Properties of the build rewriter *)
(* ================================================================== *)

Section RewriterFacts.

Context {codec : Codec} {path : PathApi}.
Variable webpack : BuildInvocation -> World -> BundlerRun.

Lemma served_add_contentBase (options : Options) (cb : value) :
  served (add_contentBase options cb) = (served cb ++ [VStr (dllDirectory options)])%list.
Proof. destruct cb; reflexivity. Qed.

(** X2.  When package.json is missing, is not JSON, or holds [null],
    [make] rejects with the one error [Can't find package.json] and
    leaves the world as it was: dll.json is not read, nothing is
    printed, the bundler is not called.  In development mode the
    plugin's promise rejects with that error and the [webpackOptions]
    object is left as it was given. *)
Theorem unreadable_descriptor_rejects :
  forall (X : Type) (env : option string) (wo : WebpackOptions X) (w : World),
    descriptor_unreadable w ->
    development env = true ->
    make webpack (options_of wo) w
    = (Rejected (JsError "Can't find package.json"), w)
    /\ exists run,
         plugin webpack env wo = Some run
         /\ run w = (Rejected (JsError "Can't find package.json"), (wo, w)).
Proof.
  intros X env wo w U Dev.
  pose proof (make_unreadable webpack (options_of wo) w U) as M.
  split; [exact M|]. unfold plugin. rewrite Dev.
  eexists. split; [reflexivity|]. cbv beta zeta. now rewrite M.
Qed.

(** X9.  With a [plugins] array to push on, [injectOptionsForDevelopment]
    is fulfilled with the [webpackOptions] object itself, in which:
    [library] is gone; the dev server looks where it looked before and
    then in the dll directory; a string or array entry has package.json
    in front of its files; the plugin's hooks come after the plugins
    already there; every other key is as it was. *)
Theorem inject_rewrites :
  forall (X : Type) (options : Options) (wo : WebpackOptions X)
         (plugins : list (PluginObject X)),
    wo_plugins wo = Some plugins ->
    exists wo',
      injectOptionsForDevelopment options wo = (Fulfilled wo', wo')
      /\ wo_library wo' = None
      /\ served_by wo' = (served_by wo ++ [VStr (dllDirectory options)])%list
      /\ (forall d, wo_devServer wo = Some d ->
                    exists d', wo_devServer wo' = Some d'
                               /\ devServer_others d' = devServer_others d)
      /\ (forall files,
             entry_files (wo_entry wo) = Some files ->
             wo_entry wo' = EntryValue (VArr (VStr (pkgJsonPath options) :: files)))
      /\ wo_plugins wo' = Some (plugins ++ [library_hooks options])%list
      /\ wo_others wo' = wo_others wo.
Proof.
  intros X options wo plugins P. unfold injectOptionsForDevelopment. rewrite P.
  eexists. split; [reflexivity|]. cbn [wo_library wo_devServer wo_entry wo_plugins wo_others].
  repeat split.
  - unfold served_by. cbn [wo_devServer contentBase].
    rewrite served_add_contentBase. now destruct (wo_devServer wo).
  - intros d D. rewrite D. eexists. split; reflexivity.
  - intros files F. destruct (wo_entry wo) as [[]|]; try discriminate;
      injection F as <-; reflexivity.
Qed.

(** X10.  An object entry: its first key, in enumeration order, gets the
    two-element array of package.json and the value it had, which is
    not flattened when it is an array itself; the other keys keep their
    values and every key its place.  An empty object is left alone. *)
Theorem object_entry_wraps_first_key :
  forall (options : Options) (props : list (string * value)),
    add_entry options (EntryValue (VObj props))
    = EntryValue
        (VObj match props with
              | [] => []
              | (k0, v0) :: rest =>
                  (k0, VArr [VStr (pkgJsonPath options); v0]) :: rest
              end)
    /\ (forall props',
           add_entry options (EntryValue (VObj props)) = EntryValue (VObj props') ->
           keys props' = keys props
           /\ forall k0 v0 rest k,
                props = (k0, v0) :: rest ->
                k <> k0 ->
                get_own props' k = get_own props k).
Proof.
  intros options props.
  assert (E : add_entry options (EntryValue (VObj props))
              = EntryValue
                  (VObj match props with
                        | [] => []
                        | (k0, v0) :: rest =>
                            (k0, VArr [VStr (pkgJsonPath options); v0]) :: rest
                        end)).
  { destruct props as [|[k0 v0] rest]; [reflexivity|].
    unfold add_entry. cbn [keys map fst get_own]. rewrite String.eqb_refl.
    unfold set_prop. cbn [get_own overwrite]. now rewrite String.eqb_refl. }
  split; [exact E|].
  intros props' E'. rewrite E in E'. injection E' as <-.
  destruct props as [|[k0 v0] rest]; split; try reflexivity;
    try (intros ? ? ? ? Eq; discriminate Eq).
  intros k1 v1 rest1 k Eq N. injection Eq as <- <- <-. cbn [get_own].
  apply String.eqb_neq in N. now rewrite String.eqb_sym, N.
Qed.

(** X11.  Without a [plugins] array the rewriter fails late: the bundle
    has been built, [library] deleted and the dll directory added to
    the dev server when [plugins.push] throws, and the plugin's promise
    rejects with that TypeError. *)
Theorem missing_plugins_rejects_late :
  forall (X : Type) (env : option string) (wo : WebpackOptions X) (w w' : World),
    development env = true ->
    wo_plugins wo = None ->
    make webpack (options_of wo) w = (Fulfilled tt, w') ->
    exists run wo1,
      plugin webpack env wo = Some run
      /\ run w = (Rejected (TypeError "Cannot read property 'push' of undefined"),
                  (wo1, w'))
      /\ wo_library wo1 = None
      /\ served_by wo1
         = (served_by wo ++ [VStr (dllDirectory (options_of wo))])%list
      /\ wo_plugins wo1 = None.
Proof.
  intros X env wo w w' Dev P M. unfold plugin. rewrite Dev.
  eexists. eexists. split; [reflexivity|]. cbv beta zeta. rewrite M.
  unfold injectOptionsForDevelopment. rewrite P.
  split; [reflexivity|]. cbn [wo_library wo_plugins]. repeat split.
  unfold served_by. cbn [wo_devServer contentBase].
  rewrite served_add_contentBase. now destruct (wo_devServer wo).
Qed.

(** X12.  The plugin deletes [library] from the object it is given: once
    [make] has been fulfilled, a second call on the same object finds
    no options and works under the defaults, whatever the first call
    was given. *)
Theorem second_call_forgets_library :
  forall (X : Type) (env : option string) (wo wo1 : WebpackOptions X)
         (run : World -> Outcome (WebpackOptions X) * (WebpackOptions X * World))
         (r : Outcome (WebpackOptions X)) (w w' w1 : World),
    plugin webpack env wo = Some run ->
    make webpack (options_of wo) w = (Fulfilled tt, w') ->
    run w = (r, (wo1, w1)) ->
    w1 = w'
    /\ wo_library wo1 = None
    /\ options_of wo1 = DefaultOptions (path_resolve1 ".").
Proof.
  intros X env wo wo1 run r w w' w1 Pl M R.
  unfold plugin in Pl. destruct (development env); [|discriminate].
  injection Pl as <-. cbv beta zeta in R. rewrite M in R.
  unfold injectOptionsForDevelopment in R.
  assert (L : w1 = w' /\ wo_library wo1 = None).
  { destruct (wo_plugins wo); injection R as _ <- <-; split; reflexivity. }
  destruct L as (-> & L). repeat split; [exact L|].
  unfold options_of. now rewrite L.
Qed.

End RewriterFacts.

(* ================================================================== *)
(** ** Properties of the engine of lib/index.js *)
(* ================================================================== *)

Section LibFacts.

Context {codec : Codec}.
Variable webpack : BuildInvocation -> World -> BundlerRun.
Variable options : Options.

(** What lib/index.js's [build] does once the bundler has completed. *)
Lemma lib_build_completed d ks stats w :
  Object_keys d = Some ks ->
  result (webpack {| entry_name := dllName options; entry := ks |} w)
  = Completed stats ->
  exists w',
    Lib.build webpack options d w
    = (if manifest_there (webpack {| entry_name := dllName options; entry := ks |} w) w
       then if directory_there
                 (webpack {| entry_name := dllName options; entry := ks |} w) w
            then Fulfilled tt
            else Rejected (FsError "ENOENT" "dll.json")
       else if directory_there
                 (webpack {| entry_name := dllName options; entry := ks |} w) w
            then Rejected (FsError "ENOENT" "vendor-manifest.json")
            else Rejected (if race w' (clock w')
                           then FsError "ENOENT" "vendor-manifest.json"
                           else FsError "ENOENT" "dll.json"),
       w')
    /\ console w' = (console w ++ lib_stats_lines stats)%list
    /\ dllCache w'
       = (if directory_there
               (webpack {| entry_name := dllName options; entry := ks |} w) w
          then Some (JSON_stringify d) else dllCache w)
    /\ manifest w'
       = (if manifest_there
               (webpack {| entry_name := dllName options; entry := ks |} w) w
          then Some (timespec (backdated (clock w'))) else None)
    /\ pkgJson w' = pkgJson w
    /\ clock w'
       = (clock w
          + Z.max 0 (duration (webpack {| entry_name := dllName options;
                                          entry := ks |} w)))%Z
    /\ Plugin.dllDirectory w'
       = directory_there (webpack {| entry_name := dllName options; entry := ks |} w) w
    /\ invocations w'
       = (invocations w ++ [{| entry_name := dllName options; entry := ks |}])%list
    /\ race w' = race w.
Proof.
  intros K R. unfold Lib.build. rewrite K. unfold call_webpack. rewrite R.
  unfold Lib.build_callback, all2, utimes_manifest, writeFile_dllCache,
    manifest_there, directory_there, lib_stats_lines.
  destruct (emitted (webpack {| entry_name := dllName options; entry := ks |} w)) eqn:E,
    (manifest w) eqn:Mw, (Plugin.dllDirectory w) eqn:Dir,
    (hasWarnings stats), (hasErrors stats);
    run_simpl;
    repeat (progress (rewrite ?E, ?Mw, ?Dir, ?orb_true_r; run_simpl));
    eexists;
    (split; [apply injective_projections; [|reflexivity]; reflexivity|]);
    run_simpl; unfold backdated;
    rewrite <- ?app_assoc; run_simpl;
    repeat split; rewrite ?app_nil_r, ?E, ?Mw, ?Dir; try reflexivity; try assumption.
Qed.

Lemma lib_build_failed d ks err w :
  Object_keys d = Some ks ->
  result (webpack {| entry_name := dllName options; entry := ks |} w) = Failed err ->
  Lib.build webpack options d w
  = (Rejected (BundlerFailure err),
     fold_left (fun w line => print (fst line) (snd line) w) (error_lines err)
       (bundled {| entry_name := dllName options; entry := ks |}
          (webpack {| entry_name := dllName options; entry := ks |} w) w)).
Proof.
  intros K R. unfold Lib.build. rewrite K. unfold call_webpack. rewrite R.
  unfold Lib.build_callback, error_lines.
  destruct (err_stack err) as [s|], (err_details err) as [t|];
    try destruct (t =? EmptyString)%string; reflexivity.
Qed.

(** X13.  In lib/index.js compile errors do not fail the build: once the
    bundler has completed and emitted its files, [build] is fulfilled,
    errors or not; dll.json holds the dependencies, the manifest is
    back-dated, and the console has gained the errors and then the
    warnings, nothing else. *)
Theorem lib_build_ignores_compile_errors :
  forall (d : value) (ks : list string) (stats : Stats) (w : World),
    Object_keys d = Some ks ->
    result (webpack {| entry_name := dllName options; entry := ks |} w)
    = Completed stats ->
    emitted (webpack {| entry_name := dllName options; entry := ks |} w) = true ->
    exists w',
      Lib.build webpack options d w = (Fulfilled tt, w')
      /\ dllCache w' = Some (JSON_stringify d)
      /\ manifest w' = Some (timespec (backdated (clock w')))
      /\ console w' = (console w ++ lib_stats_lines stats)%list
      /\ invocations w'
         = (invocations w ++ [{| entry_name := dllName options; entry := ks |}])%list.
Proof.
  intros d ks stats w K R E.
  destruct (lib_build_completed d ks stats w K R)
    as (w' & B & C & S & M & _ & _ & _ & I & _).
  unfold manifest_there, directory_there in B, S, M. rewrite E in B, S, M.
  rewrite orb_true_r in B, S. cbn [orb] in B, S, M.
  exists w'. auto.
Qed.

Lemma entry_list_plain ks :
  include options = [] -> exclude options = [] -> entry_list options ks = ks.
Proof.
  intros I E. unfold entry_list. rewrite I, E, app_nil_r.
  induction ks as [|k ks IH]; [reflexivity|].
  cbn [filter]. change (not_num (bit_not (indexOf [] k))) with true. cbn iota.
  now rewrite IH.
Qed.

Lemma same_files_refl w : same_files w w.
Proof. repeat split. Qed.

Lemma same_files_print ch text w1 w2 :
  same_files w1 w2 -> same_files (print ch text w1) w2.
Proof. intros S. exact S. Qed.

Lemma same_files_prints lines1 lines2 w1 w2 :
  same_files w1 w2 ->
  same_files (fold_left (fun w line => print (fst line) (snd line) w) lines1 w1)
             (fold_left (fun w line => print (fst line) (snd line) w) lines2 w2).
Proof.
  revert w1 w2 lines2. induction lines1 as [|l1 lines1 IH]; intros w1 w2 lines2 S.
  - cbn [fold_left]. revert w2 S.
    induction lines2 as [|l2 lines2 IH2]; intros w2 S; [exact S|].
    cbn [fold_left]. apply IH2. exact S.
  - cbn [fold_left]. apply IH. exact S.
Qed.

Lemma same_files_bundled inv run w1 w2 :
  same_files w1 w2 -> same_files (bundled inv run w1) (bundled inv run w2).
Proof.
  intros (P & C & D & M & T & I & Rc). unfold same_files, bundled.
  cbn [pkgJson dllCache Plugin.dllDirectory manifest clock invocations race].
  rewrite P, C, D, M, T, I, Rc. repeat split.
Qed.

(** [build] of the two versions on worlds with the same files. *)
Lemma build_agrees d w1 w2 :
  include options = [] -> exclude options = [] ->
  console_blind webpack -> never_errors webpack ->
  same_files w1 w2 ->
  fst (build webpack options d w1) = fst (Lib.build webpack options d w2)
  /\ same_files (snd (build webpack options d w1))
                (snd (Lib.build webpack options d w2)).
Proof.
  intros I E Blind NoErr S.
  destruct (Object_keys d) as [ks|] eqn:K.
  - pose proof (entry_list_plain ks I E) as EL.
    pose proof (Blind {| entry_name := dllName options; entry := ks |} w1 w2 S) as Run.
    destruct (result (webpack {| entry_name := dllName options; entry := ks |} w2))
      as [err | stats] eqn:R2.
    + assert (R1 : result (webpack {| entry_name := dllName options;
                                      entry := entry_list options ks |} w1)
                   = Failed err) by (rewrite EL, Run; exact R2).
      rewrite (build_failed webpack options d ks err w1 K R1).
      rewrite (lib_build_failed d ks err w2 K R2). cbn [fst snd].
      split; [reflexivity|]. rewrite EL, Run.
      apply same_files_prints. now apply same_files_bundled.
    + assert (R1 : result (webpack {| entry_name := dllName options;
                                      entry := entry_list options ks |} w1)
                   = Completed stats) by (rewrite EL, Run; exact R2).
      pose proof (NoErr _ _ _ R2) as H.
      destruct (build_completed webpack options d ks stats w1 K R1)
        as (w1' & B1 & _ & C1 & M1 & P1 & T1 & D1 & I1 & Rc1).
      destruct (lib_build_completed d ks stats w2 K R2)
        as (w2' & B2 & _ & C2 & M2 & P2 & T2 & D2 & I2 & Rc2).
      rewrite B1, B2. cbn [fst snd].
      rewrite EL, Run in *. rewrite H. cbn [settled_as].
      destruct S as (P & C & D & M & T & Iv & Rc).
      assert (MT : manifest_there
                     (webpack {| entry_name := dllName options; entry := ks |} w2) w1
                   = manifest_there
                       (webpack {| entry_name := dllName options; entry := ks |} w2) w2)
        by (unfold manifest_there; now rewrite M).
      assert (DT : directory_there
                     (webpack {| entry_name := dllName options; entry := ks |} w2) w1
                   = directory_there
                       (webpack {| entry_name := dllName options; entry := ks |} w2) w2)
        by (unfold directory_there; now rewrite D).
      rewrite MT, DT in *.
      assert (RC : race w1' (clock w1') = race w2' (clock w2'))
        by (rewrite Rc1, Rc2, T1, T2, Rc, T; reflexivity).
      rewrite RC. split; [reflexivity|].
      unfold same_files. rewrite P1, P2, C1, C2, M1, M2, T1, T2, D1, D2, I1, I2.
      rewrite Rc1, Rc2, P, C, T, Iv, Rc. repeat split.
  - unfold build, Lib.build. rewrite K. cbn [fst snd reject]. split; [reflexivity | exact S].
Qed.

Lemma lib_make_steps w d :
  descriptor_has w d ->
  Lib.make webpack options w
  = (opts <- Lib.read_cache {| deps := d; cache := VUndefined |} ;;
     if cache_valid (cache opts) (deps opts) then resolve tt
     else Lib.build webpack options (deps opts)) w.
Proof.
  intros (text & descriptor & P & J & D).
  unfold Lib.make. unfold andThen at 1 2 3. unfold resolve at 1.
  rewrite (read_deps_ok _ _ _ _ _ P J D). reflexivity.
Qed.

Lemma lib_make_unreadable w :
  descriptor_unreadable w ->
  Lib.make webpack options w = (Rejected (JsError "Can't find package.json"), w).
Proof.
  intros U. unfold Lib.make. unfold andThen at 1 2 3. unfold resolve at 1.
  unfold read_deps, catch, andThen, readFile_pkgJson.
  destruct U as [P | (text & P & [J | (v & J & D)])]; rewrite P; try rewrite J;
    try rewrite D; reflexivity.
Qed.

Lemma lib_make_cases w d :
  descriptor_has w d ->
  (snapshot_valid w d /\ Lib.make webpack options w = (Fulfilled tt, w))
  \/ (~ snapshot_valid w d
      /\ Lib.make webpack options w = Lib.build webpack options d w).
Proof.
  intros DH. rewrite (lib_make_steps w d DH).
  unfold andThen, Lib.read_cache, catch, andThen, readFile_dllCache.
  destruct (dllCache w) as [text|] eqn:C; [destruct (JSON_parse text) as [c|] eqn:J|];
    unfold resolve, reject; cbn [deps cache].
  - destruct (cache_valid c d) eqn:V.
    + left. split; [now exists text, c | reflexivity].
    + right. split; [|reflexivity].
      intros (text' & c' & C' & J' & V'). congruence.
  - right. split; [|reflexivity].
    intros (text' & c' & C' & J' & V'). congruence.
  - right. split; [|reflexivity].
    intros (text' & c' & C' & J' & V'). congruence.
Qed.

Lemma descriptor_cases w :
  descriptor_unreadable w \/ exists d, descriptor_has w d.
Proof.
  unfold descriptor_unreadable, descriptor_has.
  destruct (pkgJson w) as [text|]; [|left; left; reflexivity].
  destruct (JSON_parse text) as [v|] eqn:J.
  - destruct (prop_dependencies v) as [d|] eqn:D.
    + right. now exists d, text, v.
    + left. right. exists text. split; [reflexivity|]. right. now exists v.
  - left. right. exists text. split; [reflexivity|]. now left.
Qed.

(** X14.  The engine of lib/index.js and the engine with [include],
    [exclude] and [log] differ only in what they print: with no names
    to include or exclude, a bundler that does not look at the console
    and never reports compile errors, [make] of the two, started on the
    same files, under the same clock and with file operations that
    race the same way, ends the same way and leaves the same files, the
    same clock and the same bundler calls.  Where both file operations
    of the callback fail, the two agree on the reason because the race
    is taken to go the same way in both runs. *)
Theorem lib_make_agrees :
  forall (w1 w2 : World),
    include options = [] ->
    exclude options = [] ->
    console_blind webpack ->
    never_errors webpack ->
    same_files w1 w2 ->
    fst (make webpack options w1) = fst (Lib.make webpack options w2)
    /\ same_files (snd (make webpack options w1)) (snd (Lib.make webpack options w2)).
Proof.
  intros w1 w2 I E Blind NoErr S.
  pose proof S as (P & C & _).
  destruct (descriptor_cases w2) as [U2 | (d & DH2)].
  - assert (U1 : descriptor_unreadable w1).
    { unfold descriptor_unreadable in *. now rewrite P. }
    rewrite (make_unreadable webpack options w1 U1), (lib_make_unreadable w2 U2).
    split; [reflexivity | exact S].
  - assert (DH1 : descriptor_has w1 d).
    { unfold descriptor_has in *. now rewrite P. }
    assert (V : snapshot_valid w1 d <-> snapshot_valid w2 d).
    { unfold snapshot_valid. now rewrite C. }
    destruct (make_cases webpack options w1 d DH1) as [(V1 & M1) | (NV1 & w1' & M1 & S1)];
      destruct (lib_make_cases w2 d DH2) as [(V2 & M2) | (NV2 & M2)];
      try tauto; rewrite M1, M2.
    + split; [reflexivity | exact S].
    + apply build_agrees; try assumption.
      destruct S as (? & ? & ? & ? & ? & ? & ?), S1 as (? & ? & ? & ? & ? & ? & ?).
      repeat split; congruence.
Qed.

End LibFacts.

(* ================================================================== *)
(** ** Properties of the two earlier variants *)
(* ================================================================== *)

Section VariantFacts.

Context {codec : Codec} {path : PathApi}.
Variable webpack : BuildInvocation -> World -> BundlerRun.
Variable options : Options.
Variable deps : value.

Lemma variantA_make_files ks w :
  Object_keys deps = Some ks ->
  dllCache (snd (VariantA.make webpack options deps w)) = dllCache w
  /\ manifest (snd (VariantA.make webpack options deps w))
     = manifest (bundled {| entry_name := dllName options; entry := ks |}
                   (webpack {| entry_name := dllName options; entry := ks |} w) w)
  /\ invocations (snd (VariantA.make webpack options deps w))
     = (invocations w ++ [{| entry_name := dllName options; entry := ks |}])%list.
Proof.
  intros K. unfold VariantA.make. rewrite K. unfold call_webpack.
  destruct (result (webpack {| entry_name := dllName options; entry := ks |} w))
    as [err | stats].
  - destruct (err_stack err), (err_details err) as [t|];
      try destruct (t =? EmptyString)%string; repeat split.
  - destruct (hasErrors stats), (hasWarnings stats); repeat split.
Qed.

Lemma variantA_prepare_uncached ks w :
  Object_keys deps = Some ks ->
  dllCache w = None ->
  dllCache (snd (VariantA.prepare webpack options deps w)) = None
  /\ List.length (invocations (snd (VariantA.prepare webpack options deps w)))
     = S (List.length (invocations w)).
Proof.
  intros K C. unfold VariantA.prepare, VariantA.validate, readFile_dllCache.
  rewrite C. destruct (variantA_make_files ks w K) as (D & _ & I).
  rewrite D, I, length_app. cbn [List.length]. split; [exact C | lia].
Qed.

(** X15.  The variant that hands two functions to [Promise.all] never
    runs them: its [make] calls the bundler and leaves dll.json as it
    was and the manifest as the bundler left it, with no back-dating.
    So a project without a snapshot never gets one: each of [n]
    preparations in a row finds no dll.json and calls the bundler
    again. *)
Theorem variantA_never_caches :
  forall (ks : list string) (n : nat) (w : World),
    Object_keys deps = Some ks ->
    dllCache w = None ->
    dllCache (runs n (VariantA.prepare webpack options deps) w) = None
    /\ List.length (invocations (runs n (VariantA.prepare webpack options deps) w))
       = List.length (invocations w) + n
    /\ manifest (snd (VariantA.make webpack options deps w))
       = manifest (bundled {| entry_name := dllName options; entry := ks |}
                     (webpack {| entry_name := dllName options; entry := ks |} w) w).
Proof.
  intros ks n w K C. split; [|split].
  - revert w C. induction n as [|n IH]; intros w C; [exact C|].
    cbn [runs]. apply IH. now apply (variantA_prepare_uncached ks).
  - revert w C. induction n as [|n IH]; intros w C; [cbn [runs]; lia|].
    cbn [runs]. destruct (variantA_prepare_uncached ks w K C) as (C' & L).
    rewrite (IH _ C'), L. lia.
  - now destruct (variantA_make_files ks w K) as (_ & M & _).
Qed.

(** X16.  The variant that returns [writeFile(...).then(resolve)] from
    the callback: when the write fails because the dll directory is
    not there, nothing settles the promise of [make]; it stays pending
    and dll.json is as before.  When the directory is there the promise
    resolves, compile errors or not, and dll.json holds the
    dependencies. *)
Theorem variantB_failed_write_never_settles :
  forall (ks : list string) (stats : Stats) (w : World),
    Object_keys deps = Some ks ->
    result (webpack {| entry_name := dllName options; entry := ks |} w)
    = Completed stats ->
    exists w',
      VariantB.make webpack options deps w
      = (if directory_there
              (webpack {| entry_name := dllName options; entry := ks |} w) w
         then Resolved tt else Pending, w')
      /\ dllCache w'
         = (if directory_there
                 (webpack {| entry_name := dllName options; entry := ks |} w) w
            then Some (JSON_stringify deps) else dllCache w)
      /\ console w' = (console w ++ lib_stats_lines stats)%list.
Proof.
  intros ks stats w K R. unfold VariantB.make. rewrite K. unfold call_webpack.
  rewrite R. unfold writeFile_dllCache, directory_there, lib_stats_lines.
  destruct (emitted (webpack {| entry_name := dllName options; entry := ks |} w)) eqn:E,
    (Plugin.dllDirectory w) eqn:Dir, (hasErrors stats), (hasWarnings stats);
    run_simpl;
    repeat (progress (rewrite ?E, ?Dir, ?orb_true_r; run_simpl));
    eexists; (split; [reflexivity|]); run_simpl;
    rewrite <- ?app_assoc, ?app_nil_r; repeat split; try reflexivity; assumption.
Qed.

End VariantFacts.

(* ================================================================== *)
(** ** Time and retries *)
(* ================================================================== *)

Section Timing.

Context {codec : Codec}.
Variable webpack : BuildInvocation -> World -> BundlerRun.
Variable options : Options.

(** The time a completed build leaves on the manifest. *)
Lemma backdated_stored (w' : World) :
  time_value (clock w') ->
  manifest w' = Some (timespec (backdated (clock w'))) ->
  exists m,
    manifest w' = Some m
    /\ m = timespec (backdated (clock w'))
    /\ (m < seconds (clock w'))%Q
    /\ (seconds (clock w') - 10 - (1 # 1000) <= m <= seconds (clock w') - 10 + (1 # 1000))%Q
    /\ (in_era (clock w') ->
        (seconds (clock w') - 10 - (1 # 1000000) <= m <= seconds (clock w') - 10)%Q).
Proof.
  intros T M. exists (timespec (backdated (clock w'))).
  pose proof (timespec_roughly (clock w') T) as [L U].
  split; [exact M|]. split; [reflexivity|]. split; [lra|]. split; [split; assumption|].
  intros Era. exact (timespec_backdated (clock w') Era).
Qed.

(** A fulfilled build of lib/index.js went through both file
    operations. *)
Lemma lib_build_fulfilled d w w' :
  Lib.build webpack options d w = (Fulfilled tt, w') ->
  manifest w' = Some (timespec (backdated (clock w')))
  /\ dllCache w' = Some (JSON_stringify d).
Proof.
  intros B.
  destruct (Object_keys d) as [ks|] eqn:K.
  - destruct (result (webpack {| entry_name := dllName options; entry := ks |} w))
      as [err | stats] eqn:R.
    + rewrite (lib_build_failed webpack options d ks err w K R) in B. discriminate.
    + destruct (lib_build_completed webpack options d ks stats w K R)
        as (w1 & B1 & _ & C & M & _).
      rewrite B1 in B.
      destruct (manifest_there _ w); [|destruct (directory_there _ w); discriminate].
      destruct (directory_there _ w); [|discriminate].
      injection B as <-. split; assumption.
  - unfold Lib.build in B. rewrite K in B. discriminate.
Qed.

(** C7.  Every build that is fulfilled, in the main version and in
    lib/index.js, has written dll.json and back-dated the export
    manifest: [fs.utimes] was handed the Number [Date.now() / 1000 - 10],
    and the file keeps it cut to whole microseconds.  That time [m] is
    strictly earlier than the time at which the callback ran: ten
    seconds earlier to the thousandth of a second for every time value,
    and until the year 2242 ten seconds and at most one microsecond
    more (what the two roundings of the Number and the cut can take
    away).  And a build is fulfilled whenever the bundler completes and
    has emitted its files: in the main version when there are no
    compile errors, in lib/index.js in every case. *)
Theorem manifest_backdated :
  forall (d : value) (w : World),
    (forall w',
        build webpack options d w = (Fulfilled tt, w') ->
        time_value (clock w') ->
        exists m,
          dllCache w' = Some (JSON_stringify d)
          /\ manifest w' = Some m
          /\ m = timespec (backdated (clock w'))
          /\ (m < seconds (clock w'))%Q
          /\ (seconds (clock w') - 10 - (1 # 1000) <= m
              <= seconds (clock w') - 10 + (1 # 1000))%Q
          /\ (in_era (clock w') ->
              (seconds (clock w') - 10 - (1 # 1000000) <= m
               <= seconds (clock w') - 10)%Q))
    /\ (forall w',
           Lib.build webpack options d w = (Fulfilled tt, w') ->
           time_value (clock w') ->
           exists m,
             dllCache w' = Some (JSON_stringify d)
             /\ manifest w' = Some m
             /\ m = timespec (backdated (clock w'))
             /\ (m < seconds (clock w'))%Q
             /\ (seconds (clock w') - 10 - (1 # 1000) <= m
                 <= seconds (clock w') - 10 + (1 # 1000))%Q
             /\ (in_era (clock w') ->
                 (seconds (clock w') - 10 - (1 # 1000000) <= m
                  <= seconds (clock w') - 10)%Q))
    /\ (forall ks stats,
           Object_keys d = Some ks ->
           result (webpack {| entry_name := dllName options;
                              entry := entry_list options ks |} w)
           = Completed stats ->
           hasErrors stats = false ->
           emitted (webpack {| entry_name := dllName options;
                               entry := entry_list options ks |} w)
           = true ->
           exists w',
             build webpack options d w = (Fulfilled tt, w')
             /\ clock w'
                = (clock w
                   + Z.max 0 (duration (webpack {| entry_name := dllName options;
                                                   entry := entry_list options ks |}
                                          w)))%Z)
    /\ (forall ks stats,
           Object_keys d = Some ks ->
           result (webpack {| entry_name := dllName options; entry := ks |} w)
           = Completed stats ->
           emitted (webpack {| entry_name := dllName options; entry := ks |} w)
           = true ->
           exists w',
             Lib.build webpack options d w = (Fulfilled tt, w')
             /\ clock w'
                = (clock w
                   + Z.max 0 (duration (webpack {| entry_name := dllName options;
                                                   entry := ks |} w)))%Z).
Proof.
  intros d w. repeat split.
  - intros w' B T.
    destruct (build_fulfilled webpack options d w w' B) as (M & C & _).
    destruct (backdated_stored w' T M) as (m & Mm & Em & Lt & Rough & Fine).
    exists m. repeat split; try assumption; apply Rough || apply Fine; assumption.
  - intros w' B T.
    destruct (lib_build_fulfilled d w w' B) as (M & C).
    destruct (backdated_stored w' T M) as (m & Mm & Em & Lt & Rough & Fine).
    exists m. repeat split; try assumption; apply Rough || apply Fine; assumption.
  - intros ks stats K R H E.
    destruct (build_completed webpack options d ks stats w K R)
      as (w' & B & _ & _ & _ & _ & Tw & _).
    unfold manifest_there, directory_there in B. rewrite E in B.
    rewrite orb_true_r in B. cbn [orb] in B. rewrite H in B. cbn [settled_as] in B.
    exists w'. split; assumption.
  - intros ks stats K R E.
    destruct (lib_build_completed webpack options d ks stats w K R)
      as (w' & B & _ & _ & _ & _ & Tw & _).
    unfold manifest_there, directory_there in B. rewrite E in B.
    rewrite orb_true_r in B. cbn [orb] in B.
    exists w'. split; assumption.
Qed.

End Timing.

(** A snapshot that holds the dependencies of the descriptor: [make]
    resolves and leaves the world alone. *)
Lemma make_snapshot_current (webpack : BuildInvocation -> World -> BundlerRun)
  (options : Options) (D : DepMap) (w : World) :
  wf_props D ->
  dllCache w = Some (stringify (obj_of D)) ->
  @descriptor_has reference w (obj_of D) ->
  @make reference webpack options w = (Fulfilled tt, w).
Proof.
  intros W C DH.
  destruct (@make_cases reference webpack options w (obj_of D) DH)
    as [(_ & Mk) | (NV & _)]; [exact Mk|].
  exfalso. apply NV. exists (stringify (obj_of D)), (obj_of (canon D)).
  split; [exact C|]. split; [apply reference_parse_stringify|].
  rewrite cache_valid_obj. destruct (canon_same_pairs D W) as (WC & SP).
  now apply isEqual_same_pairs.
Qed.

(** A [make] rejected for compile errors went through a build: one
    bundler call, and, where the dll directory exists afterwards,
    dll.json rewritten with the dependencies just read. *)
Lemma make_compile_errors {codec : Codec}
  (webpack : BuildInvocation -> World -> BundlerRun) (options : Options)
  (d : value) (errs : list string) (w w1 : World) :
  descriptor_has w d ->
  make webpack options w = (Rejected (CompileErrors errs), w1) ->
  Plugin.dllDirectory w1 = true ->
  dllCache w1 = Some (JSON_stringify d)
  /\ pkgJson w1 = pkgJson w
  /\ List.length (invocations w1) = S (List.length (invocations w)).
Proof.
  intros DH M Dir.
  destruct (make_cases webpack options w d DH) as [(_ & Mk) | (_ & w0 & Mk & S)].
  - rewrite Mk in M. discriminate.
  - rewrite Mk in M. destruct S as (P & _ & _ & _ & _ & I & _).
    destruct (Object_keys d) as [ks|] eqn:K.
    + destruct (result (webpack {| entry_name := dllName options;
                                   entry := entry_list options ks |} w0))
        as [err | stats] eqn:R.
      * rewrite (build_failed webpack options d ks err w0 K R) in M. discriminate.
      * destruct (build_completed webpack options d ks stats w0 K R)
          as (w' & B & _ & C & _ & Pk & _ & Dt & Iv & _).
        rewrite B in M. injection M as Out <-.
        rewrite <- Dt, Dir in C.
        split; [exact C|]. split; [congruence|].
        rewrite Iv, I, length_app. cbn [List.length]. lia.
    + unfold build in M. rewrite K in M. discriminate.
Qed.

(** C8, as the code behaves.  A watch cycle whose rebuild is rejected
    for compile errors hands the errors to the host's callback and
    keeps the recorded timestamp; the bundler has been called once.
    But the failed build has rewritten dll.json (the [reject] in the
    callback is not followed by [return]), so the next cycle, seeing
    the same timestamp, finds the snapshot up to date: it calls no
    bundler, answers [callback(null)] and records the timestamp.  The
    rebuild is not tried again. *)
Theorem failed_cycle_not_retried :
  forall (webpack : BuildInvocation -> World -> BundlerRun) (options : Options)
         (D : DepMap) (timestamp : option Z) (st : HookState)
         (errs : list string) (w w1 : World),
    wf_props D ->
    @descriptor_has reference w (obj_of D) ->
    triggered timestamp st = true ->
    @make reference webpack options (print Log msg_changed w)
    = (Rejected (CompileErrors errs), w1) ->
    Plugin.dllDirectory w1 = true ->
    @watch_run reference webpack options timestamp st w
    = ((Some (CompileErrors errs), st), w1)
    /\ List.length (invocations w1) = S (List.length (invocations w))
    /\ dllCache w1 = Some (stringify (obj_of D))
    /\ @watch_run reference webpack options timestamp st w1
       = ((None, {| pkgTimestamp := timestamp |}), print Log msg_changed w1)
    /\ invocations (print Log msg_changed w1) = invocations w1.
Proof.
  intros webpack options D ts st errs w w1 W DH T M Dir.
  assert (DHp : @descriptor_has reference (print Log msg_changed w) (obj_of D))
    by exact DH.
  destruct (@make_compile_errors reference webpack options (obj_of D) errs _ w1
              DHp M Dir) as (C & P & I).
  destruct (@watch_run_cases reference webpack options ts st w T) as (Rj & _).
  destruct (Rj _ _ M) as (First & Second).
  split; [exact First|]. split; [exact I|]. split; [exact C|].
  split; [|reflexivity].
  rewrite Second.
  assert (DH1 : @descriptor_has reference (print Log msg_changed w1) (obj_of D)).
  { destruct DH as (text & v & Pt & J & Dp). exists text, v.
    repeat split; try assumption. cbn [pkgJson print] in *. congruence. }
  now rewrite (make_snapshot_current webpack options D (print Log msg_changed w1) W C DH1).
Qed.

(* ================================================================== *)
(** ** The further properties on sample runs *)
(* ================================================================== *)

(** The bundler gives up on a project whose snapshot is stale. *)
Lemma fatal_error_writes_nothing_witness :
  Object_keys (obj_of deps_ac) = Some ["a"; "c"]
  /\ result (bundler_fatal
               {| entry_name := dllName options_default;
                  entry := entry_list options_default ["a"; "c"] |}
               (world_cached deps_a deps_ac))
     = Failed fatal
  /\ exists w',
       @build reference bundler_fatal options_default (obj_of deps_ac)
         (world_cached deps_a deps_ac)
       = (Rejected (BundlerFailure fatal), w')
       /\ console w' = (console (world_cached deps_a deps_ac) ++ error_lines fatal)%list
       /\ dllCache w' = dllCache (world_cached deps_a deps_ac)
       /\ (emitted (bundler_fatal
                      {| entry_name := dllName options_default;
                         entry := entry_list options_default ["a"; "c"] |}
                      (world_cached deps_a deps_ac)) = false ->
           manifest w' = manifest (world_cached deps_a deps_ac)).
Proof.
  repeat (split; [reflexivity|]).
  exact (@fatal_error_writes_nothing reference bundler_fatal options_default
           (obj_of deps_ac) ["a"; "c"] fatal (world_cached deps_a deps_ac)
           eq_refl eq_refl).
Defined.

(** A project without package.json. *)
Lemma unreadable_descriptor_rejects_witness :
  @descriptor_unreadable reference world_bare
  /\ development None = true
  /\ @make reference bundler_ok (@options_of joining string config_app) world_bare
     = (Rejected (JsError "Can't find package.json"), world_bare)
  /\ exists run,
       @plugin reference joining bundler_ok string None config_app = Some run
       /\ run world_bare
          = (Rejected (JsError "Can't find package.json"), (config_app, world_bare)).
Proof.
  assert (U : @descriptor_unreadable reference world_bare) by (left; reflexivity).
  split; [exact U|]. split; [reflexivity|].
  exact (@unreadable_descriptor_rejects reference joining bundler_ok string None
           config_app world_bare U eq_refl).
Defined.

(** A stale snapshot: one call of the bundler. *)
Lemma make_builds_unless_valid_witness :
  @descriptor_has reference (world_cached deps_a deps_ac) (obj_of deps_ac)
  /\ Object_keys (obj_of deps_ac) = Some ["a"; "c"]
  /\ ~ @snapshot_valid reference (world_cached deps_a deps_ac) (obj_of deps_ac)
  /\ invocations
       (snd (@make reference bundler_ok options_default (world_cached deps_a deps_ac)))
     = (invocations (world_cached deps_a deps_ac)
          ++ [{| entry_name := dllName options_default;
                 entry := entry_list options_default ["a"; "c"] |}])%list.
Proof.
  assert (DH : @descriptor_has reference (world_cached deps_a deps_ac) (obj_of deps_ac)).
  { eexists _, _. repeat split; reflexivity. }
  assert (NV : ~ @snapshot_valid reference (world_cached deps_a deps_ac) (obj_of deps_ac)).
  { intros (text & c & C & J & V). cbn in C. injection C as <-.
    vm_compute in J. injection J as <-. vm_compute in V. discriminate. }
  split; [exact DH|]. split; [reflexivity|]. split; [exact NV|].
  exact (proj2 (@make_builds_unless_valid reference bundler_ok options_default
                  (world_cached deps_a deps_ac) (obj_of deps_ac) ["a"; "c"]
                  DH eq_refl) NV).
Defined.

(** Two warnings and an error: three lines, then the success message. *)
Lemma build_transcript_witness :
  Object_keys (obj_of deps_ac) = Some ["a"; "c"]
  /\ result (bundler_warned
               {| entry_name := dllName options_default;
                  entry := entry_list options_default ["a"; "c"] |}
               (world_first deps_ac))
     = Completed warned_stats
  /\ emitted (bundler_warned
                {| entry_name := dllName options_default;
                   entry := entry_list options_default ["a"; "c"] |}
                (world_first deps_ac))
     = true
  /\ exists w',
       @build reference bundler_warned options_default (obj_of deps_ac)
         (world_first deps_ac)
       = (if hasErrors warned_stats then Rejected (CompileErrors (errors warned_stats))
          else Fulfilled tt, w')
       /\ console w'
          = (console (world_first deps_ac)
               ++ stats_lines (log options_default) warned_stats
               ++ [(Log, msg_success)])%list.
Proof.
  repeat (split; [reflexivity|]).
  exact (@build_transcript reference bundler_warned options_default
           (obj_of deps_ac) ["a"; "c"] warned_stats (world_first deps_ac)
           eq_refl eq_refl eq_refl).
Defined.

(** The bundler emits nothing into an empty dll directory. *)
Lemma missing_manifest_still_caches_witness :
  wf_props deps_ac
  /\ Object_keys (obj_of deps_ac) = Some ["a"; "c"]
  /\ result (bundler_silent
               {| entry_name := dllName options_default;
                  entry := entry_list options_default ["a"; "c"] |}
               (world_no_manifest deps_ac))
     = Completed good_stats
  /\ hasErrors good_stats = false
  /\ emitted (bundler_silent
                {| entry_name := dllName options_default;
                   entry := entry_list options_default ["a"; "c"] |}
                (world_no_manifest deps_ac))
     = false
  /\ manifest (world_no_manifest deps_ac) = None
  /\ Plugin.dllDirectory (world_no_manifest deps_ac) = true
  /\ exists w',
       @build reference bundler_silent options_default (obj_of deps_ac)
         (world_no_manifest deps_ac)
       = (Rejected (FsError "ENOENT" "vendor-manifest.json"), w')
       /\ manifest w' = None
       /\ dllCache w' = Some (stringify (obj_of deps_ac))
       /\ console w'
          = (console (world_no_manifest deps_ac)
               ++ stats_lines (log options_default) good_stats)%list
       /\ forall w2,
            dllCache w2 = dllCache w' ->
            @descriptor_has reference w2 (obj_of deps_ac) ->
            @make reference bundler_silent options_default w2 = (Fulfilled tt, w2).
Proof.
  repeat (split; [reflexivity|]).
  exact (missing_manifest_still_caches bundler_silent options_default deps_ac
           ["a"; "c"] good_stats (world_no_manifest deps_ac)
           eq_refl eq_refl eq_refl eq_refl eq_refl eq_refl eq_refl).
Defined.

(** The Number [Date.now() / 1000 - 10] and the time the file keeps, at
    a clock whose seconds are no binary fraction and at one whose
    seconds are. *)
Lemma backdated_sample :
  backdated 1700000000123 = (7130316758572859 # 4194304)%Q
  /\ timespec (backdated 1700000000123) = (1699999990122999 # 1000000)%Q
  /\ timespec (backdated 1700000001500) = (1699999991500000 # 1000000)%Q
  /\ manifest (snd (@build reference bundler_quick options_default (obj_of deps_ac)
                      (world_first deps_ac)))
     = Some (1699999990122999 # 1000000)%Q
  /\ manifest (snd (@Lib.build reference bundler_quick options_default (obj_of deps_ac)
                      (world_first deps_ac)))
     = Some (1699999990122999 # 1000000)%Q.
Proof. vm_compute. repeat split. Qed.

(** A first build that takes 123 milliseconds, in both engines: the
    build is fulfilled at clock 1700000000123 and the manifest carries
    1699999990.122999. *)
Lemma manifest_backdated_witness :
  time_value 1700000000123
  /\ in_era 1700000000123
  /\ (exists w' m,
         @build reference bundler_quick options_default (obj_of deps_ac)
           (world_first deps_ac)
         = (Fulfilled tt, w')
         /\ clock w' = 1700000000123%Z
         /\ dllCache w' = Some (stringify (obj_of deps_ac))
         /\ manifest w' = Some m
         /\ m = (1699999990122999 # 1000000)%Q
         /\ (m < seconds (clock w'))%Q
         /\ (seconds (clock w') - 10 - (1 # 1000000) <= m
             <= seconds (clock w') - 10)%Q)
  /\ (exists w' m,
         @Lib.build reference bundler_quick options_default (obj_of deps_ac)
           (world_first deps_ac)
         = (Fulfilled tt, w')
         /\ clock w' = 1700000000123%Z
         /\ dllCache w' = Some (stringify (obj_of deps_ac))
         /\ manifest w' = Some m
         /\ m = (1699999990122999 # 1000000)%Q
         /\ (m < seconds (clock w'))%Q
         /\ (seconds (clock w') - 10 - (1 # 1000000) <= m
             <= seconds (clock w') - 10)%Q).
Proof.
  assert (T : time_value 1700000000123) by (unfold time_value; lia).
  assert (Era : in_era 1700000000123) by (unfold in_era; lia).
  destruct (@manifest_backdated reference bundler_quick options_default
              (obj_of deps_ac) (world_first deps_ac))
    as (Main & Other & MainRuns & OtherRuns).
  split; [exact T|]. split; [exact Era|]. split.
  - destruct (MainRuns ["a"; "c"] good_stats eq_refl eq_refl eq_refl eq_refl)
      as (w' & B & Tw).
    change (clock w' = 1700000000123%Z) in Tw.
    pose proof T as T'. pose proof Era as Era'. rewrite <- Tw in T', Era'.
    destruct (Main w' B T') as (m & C & M & Em & Lt & _ & Fine).
    exists w', m. split; [exact B|]. split; [exact Tw|]. split; [exact C|].
    split; [exact M|]. split; [rewrite Em, Tw; reflexivity|].
    split; [exact Lt | exact (Fine Era')].
  - destruct (OtherRuns ["a"; "c"] good_stats eq_refl eq_refl eq_refl)
      as (w' & B & Tw).
    change (clock w' = 1700000000123%Z) in Tw.
    pose proof T as T'. pose proof Era as Era'. rewrite <- Tw in T', Era'.
    destruct (Other w' B T') as (m & C & M & Em & Lt & _ & Fine).
    exists w', m. split; [exact B|]. split; [exact Tw|]. split; [exact C|].
    split; [exact M|]. split; [rewrite Em, Tw; reflexivity|].
    split; [exact Lt | exact (Fine Era')].
Defined.

(** A watch cycle sees package.json changed and the rebuild meets a
    compile error; the next cycle sees the same timestamp. *)
Lemma failed_cycle_not_retried_witness :
  wf_props deps_ac
  /\ @descriptor_has reference (world_cached deps_a deps_ac) (obj_of deps_ac)
  /\ triggered (Some 1700000000500%Z) initial_state = true
  /\ @make reference bundler_errors options_default
       (print Log msg_changed (world_cached deps_a deps_ac))
     = (Rejected (CompileErrors (errors bad_stats)), world_cycle_failed)
  /\ Plugin.dllDirectory world_cycle_failed = true
  /\ @watch_run reference bundler_errors options_default (Some 1700000000500%Z)
       initial_state (world_cached deps_a deps_ac)
     = ((Some (CompileErrors (errors bad_stats)), initial_state), world_cycle_failed)
  /\ List.length (invocations world_cycle_failed)
     = S (List.length (invocations (world_cached deps_a deps_ac)))
  /\ dllCache world_cycle_failed = Some (stringify (obj_of deps_ac))
  /\ @watch_run reference bundler_errors options_default (Some 1700000000500%Z)
       initial_state world_cycle_failed
     = ((None, {| pkgTimestamp := Some 1700000000500%Z |}),
        print Log msg_changed world_cycle_failed)
  /\ invocations (print Log msg_changed world_cycle_failed)
     = invocations world_cycle_failed.
Proof.
  assert (DH : @descriptor_has reference (world_cached deps_a deps_ac) (obj_of deps_ac)).
  { eexists _, _. repeat split; reflexivity. }
  assert (M : @make reference bundler_errors options_default
                (print Log msg_changed (world_cached deps_a deps_ac))
              = (Rejected (CompileErrors (errors bad_stats)), world_cycle_failed))
    by reflexivity.
  split; [reflexivity|]. split; [exact DH|]. split; [reflexivity|].
  split; [exact M|]. split; [reflexivity|].
  exact (failed_cycle_not_retried bundler_errors options_default deps_ac
           (Some 1700000000500%Z) initial_state (errors bad_stats)
           (world_cached deps_a deps_ac) world_cycle_failed
           eq_refl DH eq_refl M eq_refl).
Defined.

(** When the bundler gives up before compiling, nothing is written and
    the next cycle does call the bundler again. *)
Lemma fatal_cycle_retried_sample :
  @watch_run reference bundler_fatal options_default (Some 1700000000500%Z)
    initial_state (world_cached deps_a deps_ac)
  = ((Some (BundlerFailure fatal), initial_state), world_gave_up)
  /\ List.length (invocations world_gave_up) = 1
  /\ fst (@watch_run reference bundler_fatal options_default (Some 1700000000500%Z)
            initial_state world_gave_up)
     = (Some (BundlerFailure fatal), initial_state)
  /\ List.length
       (invocations
          (snd (@watch_run reference bundler_fatal options_default
                  (Some 1700000000500%Z) initial_state world_gave_up)))
     = 2.
Proof. repeat split. Qed.

(** A cycle that sees package.json changed over a valid snapshot and
    records the timestamp; then the same timestamp again.  From the
    state the first cycle left the hook is idle; from the initial state
    the same timestamp would start a rebuild. *)
Lemma repeated_timestamp_is_idle_witness :
  triggered (Some 1700000000500%Z) initial_state = true
  /\ @watch_run reference bundler_ok options_default (Some 1700000000500%Z)
       initial_state (world_cached deps_ac deps_ac)
     = ((None, {| pkgTimestamp := Some 1700000000500%Z |}),
        print Log msg_changed (world_cached deps_ac deps_ac))
  /\ triggered (Some 1700000000500%Z) {| pkgTimestamp := Some 1700000000500%Z |}
     = false
  /\ @watch_run reference bundler_ok options_default (Some 1700000000500%Z)
       {| pkgTimestamp := Some 1700000000500%Z |}
       (print Log msg_changed (world_cached deps_ac deps_ac))
     = ((None, {| pkgTimestamp := Some 1700000000500%Z |}),
        print Log msg_changed (world_cached deps_ac deps_ac)).
Proof.
  assert (First : @watch_run reference bundler_ok options_default
                    (Some 1700000000500%Z) initial_state (world_cached deps_ac deps_ac)
                  = ((None, {| pkgTimestamp := Some 1700000000500%Z |}),
                     print Log msg_changed (world_cached deps_ac deps_ac)))
    by reflexivity.
  split; [reflexivity|]. split; [exact First|]. split; [reflexivity|].
  exact (@repeated_timestamp_is_idle reference bundler_ok options_default
           (Some 1700000000500%Z) initial_state
           {| pkgTimestamp := Some 1700000000500%Z |}
           (world_cached deps_ac deps_ac)
           (print Log msg_changed (world_cached deps_ac deps_ac)) First).
Defined.

(** The first cycle of a watch over an unchanged project. *)
Lemma first_cycle_checks_witness :
  1700000000000%Z <> 0%Z
  /\ @descriptor_has reference (world_cached deps_ac deps_ac) (obj_of deps_ac)
  /\ @snapshot_valid reference (world_cached deps_ac deps_ac) (obj_of deps_ac)
  /\ @watch_run reference bundler_ok options_default (Some 1700000000000%Z)
       initial_state (world_cached deps_ac deps_ac)
     = ((None, {| pkgTimestamp := Some 1700000000000%Z |}),
        print Log msg_changed (world_cached deps_ac deps_ac))
  /\ @watch_run reference bundler_ok options_default None initial_state
       (world_cached deps_ac deps_ac)
     = ((None, {| pkgTimestamp := None |}), world_cached deps_ac deps_ac).
Proof.
  assert (Z : 1700000000000%Z <> 0%Z) by discriminate.
  assert (DH : @descriptor_has reference (world_cached deps_ac deps_ac) (obj_of deps_ac)).
  { eexists _, _. repeat split; reflexivity. }
  assert (V : @snapshot_valid reference (world_cached deps_ac deps_ac) (obj_of deps_ac)).
  { eexists _, _. repeat split; reflexivity. }
  split; [exact Z|]. split; [exact DH|]. split; [exact V|].
  exact (@first_cycle_checks reference bundler_ok options_default 1700000000000%Z
           (world_cached deps_ac deps_ac) (obj_of deps_ac) Z DH V).
Defined.

(** A first run, then [make] again. *)
Lemma second_make_is_idle_witness :
  wf_props deps_ac
  /\ @descriptor_has reference (world_first deps_ac) (obj_of deps_ac)
  /\ @make reference bundler_ok options_default (world_first deps_ac)
     = (Fulfilled tt, world_made)
  /\ @make reference bundler_ok options_default world_made = (Fulfilled tt, world_made).
Proof.
  assert (DH : @descriptor_has reference (world_first deps_ac) (obj_of deps_ac)).
  { eexists _, _. repeat split; reflexivity. }
  assert (M : @make reference bundler_ok options_default (world_first deps_ac)
              = (Fulfilled tt, world_made)) by reflexivity.
  split; [reflexivity|]. split; [exact DH|]. split; [exact M|].
  exact (second_make_is_idle bundler_ok options_default deps_ac
           (world_first deps_ac) world_made eq_refl DH M).
Defined.

(** A configuration with a string entry and a string contentBase. *)
Lemma inject_rewrites_witness :
  wo_plugins config_app = Some [Foreign "HTMLWebpackPlugin"]
  /\ exists wo',
       @injectOptionsForDevelopment joining options_app string config_app
       = (Fulfilled wo', wo')
       /\ wo_library wo' = None
       /\ served_by wo'
          = (served_by config_app ++ [VStr (@dllDirectory joining options_app)])%list
       /\ wo_entry wo'
          = EntryValue (VArr [VStr (@pkgJsonPath joining options_app);
                              VStr "/app/foo.js"])
       /\ wo_plugins wo'
          = Some [Foreign "HTMLWebpackPlugin"; @library_hooks joining options_app string].
Proof.
  split; [reflexivity|].
  destruct (@inject_rewrites joining string options_app config_app
              [Foreign "HTMLWebpackPlugin"] eq_refl)
    as (wo' & I & L & S & _ & E & P & _).
  exists wo'. repeat split; try assumption.
  exact (E [VStr "/app/foo.js"] eq_refl).
Defined.

(** No [plugins] array, a snapshot that is valid. *)
Lemma missing_plugins_rejects_late_witness :
  development (Some "development") = true
  /\ wo_plugins config_bare = None
  /\ @make reference bundler_ok (@options_of joining string config_bare)
       (world_cached deps_ac deps_ac)
     = (Fulfilled tt, world_cached deps_ac deps_ac)
  /\ exists run wo1,
       @plugin reference joining bundler_ok string (Some "development") config_bare
       = Some run
       /\ run (world_cached deps_ac deps_ac)
          = (Rejected (TypeError "Cannot read property 'push' of undefined"),
             (wo1, world_cached deps_ac deps_ac))
       /\ wo_library wo1 = None
       /\ served_by wo1
          = (served_by config_bare
               ++ [VStr (@dllDirectory joining (@options_of joining string config_bare))])%list
       /\ wo_plugins wo1 = None.
Proof.
  repeat (split; [reflexivity|]).
  exact (@missing_plugins_rejects_late reference joining bundler_ok string
           (Some "development") config_bare
           (world_cached deps_ac deps_ac) (world_cached deps_ac deps_ac)
           eq_refl eq_refl eq_refl).
Defined.

(** The first call is given [dllName: 'libs']; the second works with
    ['vendor']. *)
Lemma second_call_forgets_library_witness :
  dllName (@options_of joining string config_app) = "libs"
  /\ dllName (@options_of joining string config_injected) = "vendor"
  /\ wo_library config_injected = None
  /\ @options_of joining string config_injected = DefaultOptions "."
  /\ exists run,
       @plugin reference joining bundler_ok string None config_app = Some run
       /\ snd (run (world_cached deps_ac deps_ac))
          = (config_injected, world_cached deps_ac deps_ac).
Proof.
  assert (H : exists run,
             @plugin reference joining bundler_ok string None config_app = Some run
             /\ snd (run (world_cached deps_ac deps_ac))
                = (config_injected, world_cached deps_ac deps_ac)).
  { eexists. split; reflexivity. }
  destruct H as (run & Pl & R).
  destruct (run (world_cached deps_ac deps_ac)) as [r [wo1 w1]] eqn:Run.
  cbn [snd] in R. injection R as -> ->.
  destruct (@second_call_forgets_library reference joining bundler_ok string None
              config_app config_injected run r
              (world_cached deps_ac deps_ac) (world_cached deps_ac deps_ac)
              (world_cached deps_ac deps_ac) Pl eq_refl Run) as (_ & L & O).
  split; [reflexivity|]. split; [reflexivity|]. split; [exact L|]. split; [exact O|].
  exists run. split; [exact Pl|]. now rewrite Run.
Defined.

(** Compile errors and warnings in lib/index.js. *)
Lemma lib_build_ignores_compile_errors_witness :
  Object_keys (obj_of deps_ac) = Some ["a"; "c"]
  /\ result (bundler_warned {| entry_name := dllName options_default;
                               entry := ["a"; "c"] |} (world_first deps_ac))
     = Completed warned_stats
  /\ emitted (bundler_warned {| entry_name := dllName options_default;
                                entry := ["a"; "c"] |} (world_first deps_ac))
     = true
  /\ hasErrors warned_stats = true
  /\ exists w',
       @Lib.build reference bundler_warned options_default (obj_of deps_ac)
         (world_first deps_ac)
       = (Fulfilled tt, w')
       /\ dllCache w' = Some (stringify (obj_of deps_ac))
       /\ manifest w' = Some (timespec (backdated (clock w')))
       /\ console w'
          = (console (world_first deps_ac) ++ lib_stats_lines warned_stats)%list
       /\ invocations w'
          = (invocations (world_first deps_ac)
               ++ [{| entry_name := dllName options_default; entry := ["a"; "c"] |}])%list.
Proof.
  repeat (split; [reflexivity|]).
  exact (@lib_build_ignores_compile_errors reference bundler_warned options_default
           (obj_of deps_ac) ["a"; "c"] warned_stats (world_first deps_ac)
           eq_refl eq_refl eq_refl).
Defined.

(** The two engines on a first run in which the bundler emits nothing:
    there is no manifest to back-date and no directory to write in,
    and the write of dll.json is the first to fail. *)
Lemma lib_make_agrees_witness :
  include options_default = []
  /\ exclude options_default = []
  /\ console_blind bundler_silent
  /\ never_errors bundler_silent
  /\ same_files (world_unlucky deps_ac) (world_unlucky deps_ac)
  /\ fst (@make reference bundler_silent options_default (world_unlucky deps_ac))
     = Rejected (FsError "ENOENT" "dll.json")
  /\ fst (@make reference bundler_silent options_default (world_unlucky deps_ac))
     = fst (@Lib.make reference bundler_silent options_default (world_unlucky deps_ac))
  /\ same_files
       (snd (@make reference bundler_silent options_default (world_unlucky deps_ac)))
       (snd (@Lib.make reference bundler_silent options_default (world_unlucky deps_ac))).
Proof.
  assert (B : console_blind bundler_silent) by (intros inv w1 w2 _; reflexivity).
  assert (N : never_errors bundler_silent).
  { intros inv w stats R. injection R as <-. reflexivity. }
  assert (S : same_files (world_unlucky deps_ac) (world_unlucky deps_ac))
    by (repeat split).
  split; [reflexivity|]. split; [reflexivity|]. split; [exact B|].
  split; [exact N|]. split; [exact S|]. split; [reflexivity|].
  exact (@lib_make_agrees reference bundler_silent options_default
           (world_unlucky deps_ac) (world_unlucky deps_ac) eq_refl eq_refl B N S).
Defined.

(** Three preparations in a row, three calls of the bundler, no
    snapshot. *)
Lemma variantA_never_caches_witness :
  Object_keys (obj_of deps_ac) = Some ["a"; "c"]
  /\ dllCache (world_first deps_ac) = None
  /\ dllCache (runs 3 (@VariantA.prepare reference bundler_ok options_default
                         (obj_of deps_ac)) (world_first deps_ac))
     = None
  /\ List.length
       (invocations (runs 3 (@VariantA.prepare reference bundler_ok options_default
                               (obj_of deps_ac)) (world_first deps_ac)))
     = List.length (invocations (world_first deps_ac)) + 3.
Proof.
  destruct (@variantA_never_caches reference bundler_ok options_default
              (obj_of deps_ac) ["a"; "c"] 3 (world_first deps_ac) eq_refl eq_refl)
    as (C & L & _).
  split; [reflexivity|]. split; [reflexivity|]. split; [exact C | exact L].
Defined.

(** The bundler emits nothing and there is no dll directory. *)
Lemma variantB_failed_write_never_settles_witness :
  Object_keys (obj_of deps_ac) = Some ["a"; "c"]
  /\ result (bundler_silent {| entry_name := dllName options_default;
                               entry := ["a"; "c"] |} (world_first deps_ac))
     = Completed good_stats
  /\ directory_there
       (bundler_silent {| entry_name := dllName options_default;
                          entry := ["a"; "c"] |} (world_first deps_ac))
       (world_first deps_ac)
     = false
  /\ exists w',
       @VariantB.make reference bundler_silent options_default (obj_of deps_ac)
         (world_first deps_ac)
       = (Pending, w')
       /\ dllCache w' = dllCache (world_first deps_ac).
Proof.
  repeat (split; [reflexivity|]).
  destruct (@variantB_failed_write_never_settles reference bundler_silent
              options_default (obj_of deps_ac) ["a"; "c"] good_stats
              (world_first deps_ac) eq_refl eq_refl) as (w' & M & C & _).
  exists w'. split; [exact M | exact C].
Defined.
